(** * Sliding-window inference and merge engine of the tokenization repairer

    A shallow embedding of [trt/api/__init__.py] (class
    [TokenizationRepairer]): window planning, batch scheduling, routing of
    the adapter's results, merging of per-window results and rendering of
    the corrected text.  Python exceptions are values of [error]; a Python
    function that may raise returns a [result], and a failing [assert]
    raises.  Integers are unbounded ([Z], or [nat] for the counters of
    [enumerate]); characters are [ascii], the engine only compares them
    with the space. *)

From Stdlib Require Import ZArith Ascii.
From stdpp Require Import base tactics option list numbers strings gmap
  gmultiset sorting.

Local Open Scope Z_scope.

(** ** Exceptions *)

(** The [assert] statements of the module, one tag per statement. *)
Inductive assertion :=
  | InputIsStringOrNonEmptyList   (* repair_text, line 380 *)
  | ResultsNonEmpty               (* _merge_inference_results, line 193 *)
  | WindowCountMatches            (* lines 203 and 228 *)
  | EverythingFilled              (* line 214 *)
  | MarkersPresent                (* line 238 *)
  | PointerAtEnd                  (* line 289 *)
  | NoSpacesEqual.                (* line 291 *)

Inductive error :=
  | AssertionError (a : assertion)
  | IndexError
  | ValueError
  | TypeError
  | AttributeError
  | KeyError
  | ExternalError.   (* raised inside an imported helper *)

Inductive result (A : Type) :=
  | Ok (a : A)
  | Err (e : error).
Arguments Ok {A} a.
Arguments Err {A} e.

#[global] Instance result_ret : MRet result := @Ok.
#[global] Instance result_bind : MBind result := λ A B f m,
  match m with Ok a => f a | Err e => Err e end.
#[global] Instance result_fmap : FMap result := λ A B f m,
  match m with Ok a => Ok (f a) | Err e => Err e end.

Definition assert (b : bool) (a : assertion) : result unit :=
  if b then Ok tt else Err (AssertionError a).

(** ** Python sequences *)

Abbreviation str := (list ascii).

Definition space : ascii := " "%char.

Definition len {A} (l : list A) : Z := Z.of_nat (length l).

(** A slice bound [i] of a sequence of length [n], as Python clamps it. *)
Definition slice_bound (n i : Z) : Z :=
  if i <? 0 then Z.max 0 (i + n) else Z.min i n.

(** The positions a slice [lo:hi] selects in a sequence of length [n]:
    the first one, and how many. *)
Definition slice_start (n : nat) (lo : Z) : nat :=
  Z.to_nat (slice_bound (Z.of_nat n) lo).
Definition slice_count (n : nat) (lo hi : Z) : nat :=
  Z.to_nat (slice_bound (Z.of_nat n) hi - slice_bound (Z.of_nat n) lo).

(** [l[lo:hi]] *)
Definition py_slice {A} (l : list A) (lo hi : Z) : list A :=
  take (slice_count (length l) lo hi) (drop (slice_start (length l) lo) l).

(** [l[i]], with Python's negative indices. *)
Definition py_get {A} (l : list A) (i : Z) : result A :=
  let j := if i <? 0 then i + len l else i in
  if j <? 0 then Err IndexError
  else match l !! Z.to_nat j with
       | Some x => Ok x
       | None => Err IndexError
       end.

(** [s.replace(" ", "")] *)
Definition remove_spaces (s : str) : str := filter (λ c, c ≠ space) s.

(** ["".join(parts)] *)
Definition join (parts : list str) : str := concat parts.

(** ** Inference results *)

(** [F] is the type of logits and log-probabilities (Python floats); the
    engine only copies them and pads with the constant zero. *)
Record SequenceClassificationInferenceResult (F : Type) := {
  predictions : list Z;
  logits : list (list F)
}.
Arguments predictions {F} _.
Arguments logits {F} _.

Record SequenceGenerationInferenceResult (F : Type) := {
  token_ids : list Z;
  token_log_probabilities : list F
}.
Arguments token_ids {F} _.
Arguments token_log_probabilities {F} _.

(** What a slot of [all_inference_results] can hold: [None] before the
    adapter's result is routed back, then a classification result, a
    generation result, or the ranked list of a beam search. *)
Inductive PyResult (F : Type) :=
  | PyNone
  | Classification (r : SequenceClassificationInferenceResult F)
  | Generation (r : SequenceGenerationInferenceResult F)
  | Beams (rs : list (SequenceGenerationInferenceResult F)).
Arguments PyNone {F}.
Arguments Classification {F} r.
Arguments Generation {F} r.
Arguments Beams {F} rs.

(** Values that occur as tuple items and as elements of a caller's list. *)
Inductive PyItem :=
  | PyInt (z : Z)
  | PyStr (s : str).

(** [x == y]: an [int] never equals a [str]. *)
Definition py_eq (x y : PyItem) : bool :=
  match x, y with
  | PyInt a, PyInt b => a =? b
  | PyStr a, PyStr b => bool_decide (a = b)
  | _, _ => false
  end.

(** [x in items] for a tuple or list [items]. *)
Definition py_in (x : PyItem) (items : list PyItem) : bool :=
  existsb (py_eq x) items.

(** [range(start, stop, step)] *)
Definition py_range (start stop step : Z) : result (list Z) :=
  if step =? 0 then Err ValueError
  else
    let count :=
      if 0 <? step then (stop - start + step - 1) / step
      else (start - stop - step - 1) / (- step) in
    Ok ((λ k : nat, start + Z.of_nat k * step) <$> seq 0 (Z.to_nat count)).

(** [sorted(l, key=key, reverse=True)]: stable, descending. *)
Fixpoint insert_desc {A} (key : A → Z) (e : A) (l : list A) : list A :=
  match l with
  | [] => [e]
  | x :: l' => if key x <=? key e then e :: x :: l' else x :: insert_desc key e l'
  end.

Definition sorted_desc {A} (key : A → Z) (l : list A) : list A :=
  foldr (insert_desc key) [] l.

(** ** numpy arrays *)

(** Arrays are lists.  The labels written into the integer buffer are
    taken to fit its element type. *)

(** Broadcasting a sequence of length [k] to length [n]: [k = n] or
    [k = 1]. *)
Definition np_broadcast {A} (vals : list A) (n : nat) : result (list A) :=
  if decide (length vals = n) then Ok vals
  else match vals with
       | [v] => Ok (replicate n v)
       | _ => Err ValueError
       end.

(** Broadcasting a list of rows to shape [(n, C)]; an empty list has shape
    [(0,)], rows of different lengths do not form an array. *)
Definition np_broadcast_rows {A} (rows : list (list A)) (n C : nat)
    : result (list (list A)) :=
  match rows with
  | [] => if decide (C = 0%nat) then Ok (replicate n []) else Err ValueError
  | row0 :: _ =>
      if forallb (λ r, bool_decide (length r = length row0)) rows then
        rows' ← mapM (λ r, np_broadcast r C) rows;
        np_broadcast rows' n
      else Err ValueError
  end.

Definition splice {A} (a : list A) (s : nat) (vals : list A) : list A :=
  take s a ++ vals ++ drop (s + length vals) a.

(** [a[lo:hi] = vals] on a one-dimensional array. *)
Definition np_set_slice {A} (a : list A) (lo hi : Z) (vals : list A)
    : result (list A) :=
  vals' ← np_broadcast vals (slice_count (length a) lo hi);
  Ok (splice a (slice_start (length a) lo) vals').

(** [a[lo:hi] = rows] on an array of shape [(len a, C)]. *)
Definition np_set_rows {A} (a : list (list A)) (C : nat) (lo hi : Z)
    (rows : list (list A)) : result (list (list A)) :=
  rows' ← np_broadcast_rows rows (slice_count (length a) lo hi) C;
  Ok (splice a (slice_start (length a) lo) rows').

(** ** The repairer and what it imports *)

Inductive ModelType := EncoderWithHead | Transformer.

Record CharTokenizer := {
  id_to_token : Z → str;
  token_to_id : str → Z
}.

(** Task-specific keyword arguments of [model.inference]. *)
Inductive Kwargs :=
  | NoSpaces (flags : list bool)
  | InputStrings (input_strings : list str).

(** [self]: the attributes the engine reads.  [char_tokenizer] (with
    [unk_token_id] and [ws_token_id]) is set by [__init__] for transformer
    models, the only ones that produce generation results. *)
Record TokenizationRepairer (F : Type) := {
  model_type : ModelType;            (* self.cfg.model.type *)
  max_num_embeddings : Z;            (* self.model.encoder.config *)
  char_tokenizer : CharTokenizer;
  model_inference : list str → Kwargs → result (list (PyResult F))
}.
Arguments model_type {F} _.
Arguments max_num_embeddings {F} _.
Arguments char_tokenizer {F} _.
Arguments model_inference {F} _ _ _.

(** Names imported from [trt.api.utils], [trt.utils.constants],
    [trt.utils.tokenization_repair] and [trt.utils.nlp].  Their code is
    not part of the module: they are parameters.  [nlp.clean_sequence]
    is called on every element of the caller's list, also on one that is
    not a string: [clean_sequence_of_int] is what it does then. *)
Class Imports := {
  BOS : str;
  EOS : str;
  UNK : str;
  sliding_windows : Z → Z → list Z;
  match_token_ids_ignoring_space_and_unk :
    list Z → CharTokenizer → str → str → str → result (Z * Z);
  repair_whitespace : str → list Z → result str;
  clean_sequence : str → str;
  clean_sequence_of_int : Z → result str
}.

(** The zero of the float type ([np.zeros], [np.pad], [0.]). *)
Class FloatZero (F : Type) := float_zero : F.

(** Modelled from the spec: [trt.api.utils.sliding_windows], whose source
    is not part of the module.  Window starts are spaced by [window_size]
    and cover the input; no window has an empty core, so an input of
    length 0 has no window. *)
Definition planned_windows (length window_size : Z) : list Z :=
  if 0 <? window_size then
    (λ i : nat, Z.of_nat i * window_size)
      <$> seq 0 (Z.to_nat ((length + window_size - 1) / window_size))
  else [].

(** The core region [start, min(start + window_size, length)) of each
    window. *)
Definition core_regions (length window_size : Z) (windows : list Z)
    : list (Z * Z) :=
  (λ w, (w, Z.min length (w + window_size))) <$> windows.

(** [regions] covers [from, to) left to right, each region starting where
    the previous one ends, none empty. *)
Fixpoint tiles (from : Z) (regions : list (Z * Z)) (to : Z) : Prop :=
  match regions with
  | [] => from = to
  | (a, b) :: rest => a = from ∧ a < b ∧ tiles b rest to
  end.

(** ** The engine *)

Section Engine.
Context {F : Type} {fzero : FloatZero F} {imports : Imports}.
Implicit Types (self : TokenizationRepairer F) (input_str : str).

(** Lines 178-180, in integers.  The code computes
    [math.ceil(0.75 * self.max_length)] in double precision: the product
    is exact, and its ceiling the integer ceiling of [3 * max_length / 4],
    as long as [3 * max_length < 2 ^ 53]; beyond that bound the product is
    rounded and the code's value can be smaller than the one here. *)
Definition max_length self : Z := max_num_embeddings self - 2.
Definition window_size self : Z := (3 * max_length self + 3) / 4.
Definition context_size self : Z := (max_length self - window_size self) / 2.

Definition ws_token_id self : Z := token_to_id (char_tokenizer self) [space].
Definition unk_token_id self : Z := token_to_id (char_tokenizer self) UNK.
Definition bos_token_id self : Z := token_to_id (char_tokenizer self) BOS.
Definition eos_token_id self : Z := token_to_id (char_tokenizer self) EOS.

(** *** Result merger: classification path (lines 199-218) *)

(** [start_idx] of line 208. *)
Definition start_idx self (i : nat) : Z :=
  if decide (i = 0%nat) then 0 else context_size self.

(** [ir.predictions[1:-1][start_idx:start_idx + self.window_size]] and the
    same slice of the logits (lines 209-210). *)
Definition core_predictions self (i : nat)
    (r : SequenceClassificationInferenceResult F) : list Z :=
  py_slice (py_slice (predictions r) 1 (-1))
           (start_idx self i) (start_idx self i + window_size self).
Definition core_logits self (i : nat)
    (r : SequenceClassificationInferenceResult F) : list (list F) :=
  py_slice (py_slice (logits r) 1 (-1))
           (start_idx self i) (start_idx self i + window_size self).

(** Body of the loop of lines 207-212 on the state
    [(merged_predictions, merged_logits)]; [C] is the number of columns
    of [merged_logits]. *)
Definition merge_classification_step self (C : nat) (i : nat)
    (ir : PyResult F) (window : Z) (st : list Z * list (list F))
    : result (list Z * list (list F)) :=
  let '(merged_predictions, merged_logits) := st in
  match ir with
  | Classification r =>
      merged_predictions ←
        np_set_slice merged_predictions window (window + window_size self)
                     (core_predictions self i r);
      merged_logits ←
        np_set_rows merged_logits C window (window + window_size self)
                    (core_logits self i r);
      Ok (merged_predictions, merged_logits)
  | _ => Err AttributeError
  end.

(** [for i, (ir, window) in enumerate(zip(inference_results, windows))],
    entered with counter [i]. *)
Fixpoint merge_classification_loop self (C : nat) (i : nat)
    (irs : list (PyResult F)) (windows : list Z)
    (st : list Z * list (list F)) : result (list Z * list (list F)) :=
  match irs, windows with
  | ir :: irs', window :: windows' =>
      st' ← merge_classification_step self C i ir window st;
      merge_classification_loop self C (S i) irs' windows' st'
  | _, _ => Ok st
  end.

Definition merge_classification self
    (first : SequenceClassificationInferenceResult F)
    (inference_results : list (PyResult F)) input_str
    : result (PyResult F) :=
  let input_length := length input_str in
  match inference_results with
  | [only] => Ok only
  | _ =>
      let windows := sliding_windows (len input_str) (window_size self) in
      _ ← assert (bool_decide (length inference_results = length windows))
                 WindowCountMatches;
      row0 ← py_get (logits first) 0;
      let C := length row0 in
      let merged_predictions := replicate input_length (-1) in
      let merged_logits := replicate input_length (replicate C float_zero) in
      '(merged_predictions, merged_logits) ←
        merge_classification_loop self C 0 inference_results windows
          (merged_predictions, merged_logits);
      _ ← assert (forallb (λ p, 0 <=? p) merged_predictions) EverythingFilled;
      Ok (Classification
            {| predictions := [0] ++ merged_predictions ++ [0];
               logits := [replicate C float_zero] ++ merged_logits
                         ++ [replicate C float_zero] |})
  end.

(** *** Result merger: generation path (lines 221-258) *)

(** [irs[0]] of line 223. *)
Definition top_beam (irs : PyResult F) : result (PyResult F) :=
  match irs with
  | Beams rs => Generation <$> py_get rs 0
  | _ => Err TypeError
  end.

(** The substrings of lines 233-237. *)
Definition input_str_left_context self input_str (window : Z) : str :=
  py_slice input_str (Z.max 0 (window - context_size self)) window.
Definition input_str_window self input_str (window : Z) : str :=
  py_slice input_str window (window + window_size self).
Definition input_str_right_context self input_str (window : Z) : str :=
  py_slice input_str (window + window_size self)
           (window + window_size self + context_size self).

(** The condition asserted at line 238; [and] evaluates its second
    operand only when the first holds. *)
Definition has_markers self (r : SequenceGenerationInferenceResult F)
    : result bool :=
  first_id ← py_get (token_ids r) 0;
  if first_id =? bos_token_id self
  then last_id ← py_get (token_ids r) (-1);
       Ok (last_id =? eos_token_id self)
  else Ok false.

(** Body of the loop of lines 232-250 on the state
    [(merged_token_ids, merged_log_probabilities)]. *)
Definition merge_generation_step self input_str (ir : PyResult F)
    (window : Z) (st : list Z * list F) : result (list Z * list F) :=
  let '(merged_token_ids, merged_log_probabilities) := st in
  match ir with
  | Generation r =>
      markers ← has_markers self r;
      _ ← assert markers MarkersPresent;
      '(from_idx, to_idx) ←
        match_token_ids_ignoring_space_and_unk
          (py_slice (token_ids r) 1 (-1)) (char_tokenizer self)
          (input_str_left_context self input_str window)
          (input_str_window self input_str window)
          (input_str_right_context self input_str window);
      Ok (merged_token_ids
            ++ py_slice (py_slice (token_ids r) 1 (-1)) from_idx to_idx,
          merged_log_probabilities
            ++ py_slice (py_slice (token_log_probabilities r) 1 (-1))
                        from_idx to_idx)
  | _ => Err AttributeError
  end.

Fixpoint merge_generation_loop self input_str
    (irs : list (PyResult F)) (windows : list Z)
    (st : list Z * list F) : result (list Z * list F) :=
  match irs, windows with
  | ir :: irs', window :: windows' =>
      st' ← merge_generation_step self input_str ir window st;
      merge_generation_loop self input_str irs' windows' st'
  | _, _ => Ok st
  end.

Definition merge_generation self (first : PyResult F)
    (inference_results : list (PyResult F)) input_str
    : result (PyResult F) :=
  inference_results ←
    match first with
    | Beams _ => mapM top_beam inference_results
    | _ => Ok inference_results
    end;
  match inference_results with
  | [only] => Ok only
  | _ =>
      let windows := sliding_windows (len input_str) (window_size self) in
      _ ← assert (bool_decide (length inference_results = length windows))
                 WindowCountMatches;
      '(merged_token_ids, merged_log_probabilities) ←
        merge_generation_loop self input_str inference_results windows ([], []);
      Ok (Generation
            {| token_ids :=
                 [bos_token_id self] ++ merged_token_ids ++ [eos_token_id self];
               token_log_probabilities :=
                 [float_zero] ++ merged_log_probabilities ++ [float_zero] |})
  end.

Definition _merge_inference_results self
    (inference_results : list (PyResult F)) input_str
    : result (PyResult F) :=
  match inference_results with
  | [] => Err (AssertionError ResultsNonEmpty)
  | Classification first :: _ =>
      merge_classification self first inference_results input_str
  | first :: _ => merge_generation self first inference_results input_str
  end.

(** *** Output renderer: [_inference_result_to_str] (lines 260-293) *)

(** Body of the loop of lines 277-286 on the state
    [(output_chars, input_str_no_spaces_ptr)]. *)
Definition render_step self (input_str_no_spaces : str)
    (st : list str * Z) (token_id : Z) : result (list str * Z) :=
  let '(output_chars, ptr) := st in
  if token_id =? ws_token_id self then Ok (output_chars ++ [[space]], ptr)
  else
    char ← (if negb (token_id =? unk_token_id self)
            then Ok (id_to_token (char_tokenizer self) token_id)
            else c ← py_get input_str_no_spaces ptr; Ok [c]);
    Ok (output_chars ++ [char], ptr + 1).

Fixpoint render_loop self (input_str_no_spaces : str) (tokens : list Z)
    (st : list str * Z) : result (list str * Z) :=
  match tokens with
  | [] => Ok st
  | token_id :: rest =>
      st' ← render_step self input_str_no_spaces st token_id;
      render_loop self input_str_no_spaces rest st'
  end.

Definition _inference_result_to_str self (inference_result : PyResult F)
    input_str : result str :=
  match inference_result with
  | Classification r =>
      repair_whitespace input_str (py_slice (predictions r) 1 (-1))
  | Generation r =>
      let input_str_no_spaces := remove_spaces input_str in
      '(output_chars, ptr) ←
        render_loop self input_str_no_spaces
                    (py_slice (token_ids r) 1 (-1)) ([], 0);
      let output_str := join output_chars in
      _ ← assert (ptr =? len input_str_no_spaces) PointerAtEnd;
      let output_str_no_spaces := remove_spaces output_str in
      _ ← assert (bool_decide (output_str_no_spaces = input_str_no_spaces))
                 NoSpacesEqual;
      Ok output_str
  | PyNone | Beams _ => Err AttributeError
  end.

(** The value of the pointer before the [k]-th token of a stream: the
    number of non-whitespace tokens among the first [k]. *)
Definition pointer_before self (tokens : list Z) (k : nat) : nat :=
  length (filter (λ t, t ≠ ws_token_id self) (take k tokens)).

(** *** Window planner and batch scheduler: [_repair_text_raw] *)

(** A batch entry [(input_idx, from_, to_, position)]. *)
Definition BatchEntry : Type := nat * Z * Z * nat.

Definition entry_tuple (e : BatchEntry) : list PyItem :=
  let '(input_idx, from_, to_, position) := e in
  [PyInt (Z.of_nat input_idx); PyInt from_; PyInt to_;
   PyInt (Z.of_nat position)].

(** The entries appended for one input and the slots allocated for it
    (lines 309-322). *)
Definition plan_input self (input_idx : nat) (ipt : str)
    : list BatchEntry * list (PyResult F) :=
  let length := len ipt in
  if length <=? max_length self then
    ([(input_idx, 0, length, 0%nat)], [PyNone])
  else
    let windows := sliding_windows length (window_size self) in
    (imap (λ i window,
             (input_idx,
              Z.max 0 (window - context_size self),
              Z.min length (window + window_size self + context_size self),
              i)) windows,
     replicate (List.length windows) PyNone).

(** [for input_idx, ipt in enumerate(inputs)], entered with counter
    [input_idx], on the state [(all_inference_results, batches)]. *)
Fixpoint plan_loop self (input_idx : nat) (inputs : list str)
    (st : gmap nat (list (PyResult F)) * list BatchEntry)
    : gmap nat (list (PyResult F)) * list BatchEntry :=
  match inputs with
  | [] => st
  | ipt :: inputs' =>
      let '(all_inference_results, batches) := st in
      let '(entries, slots) := plan_input self input_idx ipt in
      plan_loop self (S input_idx) inputs'
        (<[input_idx := slots]> all_inference_results, batches ++ entries)
  end.

(** [e[2] - e[1]], the sort key of line 325. *)
Definition entry_length (e : BatchEntry) : Z :=
  let '(_, from_, to_, _) := e in to_ - from_.

(** [inputs[input_idx][from_:to_]] *)
Definition batch_sequence (inputs : list str) (e : BatchEntry) : result str :=
  let '(input_idx, from_, to_, _) := e in
  ipt ← py_get inputs (Z.of_nat input_idx);
  Ok (py_slice ipt from_ to_).

(** Lines 350-354.  [ipt] ranges over the entries of [batch], which are
    tuples. *)
Definition batch_kwargs self (batch : list BatchEntry)
    (batch_sequences : list str) : Kwargs :=
  match model_type self with
  | EncoderWithHead =>
      NoSpaces ((λ ipt, negb (py_in (PyStr [space]) (entry_tuple ipt)))
                  <$> batch)
  | Transformer => InputStrings (remove_spaces <$> batch_sequences)
  end.

(** [all_inference_results[input_idx][position] = inference_result] *)
Definition store (all_inference_results : gmap nat (list (PyResult F)))
    (input_idx position : nat) (inference_result : PyResult F)
    : result (gmap nat (list (PyResult F))) :=
  match all_inference_results !! input_idx with
  | None => Err KeyError
  | Some slots =>
      if decide (position < List.length slots)%nat
      then Ok (<[input_idx := <[position := inference_result]> slots]>
                 all_inference_results)
      else Err IndexError
  end.

(** The loop of lines 361-365 over [zip(batch, batch_inference_results)]. *)
Fixpoint route (pairs : list (BatchEntry * PyResult F))
    (all_inference_results : gmap nat (list (PyResult F)))
    : result (gmap nat (list (PyResult F))) :=
  match pairs with
  | [] => Ok all_inference_results
  | ((input_idx, _, _, position), inference_result) :: pairs' =>
      all_inference_results ←
        store all_inference_results input_idx position inference_result;
      route pairs' all_inference_results
  end.

(** One iteration of the loop of lines 337-367. *)
Definition process_batch self (inputs : list str)
    (batches : list BatchEntry) (batch_size : Z) (batch_idx : Z)
    (all_inference_results : gmap nat (list (PyResult F)))
    : result (gmap nat (list (PyResult F))) :=
  let batch := py_slice batches batch_idx (batch_idx + batch_size) in
  batch_sequences ← mapM (batch_sequence inputs) batch;
  let kwargs := batch_kwargs self batch batch_sequences in
  batch_inference_results ← model_inference self batch_sequences kwargs;
  route (zip batch batch_inference_results) all_inference_results.

Fixpoint process_batches self (inputs : list str)
    (batches : list BatchEntry) (batch_size : Z) (batch_idxs : list Z)
    (all_inference_results : gmap nat (list (PyResult F)))
    : result (gmap nat (list (PyResult F))) :=
  match batch_idxs with
  | [] => Ok all_inference_results
  | batch_idx :: rest =>
      all_inference_results ←
        process_batch self inputs batches batch_size batch_idx
                      all_inference_results;
      process_batches self inputs batches batch_size rest
                      all_inference_results
  end.

(** The progress bar only reports; [show_progress] has no other use. *)
Definition _repair_text_raw self (inputs : list str) (batch_size : Z)
    (sort_by_length : bool) (show_progress : bool)
    : result (list (PyResult F)) :=
  let '(all_inference_results, batches) := plan_loop self 0 inputs (∅, []) in
  let batches :=
    if sort_by_length then sorted_desc entry_length batches else batches in
  batch_idxs ← py_range 0 (len batches) batch_size;
  all_inference_results ←
    process_batches self inputs batches batch_size batch_idxs
                    all_inference_results;
  mapM (λ i : nat,
          match all_inference_results !! i, inputs !! i with
          | Some irs, Some ipt => _merge_inference_results self irs ipt
          | None, _ => Err KeyError
          | _, None => Err IndexError
          end)
       (seq 0 (List.length inputs)).

(** *** Caller-facing API: [repair_text] (lines 372-394) *)

Inductive Inputs :=
  | InStr (s : str)
  | InList (l : list PyItem)
  | InOther.               (* neither a string nor a list *)

Inductive Outputs :=
  | OutStr (s : str)
  | OutList (l : list str).

Definition input_is_string (inputs : Inputs) : bool :=
  match inputs with InStr _ => true | _ => false end.

(** The condition asserted at line 380. *)
Definition valid_inputs (inputs : Inputs) : bool :=
  input_is_string inputs
  || match inputs with
     | InList (PyStr _ :: _) => true
     | _ => false
     end.

(** [nlp.clean_sequence(ipt)] of line 389.  The assertion of line 380
    only looks at the first element, so the imported function can be
    called on an element that is not a string. *)
Definition clean_item (ipt : PyItem) : result str :=
  match ipt with
  | PyStr s => Ok (clean_sequence s)
  | PyInt z => clean_sequence_of_int z
  end.

Definition repair_text self (inputs : Inputs) (batch_size : Z)
    (sort_by_length : bool) (show_progress : bool) : result Outputs :=
  _ ← assert (valid_inputs inputs) InputIsStringOrNonEmptyList;
  let items :=
    match inputs with
    | InStr s => [PyStr s]
    | InList l => l
    | InOther => []
    end in
  inputs' ← mapM clean_item items;
  inference_results ←
    _repair_text_raw self inputs' batch_size sort_by_length show_progress;
  outputs ← mapM (λ '(ipt, ir), _inference_result_to_str self ir ipt)
                 (zip inputs' inference_results);
  if input_is_string inputs then OutStr <$> py_get outputs 0
  else Ok (OutList outputs).

End Engine.

(** Position [p] of an array of length [n] is selected by the slice
    [window : window + window_size]. *)
Definition covers (n : nat) (window window_size : Z) (p : nat) : Prop :=
  (slice_start n window ≤ p
   < slice_start n window + slice_count n window (window + window_size))%nat.

(** ** The adapter contract *)

(** What the adapter is told about one substring of the batch. *)
Inductive KwEntry :=
  | NoSpacesFlag (b : bool)
  | InputString (s : str).

Definition kw_entries (kwargs : Kwargs) : list KwEntry :=
  match kwargs with
  | NoSpaces flags => NoSpacesFlag <$> flags
  | InputStrings input_strings => InputString <$> input_strings
  end.

(** The adapter is deterministic and order-preserving: it never fails, and
    its [k]-th result is a function [infer_one] of the [k]-th substring and
    of the keyword arguments for that substring. *)
Definition order_preserving {F} (self : TokenizationRepairer F)
    (infer_one : str → KwEntry → PyResult F) : Prop :=
  ∀ batch_sequences kwargs,
    model_inference self batch_sequences kwargs
    = Ok (zip_with infer_one batch_sequences (kw_entries kwargs)).

(** What the adapter owes for a substring of [n] characters when it
    classifies: a classification result with [n + 2] labels, none of them
    negative, and [n + 2] rows of [C] logits. *)
Definition well_shaped {F} (C : nat) (n : Z) (ir : PyResult F) : Prop :=
  ∃ r, ir = Classification r
       ∧ len (predictions r) = n + 2
       ∧ len (logits r) = n + 2
       ∧ Forall (λ row, length row = C) (logits r)
       ∧ Forall (λ label, 0 ≤ label) (predictions r).

(** ** An instance for the examples *)

Module Demo.

#[global] Instance Z_zero : FloatZero Z := 0.

Definition bos : str := String.list_ascii_of_string "<bos>".
Definition eos : str := String.list_ascii_of_string "<eos>".
Definition unk : str := String.list_ascii_of_string "<unk>".

(** A character tokenizer: a character's id is its code; the special
    tokens have the ids 256, 257 and 258. *)
Definition tokenizer : CharTokenizer := {|
  id_to_token z :=
    if z =? 256 then bos else if z =? 257 then eos
    else if z =? 258 then unk else [ascii_of_nat (Z.to_nat z)];
  token_to_id s :=
    match s with
    | [c] => Z.of_nat (nat_of_ascii c)
    | _ => if decide (s = bos) then 256
           else if decide (s = eos) then 257 else 258
    end
|}.

(** The index just past the first [n] non-whitespace tokens. *)
Fixpoint index_after (ws_id : Z) (n : nat) (tokens : list Z) : nat :=
  match n, tokens with
  | S n', t :: rest =>
      S (if t =? ws_id then index_after ws_id n rest
         else index_after ws_id n' rest)
  | _, _ => 0
  end.

(** A matcher that slices by the number of non-space characters of the
    left context and of the window. *)
Definition count_matcher (tokens : list Z) (tok : CharTokenizer)
    (left window right : str) : result (Z * Z) :=
  let ws_id := token_to_id tok [space] in
  let n_left := length (remove_spaces left) in
  let n_window := length (remove_spaces window) in
  Ok (Z.of_nat (index_after ws_id n_left tokens),
      Z.of_nat (index_after ws_id (n_left + n_window) tokens)).

Definition imports_with (planner : Z → Z → list Z) : Imports := {|
  BOS := bos; EOS := eos; UNK := unk;
  sliding_windows := planner;
  match_token_ids_ignoring_space_and_unk := count_matcher;
  repair_whitespace input_str labels := Ok input_str;
  clean_sequence s := s;
  clean_sequence_of_int z := Err AttributeError
|}.

(** The imports with the planner of the spec. *)
Definition imports : Imports := imports_with planned_windows.

Definition repairer (type : ModelType) (max_num_embeddings : Z)
    (infer_one : str → KwEntry → PyResult Z) : TokenizationRepairer Z := {|
  model_type := type;
  max_num_embeddings := max_num_embeddings;
  char_tokenizer := tokenizer;
  model_inference batch_sequences kwargs :=
    Ok (zip_with infer_one batch_sequences (kw_entries kwargs))
|}.

(** A classifier that labels every position with 0. *)
Definition keep_all (s : str) (kw : KwEntry) : PyResult Z :=
  Classification
    {| predictions := replicate (length s + 2) 0;
       logits := replicate (length s + 2) [0; 0; 0] |}.

(** A generator that copies its input, and the same as a beam search
    that ranks the copy first. *)
Definition copied (s : str) : SequenceGenerationInferenceResult Z :=
  {| token_ids := [256] ++ ((λ c, Z.of_nat (nat_of_ascii c)) <$> s) ++ [257];
     token_log_probabilities := replicate (length s + 2) 0 |}.
Definition copy (s : str) (kw : KwEntry) : PyResult Z :=
  Generation (copied s).
Definition copy_beams (s : str) (kw : KwEntry) : PyResult Z :=
  Beams [copied s; copied []].

(** A classification result with the given labels between the markers
    and one logit per position. *)
Definition labelled (labels : list Z) : PyResult Z :=
  Classification
    {| predictions := [0] ++ labels ++ [0];
       logits := (λ label, [label]) <$> ([0] ++ labels ++ [0]) |}.

(** A faulty planner: its second window starts on the last position of
    the first window's core. *)
Definition overlapping_planner (length window_size : Z) : list Z :=
  [0; window_size - 1].

End Demo.

(** ** What the engine computes for one input *)

Section PerInput.
Context {F : Type} {fzero : FloatZero F} {imports : Imports}.
Implicit Types (self : TokenizationRepairer F).

(** The keyword argument that reaches the adapter with a substring. *)
Definition kw_entry self (seq : str) : KwEntry :=
  match model_type self with
  | EncoderWithHead => NoSpacesFlag true
  | Transformer => InputString (remove_spaces seq)
  end.

(** The slot [(input_idx, position)] an entry's result is stored in. *)
Definition entry_key (e : BatchEntry) : nat * nat :=
  let '(input_idx, _, _, position) := e in (input_idx, position).

(** The substring of an entry, and the adapter's result for it. *)
Definition entry_sequence (inputs : list str) (e : BatchEntry) : str :=
  let '(input_idx, from_, to_, _) := e in
  py_slice (default [] (inputs !! input_idx)) from_ to_.
Definition entry_result self (infer_one : str → KwEntry → PyResult F)
    (inputs : list str) (e : BatchEntry) : PyResult F :=
  infer_one (entry_sequence inputs e) (kw_entry self (entry_sequence inputs e)).

(** The results of the windows of one input, in the order of the
    windows. *)
Definition window_results self (infer_one : str → KwEntry → PyResult F)
    (ipt : str) : list (PyResult F) :=
  entry_result self infer_one [ipt] <$> (plan_input self 0 ipt).1.

(** The merged result of one input. *)
Definition merged_result self (infer_one : str → KwEntry → PyResult F)
    (ipt : str) : result (PyResult F) :=
  _merge_inference_results self (window_results self infer_one ipt) ipt.

(** [all_inference_results[input_idx][position]] *)
Definition slot (all_inference_results : gmap nat (list (PyResult F)))
    (key : nat * nat) : option (PyResult F) :=
  slots ← all_inference_results !! key.1; slots !! key.2.

End PerInput.

(** ** Files: [repair_file] (lines 405-427) *)

(** [c.isspace()] for a character below 256: tab to carriage return, the
    four separators 28 to 31, the space, NEL and the no-break space. *)
Definition py_isspace (c : ascii) : bool :=
  let n := nat_of_ascii c in
  (Nat.leb 9 n && Nat.leb n 13) || (Nat.leb 28 n && Nat.leb n 32)
  || Nat.eqb n 133 || Nat.eqb n 160.

Fixpoint drop_while {A} (f : A → bool) (l : list A) : list A :=
  match l with
  | [] => []
  | x :: l' => if f x then drop_while f l' else l
  end.

(** [s.strip()] *)
Definition py_strip (s : str) : str :=
  reverse (drop_while py_isspace (reverse (drop_while py_isspace s))).

Definition newline : ascii := ascii_of_nat 10.

Section Files.
Context {F : Type} {fzero : FloatZero F} {imports : Imports}.

(** [for output in outputs] *)
Definition iterate_outputs (outputs : Outputs) : list str :=
  match outputs with
  | OutList l => l
  | OutStr s => (λ c, [c]) <$> s
  end.

(** [lines] is what iterating over the opened input file yields; the
    result is the returned value and the text written to the output file,
    if one is given.  Opening the files is not modelled. *)
Definition repair_file (self : TokenizationRepairer F) (lines : list str)
    (output_file_path : option str) (batch_size : Z)
    (sort_by_length show_progress : bool)
    : result (option (list str) * option str) :=
  let inputs := py_strip <$> lines in
  outputs ← repair_text self (InList (PyStr <$> inputs)) batch_size
                        sort_by_length show_progress;
  match output_file_path with
  | Some _ =>
      Ok (None,
          Some (concat ((λ output, output ++ [newline])
                          <$> iterate_outputs outputs)))
  | None => Ok (Some (iterate_outputs outputs), None)
  end.

End Files.

(** ** Hooks: [trt/utils/hooks.py] *)

Module Hooks.

(** A hook object: what it has saved so far.  [T] is the type of the
    saved tensors. *)
Record SaveHook (T : Type) := { saved : list T }.
Arguments saved {T} _.

(** A Python [dict] with string keys: the items in the order of their
    first insertion, every key once. *)
Abbreviation dict V := (list (string * V)).

(** [key in d] and [d[key]] *)
Fixpoint dict_get {V} (d : dict V) (key : string) : option V :=
  match d with
  | [] => None
  | (k, v) :: d' => if decide (k = key) then Some v else dict_get d' key
  end.

(** [d[key] = value]: a present key keeps its place. *)
Fixpoint dict_set {V} (d : dict V) (key : string) (value : V) : dict V :=
  match d with
  | [] => [(key, value)]
  | (k, v) :: d' =>
      if decide (k = key) then (k, value) :: d'
      else (k, v) :: dict_set d' key value
  end.

Section ModelHook.
Context {T N Module Class : Type}.
(** [isinstance(module, attach_to_cls)] and [t.numpy()]. *)
Variable isinstance : Module → Class → bool.
Variable numpy : T → N.

(** [SaveHook.clear] *)
Definition hook_clear (hook : SaveHook T) : SaveHook T := {| saved := [] |}.

(** The inner loop of [ModelHook.clear],
    [for name, hook in v.items(): hook.clear()]: it clears every hook of
    the group and leaves the last key of the group in [name]. *)
Fixpoint clear_group (v : dict (SaveHook T)) (name : option string)
    : dict (SaveHook T) * option string :=
  match v with
  | [] => ([], name)
  | (layer, hook) :: v' =>
      let '(cleared, name') := clear_group v' (Some layer) in
      ((layer, hook_clear hook) :: cleared, name')
  end.

(** [ModelHook.clear(name)]; the variable [name] of the inner loop is the
    parameter [name]. *)
Fixpoint clear (attached_hooks : dict (dict (SaveHook T)))
    (name : option string) : dict (dict (SaveHook T)) :=
  match attached_hooks with
  | [] => []
  | (k, v) :: rest =>
      if bool_decide (name ≠ None ∧ name ≠ Some k)
      then (k, v) :: clear rest name
      else let '(v', name') := clear_group v name in
           (k, v') :: clear rest name'
  end.

(** [self.attached_hooks[name][module_name] = hook_cp] on a
    [defaultdict(dict)]: a missing [name] is created first. *)
Definition attach_one (attached_hooks : dict (dict (SaveHook T)))
    (name module_name : string) (hook_cp : SaveHook T)
    : dict (dict (SaveHook T)) :=
  let group := default [] (dict_get attached_hooks name) in
  dict_set attached_hooks name (dict_set group module_name hook_cp).

(** [ModelHook.attach]; [named_modules] is what [model.named_modules()]
    yields.  Registering the copy on the module is torch's part. *)
Fixpoint attach (attached_hooks : dict (dict (SaveHook T))) (name : string)
    (named_modules : list (string * Module)) (hook : SaveHook T)
    (attach_to_cls : Class) (layer_name : option string)
    : dict (dict (SaveHook T)) :=
  match named_modules with
  | [] => attached_hooks
  | (module_name, module) :: rest =>
      if isinstance module attach_to_cls
         && negb (bool_decide (layer_name ≠ None
                               ∧ layer_name ≠ Some module_name))
      then attach (attach_one attached_hooks name module_name hook) name rest
                  hook attach_to_cls layer_name
      else attach attached_hooks name rest hook attach_to_cls layer_name
  end.

(** A module that [attach] takes. *)
Definition attaches (attach_to_cls : Class) (layer_name : option string)
    (item : string * Module) : Prop :=
  isinstance item.2 attach_to_cls = true
  ∧ (layer_name = None ∨ layer_name = Some item.1).

(** [ModelHook.__getitem__] *)
Definition getitem (attached_hooks : dict (dict (SaveHook T)))
    (name : string) : result (dict (list N)) :=
  match dict_get attached_hooks name with
  | None => Err ValueError
  | Some tensor_dict =>
      Ok ((λ '(n, v), (n, numpy <$> saved v)) <$> tensor_dict)
  end.

End ModelHook.
End Hooks.

(** * Metrics

    [trt/utils/metrics.py].  The edit distance [ed] is the one of the
    [editdistance] package and is a parameter.  Floats are kept behind an
    interface: the code only divides, adds, multiplies and compares them
    with zero. *)
Module Metrics.

(** What a call gives: a value, or [ZeroDivisionError]. *)
Inductive outcome (A : Type) : Type :=
  | Returns (a : A)
  | ZeroDivisionError.
Arguments Returns {A} _.
Arguments ZeroDivisionError {A}.

(** The float operations of the module: [a / b] on two ints with
    [b != 0], [sum(xs) / n], [x == 0], [x > 0], [x + y], [x * y],
    [x / y] and the float of an int literal. *)
Class PyFloat (float : Type) : Type := {
  truediv : Z → Z → float;
  sum_div : list float → Z → float;
  is_zero : float → bool;
  is_positive : float → bool;
  fadd : float → float → float;
  fmul : float → float → float;
  fdiv : float → float → float;
  of_int : Z → float
}.

Section EditDistance.
Context {A float : Type} {floats : PyFloat float}.
Variable ed : list A → list A → Z.

(** The list comprehension of [_ned]: the division by
    [max(len(s), len(t))] is an int division and raises on zero. *)
Fixpoint ned_terms (pairs : list (list A * list A))
    : outcome (list float) :=
  match pairs with
  | [] => Returns []
  | (s, t) :: rest =>
      let n := Z.max (Z.of_nat (length s)) (Z.of_nat (length t)) in
      if decide (n = 0) then ZeroDivisionError
      else match ned_terms rest with
           | Returns ned => Returns (truediv (ed s t) n :: ned)
           | ZeroDivisionError => ZeroDivisionError
           end
  end.

Definition _ned (l1 l2 : list (list A)) : outcome float :=
  match ned_terms (zip l1 l2) with
  | Returns ned => Returns (sum_div ned (Z.max (Z.of_nat (length ned)) 1))
  | ZeroDivisionError => ZeroDivisionError
  end.

Definition mean_normalized_sequence_edit_distance := _ned.
Definition normalized_token_edit_distance := _ned.
End EditDistance.

Section Scores.
Context {float : Type} {floats : PyFloat float}.

Definition _tp_fp_fn_to_f1_prec_rec (tp fp fn : Z)
    : option (float * float * float) :=
  let precision := truediv tp (Z.max (tp + fp) 1) in
  let recall := truediv tp (Z.max (tp + fn) 1) in
  if is_zero precision && is_zero recall then None
  else
    let f1 :=
      if is_positive (fadd precision recall)
      then fdiv (fmul (fmul (of_int 2) precision) recall)
                (fadd precision recall)
      else of_int 0 in
    Some (f1, precision, recall).

(** [s.split(" ")] *)
Fixpoint split_space (s : str) : list str :=
  match s with
  | [] => [[]]
  | c :: s' =>
      if decide (c = " "%char) then [] :: split_space s'
      else match split_space s' with
           | [] => [[c]]
           | word :: words => (c :: word) :: words
           end
  end.

(** One round of the loop of [f1_prec_rec]; [collections.Counter] is a
    multiset, [&] its intersection and [sum(c.values())] its size. *)
Definition f1_prec_rec_step (split_fn : str → list str)
    (counts : Z * Z * Z) (pair : str * str) : Z * Z * Z :=
  let '(tp, fp, fn) := counts in
  let '(sequence, target_sequence) := pair in
  let tokens := split_fn sequence in
  let target_tokens := split_fn target_sequence in
  let tokens_count : gmultiset str := list_to_set_disj tokens in
  let target_tokens_count : gmultiset str := list_to_set_disj target_tokens in
  let tokens_in_common :=
    Z.of_nat (size (tokens_count ∩ target_tokens_count)) in
  (tp + tokens_in_common,
   fp + (Z.of_nat (length tokens) - tokens_in_common),
   fn + (Z.of_nat (length target_tokens) - tokens_in_common)).

Definition f1_prec_rec (sequences target_sequences : list str)
    (split_fn : option (str → list str)) : option (float * float * float) :=
  let split_fn := default split_space split_fn in
  let '(tp, fp, fn) :=
    foldl (f1_prec_rec_step split_fn) (0, 0, 0)
          (zip sequences target_sequences) in
  _tp_fp_fn_to_f1_prec_rec tp fp fn.
End Scores.

(** [_insertions_and_deletions]: the loop over [enumerate(repair_ops)],
    from index [i] on. *)
Fixpoint insertions_and_deletions_loop (i : nat) (repair_ops : list Z)
    (insertions_and_deletions : gset (nat * Z)) : gset (nat * Z) :=
  match repair_ops with
  | [] => insertions_and_deletions
  | op :: rest =>
      insertions_and_deletions_loop (S i) rest
        (if decide (op ≠ 0) then {[ (i, op) ]} ∪ insertions_and_deletions
         else insertions_and_deletions)
  end.

Definition _insertions_and_deletions (repair_ops : list Z)
    : gset (nat * Z) :=
  insertions_and_deletions_loop 0 repair_ops ∅.

(** The text metrics, by class. *)
Inductive TextMetric : Type :=
  | QualitativeBatchEvaluation
  | QualitativeBatchEvaluationTokenizationRepair
  | QualitativeBatchEvaluationClassification
  | QualitativeBatchEvaluationSequenceClassification.

(** [TextMetric.name] *)
Definition name (metric : TextMetric) : string :=
  match metric with
  | QualitativeBatchEvaluation => "qualitative_batch_evaluation"
  | QualitativeBatchEvaluationTokenizationRepair =>
      "qualitative_batch_evaluation_tokenization_repair"
  | QualitativeBatchEvaluationClassification =>
      "qualitative_batch_evaluation_classification"
  | QualitativeBatchEvaluationSequenceClassification =>
      "qualitative_batch_evaluation_sequence_classification"
  end.


(** Exact fractions [(numerator, denominator)], denominator positive,
    as one instance of the float operations. *)
Module Fractions.
Definition fraction : Type := Z * Z.
Definition add (x y : fraction) : fraction :=
  (x.1 * y.2 + y.1 * x.2, x.2 * y.2).
Definition mul (x y : fraction) : fraction := (x.1 * y.1, x.2 * y.2).
Definition div (x y : fraction) : fraction :=
  (Z.sgn y.1 * x.1 * y.2, x.2 * Z.abs y.1).
#[global] Instance floats : PyFloat fraction := {|
  truediv a b := (Z.sgn b * a, Z.abs b);
  sum_div xs n := div (foldl add (0, 1) xs) (n, 1);
  is_zero x := bool_decide (x.1 = 0);
  is_positive x := bool_decide (0 < x.1);
  fadd := add;
  fmul := mul;
  fdiv := div;
  of_int n := (n, 1)
|}.
End Fractions.
End Metrics.

(** * Properties *)

(** ** The model on concrete inputs *)

Example py_slice_strips_markers : py_slice [7; 1; 2; 3; 8] 1 (-1) = [1; 2; 3].
Proof. reflexivity. Qed.

Example py_slice_clamps : py_slice [1; 2; 3] 2 10 = [3].
Proof. reflexivity. Qed.

Example py_slice_of_short_list : py_slice [7] 1 (-1) = [].
Proof. reflexivity. Qed.

Example py_get_last : py_get [1; 2; 3] (-1) = Ok 3.
Proof. reflexivity. Qed.

Example py_get_of_empty : py_get ([] : list Z) 0 = Err IndexError.
Proof. reflexivity. Qed.

Example py_range_steps : py_range 0 5 2 = Ok [0; 2; 4].
Proof. reflexivity. Qed.

Example py_range_step_zero : py_range 0 5 0 = Err ValueError.
Proof. reflexivity. Qed.

Example py_range_negative_step : py_range 0 5 (-2) = Ok [].
Proof. reflexivity. Qed.

Example sorted_desc_is_stable :
  sorted_desc snd [(1, 5); (2, 7); (3, 5); (4, 7)]
  = [(2, 7); (4, 7); (1, 5); (3, 5)].
Proof. reflexivity. Qed.

Example np_set_slice_writes :
  np_set_slice [-1; -1; -1; -1; -1] 3 6 [4; 5] = Ok [-1; -1; -1; 4; 5].
Proof. reflexivity. Qed.

Example np_set_slice_broadcasts :
  np_set_slice [-1; -1; -1; -1; -1] 1 4 [9] = Ok [-1; 9; 9; 9; -1].
Proof. reflexivity. Qed.

Example np_set_slice_shape_mismatch :
  np_set_slice [-1; -1; -1; -1; -1] 1 4 [8; 9] = Err ValueError.
Proof. reflexivity. Qed.

Example planned_windows_of_1300 : planned_windows 1300 600 = [0; 600; 1200].
Proof. reflexivity. Qed.

Example planned_windows_of_empty : planned_windows 0 600 = [].
Proof. reflexivity. Qed.

(** A classification model end to end: three windows, every slot filled. *)
Example repair_text_classification :
  repair_text (imports := Demo.imports)
    (Demo.repairer EncoderWithHead 10 Demo.keep_all)
    (InStr (String.list_ascii_of_string "abc def ghi jkl")) 2 true false
  = Ok (OutStr (String.list_ascii_of_string "abc def ghi jkl")).
Proof. by vm_compute. Qed.

(** A beam search end to end: the top candidate of every window. *)
Example repair_text_beam_search :
  repair_text (imports := Demo.imports)
    (Demo.repairer Transformer 10 Demo.copy_beams)
    (InStr (String.list_ascii_of_string "abc def ghi jkl")) 2 false false
  = Ok (OutStr (String.list_ascii_of_string "abc def ghi jkl")).
Proof. by vm_compute. Qed.

(** A batch size that is not positive: [range] raises for 0; for a
    negative one no batch is dispatched and the slots keep [None]. *)
Example repair_text_batch_size_zero :
  repair_text (imports := Demo.imports)
    (Demo.repairer Transformer 10 Demo.copy)
    (InStr (String.list_ascii_of_string "xy")) 0 true false
  = Err ValueError.
Proof. by vm_compute. Qed.

Example repair_text_batch_size_negative :
  repair_text (imports := Demo.imports)
    (Demo.repairer Transformer 10 Demo.copy)
    (InStr (String.list_ascii_of_string "xy")) (-1) true false
  = Err AttributeError.
Proof. by vm_compute. Qed.

(** ** Python sequences and the error monad *)

Lemma bind_Ok {A B} (m : result A) (f : A → result B) (b : B) :
  m ≫= f = Ok b ↔ ∃ a, m = Ok a ∧ f a = Ok b.
Proof.
  destruct m as [a|e]; simpl; split.
  - intros Hf. by exists a.
  - by intros (a' & [= ->] & Hf).
  - discriminate.
  - by intros (a' & [=] & _).
Qed.

Lemma assert_Ok (b : bool) (a : assertion) (u : unit) :
  assert b a = Ok u ↔ b = true.
Proof. destruct b, u; simpl; split; congruence. Qed.

Lemma py_get_nat {A} (l : list A) (i : nat) :
  py_get l (Z.of_nat i) =
  match l !! i with Some x => Ok x | None => Err IndexError end.
Proof.
  unfold py_get.
  destruct (Z.ltb_spec (Z.of_nat i) 0) as [?|_]; [lia|].
  destruct (Z.ltb_spec (Z.of_nat i) 0) as [?|_]; [lia|].
  by rewrite Nat2Z.id.
Qed.

Lemma py_get_Ok_nonneg {A} (l : list A) (i : Z) (x : A) :
  0 ≤ i → py_get l i = Ok x ↔ l !! Z.to_nat i = Some x.
Proof.
  intros Hi. rewrite <- (Z2Nat.id i) at 1 by done. rewrite py_get_nat.
  destruct (l !! Z.to_nat i); split; congruence.
Qed.

Lemma py_slice_take_drop {A} (l : list A) (lo hi : Z) :
  0 ≤ lo ≤ hi →
  py_slice l lo hi = take (Z.to_nat (hi - lo)) (drop (Z.to_nat lo) l).
Proof.
  intros Hlo. unfold py_slice, slice_start, slice_count, slice_bound.
  destruct (Z.ltb_spec lo 0), (Z.ltb_spec hi 0); try lia.
  destruct (decide (Z.of_nat (length l) ≤ lo)) as [Hge|Hlt].
  - rewrite !drop_ge by lia. by rewrite !take_nil.
  - replace (Z.to_nat (lo `min` Z.of_nat (length l))) with (Z.to_nat lo) by lia.
    destruct (decide (hi ≤ Z.of_nat (length l))) as [Hhi|Hhi].
    + f_equal. lia.
    + rewrite !take_ge; [done|rewrite length_drop; lia..].
Qed.

(** ** The window planner *)

Section Planner.
Variables length window_size : Z.
Hypothesis window_size_pos : 0 < window_size.

Lemma tiles_from (n j : nat) :
  length ≤ Z.of_nat (j + n) * window_size →
  (∀ i : nat, (i < j + n)%nat → Z.of_nat i * window_size < length) →
  tiles (Z.min length (Z.of_nat j * window_size))
    (core_regions length window_size
       ((λ i : nat, Z.of_nat i * window_size) <$> seq j n))
    length.
Proof using window_size_pos.
  revert j. induction n as [|n IH]; intros j Hup Hlow; simpl.
  - rewrite Nat.add_0_r in Hup. lia.
  - pose proof (Hlow j ltac:(lia)) as Hj.
    split; [lia|]. split; [lia|].
    replace (Z.min length (Z.of_nat j * window_size + window_size))
      with (Z.min length (Z.of_nat (S j) * window_size)) by (f_equal; lia).
    apply IH.
    + by replace (S j + n)%nat with (j + S n)%nat by lia.
    + intros i Hi. apply Hlow. lia.
Qed.

Lemma window_count_bounds :
  0 ≤ length →
  let count := (length + window_size - 1) / window_size in
  0 ≤ count ∧ length ≤ count * window_size
  ∧ (count - 1) * window_size < length.
Proof using window_size_pos.
  intros Hlen count.
  pose proof (Z.div_mod (length + window_size - 1) window_size ltac:(lia)) as Hdm.
  pose proof (Z.mod_pos_bound (length + window_size - 1) window_size
                window_size_pos) as Hr.
  fold count in Hdm.
  assert (0 ≤ count) by (apply Z.div_pos; lia).
  split; [done|]. split; nia.
Qed.

Lemma planned_windows_tile :
  0 ≤ length →
  tiles 0 (core_regions length window_size
             (planned_windows length window_size)) length.
Proof using window_size_pos.
  intros Hlen. unfold planned_windows.
  destruct (Z.ltb_spec 0 window_size) as [_|?]; [|lia].
  destruct (window_count_bounds Hlen) as (Hc0 & Hup & Hlow).
  set (count := (length + window_size - 1) / window_size) in *.
  replace 0 with (Z.min length (Z.of_nat 0 * window_size)) at 1 by lia.
  apply tiles_from.
  - simpl. rewrite Z2Nat.id by done. done.
  - intros i Hi. simpl in Hi. nia.
Qed.
End Planner.

(** C2: for every input length and every positive window size the core
    regions [start, min(start + window_size, input_length)) of the planned
    windows tile [0, input_length) from left to right without gap or
    overlap; a context of 800 gives a window size of 600 and a context
    size of 100, and an input of length 1000 is planned as the two windows
    0 and 600 with the cores [0, 600) and [600, 1000). *)
Theorem planned_cores_tile {F} (self : TokenizationRepairer F)
    (input_length window_size' : Z) :
  0 ≤ input_length → 0 < window_size' →
  tiles 0 (core_regions input_length window_size'
             (planned_windows input_length window_size')) input_length
  ∧ (0 < max_length self → 0 < window_size self)
  ∧ (max_length self = 800 →
     window_size self = 600 ∧ context_size self = 100)
  ∧ planned_windows 1000 600 = [0; 600]
  ∧ core_regions 1000 600 (planned_windows 1000 600)
    = [(0, 600); (600, 1000)].
Proof.
  intros Hlen Hws. split; [by apply planned_windows_tile|].
  split.
  { unfold window_size. intros Hm. apply Z.div_str_pos. lia. }
  split; [|done].
  unfold context_size, window_size. by intros ->.
Qed.

Lemma planned_cores_tile_witness :
  tiles 0 (core_regions 1000 600 (planned_windows 1000 600)) 1000
  ∧ window_size (Demo.repairer Transformer 802 Demo.copy) = 600.
Proof.
  pose proof (planned_cores_tile (Demo.repairer Transformer 802 Demo.copy)
                1000 600 ltac:(lia) ltac:(lia)) as (Ht & _ & Hw & _).
  split; [exact Ht|]. exact (proj1 (Hw eq_refl)).
Defined.

(** ** The batch scheduler's keyword arguments *)

Lemma space_not_in_entry (e : BatchEntry) :
  py_in (PyStr [space]) (entry_tuple e) = false.
Proof. by destruct e as [[[input_idx from_] to_] position]. Qed.

(** C10: for a classification (encoder_with_head) model the [no_spaces]
    flags are computed from the batch entries, which are tuples of
    integers, and not from the substrings: every flag is [True], whatever
    the substrings contain. *)
Theorem no_spaces_flags_all_true {F} (self : TokenizationRepairer F)
    (batch : list BatchEntry) (batch_sequences : list str) :
  model_type self = EncoderWithHead →
  batch_kwargs self batch batch_sequences
  = NoSpaces (replicate (length batch) true).
Proof.
  intros Htype. unfold batch_kwargs. rewrite Htype. f_equal.
  induction batch as [|e batch IH]; [done|].
  rewrite fmap_cons, space_not_in_entry. simpl. by f_equal.
Qed.

Lemma no_spaces_flags_all_true_witness :
  batch_kwargs (Demo.repairer EncoderWithHead 6 Demo.keep_all)
    [(0%nat, 0, 3, 0%nat)] [String.list_ascii_of_string "a b"]
  = NoSpaces [true].
Proof.
  exact (no_spaces_flags_all_true
           (Demo.repairer EncoderWithHead 6 Demo.keep_all)
           [(0%nat, 0, 3, 0%nat)] [String.list_ascii_of_string "a b"] eq_refl).
Defined.

(** ** Inputs that fit the context *)

Lemma py_slice_all {A} (l : list A) : py_slice l 0 (len l) = l.
Proof.
  unfold len. rewrite py_slice_take_drop by lia.
  rewrite Z.sub_0_r, Nat2Z.id. simpl. by rewrite take_ge.
Qed.

(** C3: an input of length at most [max_length] (the empty input
    included) is planned as the single window [0, input_length) at
    position 0, whose substring is the whole input, and the merger returns
    a single result as it received it (of a ranked beam-search list, its
    top candidate). *)
Theorem short_input_single_window {F} {fzero : FloatZero F} {imports : Imports}
    (self : TokenizationRepairer F) (infer_one : str → KwEntry → PyResult F)
    (input_idx : nat) (ipt : str) (ir : PyResult F) (input_str : str) :
  len ipt ≤ max_length self →
  plan_input self input_idx ipt = ([(input_idx, 0, len ipt, 0%nat)], [PyNone])
  ∧ window_results self infer_one ipt = [infer_one ipt (kw_entry self ipt)]
  ∧ _merge_inference_results self [ir] input_str
    = match ir with
      | Beams rs => Generation <$> py_get rs 0
      | _ => Ok ir
      end.
Proof.
  intros Hlen.
  assert (∀ i, plan_input self i ipt = ([(i, 0, len ipt, 0%nat)], [PyNone]))
    as Hplan.
  { intros i. unfold plan_input.
    by destruct (Z.leb_spec (len ipt) (max_length self)) as [_|?]; [|lia]. }
  split_and!; [done| |].
  - unfold window_results, entry_result. rewrite Hplan. simpl.
    by rewrite py_slice_all.
  - destruct ir as [|r|r|rs]; try done.
    unfold _merge_inference_results, merge_generation. simpl.
    by destruct (py_get rs 0).
Qed.

Lemma short_input_single_window_witness :
  plan_input (imports := Demo.imports) (Demo.repairer Transformer 6 Demo.copy) 0 []
  = ([(0%nat, 0, 0, 0%nat)], [PyNone])
  ∧ _merge_inference_results (imports := Demo.imports)
      (Demo.repairer Transformer 6 Demo.copy) [Demo.copy [] (InputString [])] []
    = Ok (Demo.copy [] (InputString [])).
Proof.
  pose proof (short_input_single_window (imports := Demo.imports)
                (Demo.repairer Transformer 6 Demo.copy) Demo.copy 0 []
                (Demo.copy [] (InputString [])) [] ltac:(by vm_compute))
    as (Hplan & _ & Hmerge).
  by split.
Defined.

(** ** The output renderer *)

Section RendererProperties.
Context {F : Type} {imports : Imports}.
Variable self : TokenizationRepairer F.
Variable input_str_no_spaces : str.

Lemma pointer_before_0 (tokens : list Z) : pointer_before self tokens 0 = 0%nat.
Proof. unfold pointer_before. by rewrite take_0. Qed.

Lemma pointer_before_cons_ws (t : Z) (tokens : list Z) (k : nat) :
  t = ws_token_id self →
  pointer_before self (t :: tokens) (S k) = pointer_before self tokens k.
Proof.
  intros Ht. unfold pointer_before. simpl. by rewrite filter_cons_False; [|tauto].
Qed.

Lemma pointer_before_cons_other (t : Z) (tokens : list Z) (k : nat) :
  t ≠ ws_token_id self →
  pointer_before self (t :: tokens) (S k) = S (pointer_before self tokens k).
Proof.
  intros Ht. unfold pointer_before. simpl. by rewrite filter_cons_True.
Qed.

(** What the loop appends: one piece per token, the pointer counting the
    non-whitespace tokens. *)
Lemma render_loop_pieces (tokens : list Z) :
  ∀ (output_chars : list str) (ptr : Z) output_chars' ptr',
  0 ≤ ptr →
  render_loop self input_str_no_spaces tokens (output_chars, ptr)
  = Ok (output_chars', ptr') →
  ∃ pieces : list str,
    output_chars' = output_chars ++ pieces
    ∧ length pieces = length tokens
    ∧ ptr' = ptr + Z.of_nat (pointer_before self tokens (length tokens))
    ∧ ∀ (k : nat) (token_id : Z), tokens !! k = Some token_id →
        let p := (Z.to_nat ptr + pointer_before self tokens k)%nat in
        (token_id = ws_token_id self → pieces !! k = Some [space])
        ∧ (token_id ≠ ws_token_id self → token_id = unk_token_id self →
           ∃ c, input_str_no_spaces !! p = Some c ∧ pieces !! k = Some [c])
        ∧ (token_id ≠ ws_token_id self → token_id ≠ unk_token_id self →
           pieces !! k = Some (id_to_token (char_tokenizer self) token_id)).
Proof.
  induction tokens as [|t tokens IH]; intros out ptr out' ptr' Hptr Hloop.
  { simpl in Hloop. injection Hloop as <- <-. exists [].
    rewrite app_nil_r, pointer_before_0.
    split_and!; [done|done|lia|]. intros k tok [=]. }
  simpl in Hloop. apply bind_Ok in Hloop as ([out1 ptr1] & Hstep & Hloop).
  unfold render_step in Hstep.
  destruct (Z.eqb_spec t (ws_token_id self)) as [Hws|Hws].
  - injection Hstep as <- <-.
    apply IH in Hloop as (pieces & -> & Hlen & -> & Hpieces); [|done].
    exists ([space] :: pieces). rewrite <- app_assoc. simpl.
    rewrite pointer_before_cons_ws; [|done].
    split_and!; [done|by f_equal|done|].
    intros [|k] tok Hk; simpl in Hk.
    + injection Hk as <-. rewrite pointer_before_0. by split_and!.
    + rewrite pointer_before_cons_ws; [|done]. by apply Hpieces.
  - apply bind_Ok in Hstep as (char & Hchar & [= <- <-]).
    apply IH in Hloop as (pieces & -> & Hlen & -> & Hpieces); [|lia].
    exists (char :: pieces). rewrite <- app_assoc. simpl.
    rewrite pointer_before_cons_other; [|done].
    split_and!; [done|by f_equal|lia|].
    intros [|k] tok Hk; simpl in Hk.
    + injection Hk as <-. rewrite pointer_before_0, Nat.add_0_r. simpl.
      destruct (Z.eqb_spec t (unk_token_id self)) as [Hunk|Hunk];
        simpl in Hchar.
      * apply bind_Ok in Hchar as (c & Hc & [= <-]).
        apply py_get_Ok_nonneg in Hc; [|done].
        split_and!; [done| |done]. intros _ _. by exists c.
      * injection Hchar as <-. by split_and!.
    + rewrite pointer_before_cons_other; [|done]. simpl.
      replace (Z.to_nat ptr + S (pointer_before self tokens k))%nat
        with (Z.to_nat (ptr + 1) + pointer_before self tokens k)%nat by lia.
      by apply Hpieces.
Qed.
End RendererProperties.

(** C1: when the generation renderer returns, the output without its
    spaces is the input without its spaces; the output is the
    concatenation of one piece per token of the stream (markers stripped),
    a whitespace token giving a space, an unknown-token placeholder giving
    the character of the space-stripped input the pointer stands at (the
    pointer counts the non-whitespace tokens before it), any other token
    its decoded text; otherwise the renderer fails. *)
Theorem rendered_generation_matches_input {F} {imports : Imports}
    (self : TokenizationRepairer F)
    (r : SequenceGenerationInferenceResult F) (input_str output_str : str) :
  _inference_result_to_str self (Generation r) input_str = Ok output_str →
  let tokens := py_slice (token_ids r) 1 (-1) in
  remove_spaces output_str = remove_spaces input_str
  ∧ pointer_before self tokens (length tokens)
    = length (remove_spaces input_str)
  ∧ ∃ pieces : list str,
      output_str = join pieces
      ∧ length pieces = length tokens
      ∧ ∀ (k : nat) (token_id : Z), tokens !! k = Some token_id →
          (token_id = ws_token_id self → pieces !! k = Some [space])
          ∧ (token_id ≠ ws_token_id self → token_id = unk_token_id self →
             ∃ c, remove_spaces input_str !! pointer_before self tokens k
                  = Some c
                  ∧ pieces !! k = Some [c])
          ∧ (token_id ≠ ws_token_id self → token_id ≠ unk_token_id self →
             pieces !! k = Some (id_to_token (char_tokenizer self) token_id)).
Proof.
  intros Hrender tokens. simpl in Hrender.
  apply bind_Ok in Hrender as ([output_chars ptr] & Hloop & Hrender).
  apply bind_Ok in Hrender as ([] & Hptr%assert_Ok & Hrender).
  apply bind_Ok in Hrender as ([] & Heq%assert_Ok & [= <-]).
  apply bool_decide_eq_true in Heq. apply Z.eqb_eq in Hptr.
  apply render_loop_pieces in Hloop as (pieces & -> & Hlen & -> & Hpieces);
    [|done].
  split; [done|]. split; [unfold len in Hptr; fold tokens in Hptr; lia|].
  exists pieces. split_and!; [done|done|]. apply Hpieces.
Qed.

Lemma rendered_generation_matches_input_witness :
  _inference_result_to_str (imports := Demo.imports)
    (Demo.repairer Transformer 6 Demo.copy)
    (Generation {| token_ids := [256; 97; 258; 32; 99; 257];
                   token_log_probabilities := [0; 0; 0; 0; 0; 0] |})
    (String.list_ascii_of_string "ax c")
  = Ok (String.list_ascii_of_string "ax c")
  ∧ remove_spaces (String.list_ascii_of_string "ax c")
    = String.list_ascii_of_string "axc".
Proof.
  split; [by vm_compute|].
  exact (proj1 (rendered_generation_matches_input (imports := Demo.imports)
           (Demo.repairer Transformer 6 Demo.copy)
           (Build_SequenceGenerationInferenceResult Z
              [256; 97; 258; 32; 99; 257] [0; 0; 0; 0; 0; 0])
           (String.list_ascii_of_string "ax c")
           (String.list_ascii_of_string "ax c")
           ltac:(by vm_compute))).
Defined.

(** ** Slices and numpy assignment *)

Lemma slice_bound_range (n i : Z) : 0 ≤ n → 0 ≤ slice_bound n i ≤ n.
Proof. intros Hn. unfold slice_bound. destruct (Z.ltb_spec i 0); lia. Qed.

Lemma slice_start_count_le (n : nat) (lo hi : Z) :
  (slice_start n lo + slice_count n lo hi ≤ n)%nat.
Proof.
  unfold slice_start, slice_count.
  pose proof (slice_bound_range (Z.of_nat n) lo ltac:(lia)).
  pose proof (slice_bound_range (Z.of_nat n) hi ltac:(lia)).
  lia.
Qed.

Lemma length_py_slice {A} (l : list A) (lo hi : Z) :
  length (py_slice l lo hi) = slice_count (length l) lo hi.
Proof.
  unfold py_slice. rewrite length_take, length_drop.
  pose proof (slice_start_count_le (length l) lo hi). lia.
Qed.

Lemma lookup_py_slice {A} (l : list A) (lo hi : Z) (k : nat) :
  (k < slice_count (length l) lo hi)%nat →
  py_slice l lo hi !! k = l !! (slice_start (length l) lo + k)%nat.
Proof.
  intros Hk. unfold py_slice. by rewrite lookup_take_lt, lookup_drop.
Qed.

Lemma length_splice {A} (a vals : list A) (s : nat) :
  (s + length vals ≤ length a)%nat → length (splice a s vals) = length a.
Proof.
  intros Hle. unfold splice.
  rewrite !length_app, length_take, length_drop. lia.
Qed.

Lemma lookup_splice_in {A} (a vals : list A) (s p : nat) :
  (s ≤ length a)%nat → (s ≤ p < s + length vals)%nat →
  splice a s vals !! p = vals !! (p - s)%nat.
Proof.
  intros Hs Hp. unfold splice.
  rewrite lookup_app_r; rewrite length_take; [|lia].
  replace (s `min` length a)%nat with s by lia.
  by rewrite lookup_app_l by lia.
Qed.

Lemma lookup_splice_out {A} (a vals : list A) (s p : nat) :
  (s + length vals ≤ length a)%nat → ¬ (s ≤ p < s + length vals)%nat →
  splice a s vals !! p = a !! p.
Proof.
  intros Hs Hp. unfold splice.
  destruct (decide (p < s)%nat) as [Hlt|Hge].
  - rewrite lookup_app_l by (rewrite length_take; lia).
    by rewrite lookup_take_lt.
  - rewrite lookup_app_r; rewrite length_take; [|lia].
    replace (s `min` length a)%nat with s by lia.
    rewrite lookup_app_r by lia. rewrite lookup_drop. f_equal. lia.
Qed.

Lemma np_broadcast_Ok {A} (vals vals' : list A) (n : nat) :
  np_broadcast vals n = Ok vals' →
  length vals' = n
  ∧ (length vals = n → vals' = vals)
  ∧ (∀ k x, vals' !! k = Some x → x ∈ vals).
Proof.
  unfold np_broadcast. destruct (decide (length vals = n)) as [Hlen|Hlen].
  - intros [= <-]. split_and!; [done|done|]. intros k x Hk.
    by apply list_elem_of_lookup_2 in Hk.
  - destruct vals as [|v [|v' vals]]; try discriminate.
    intros [= <-]. split_and!; [by rewrite length_replicate|done|].
    intros k x [-> _]%lookup_replicate. by apply list_elem_of_here.
Qed.

(** [a[lo:hi] = vals] keeps the length of [a], writes the broadcast
    values on the selected positions and leaves the others. *)
Lemma np_set_slice_Ok {A} (a a' : list A) (lo hi : Z) (vals : list A) :
  np_set_slice a lo hi vals = Ok a' →
  ∃ written,
    np_broadcast vals (slice_count (length a) lo hi) = Ok written
    ∧ length a' = length a
    ∧ ∀ p : nat,
        a' !! p =
        if decide (slice_start (length a) lo ≤ p
                   < slice_start (length a) lo + slice_count (length a) lo hi)%nat
        then written !! (p - slice_start (length a) lo)%nat
        else a !! p.
Proof.
  unfold np_set_slice. intros (written & Hb & [= <-])%bind_Ok.
  exists written. split; [done|].
  pose proof (np_broadcast_Ok _ _ _ Hb) as (Hlen & _).
  pose proof (slice_start_count_le (length a) lo hi) as Hle.
  split; [apply length_splice; lia|].
  intros p. case_decide as Hp.
  - apply lookup_splice_in; lia.
  - apply lookup_splice_out; lia.
Qed.

Lemma np_broadcast_rows_length {A} (rows rows' : list (list A)) (n C : nat) :
  np_broadcast_rows rows n C = Ok rows' → length rows' = n.
Proof.
  unfold np_broadcast_rows. destruct rows as [|row0 rows].
  - case_decide; [|done]. intros [= <-]. by rewrite length_replicate.
  - case_match; [|done]. intros (rows1 & _ & Hb)%bind_Ok.
    by apply np_broadcast_Ok in Hb as (? & _).
Qed.

Lemma np_set_rows_Ok {A} (a a' : list (list A)) (C : nat) (lo hi : Z)
    (rows : list (list A)) :
  np_set_rows a C lo hi rows = Ok a' →
  ∃ written,
    np_broadcast_rows rows (slice_count (length a) lo hi) C = Ok written
    ∧ length a' = length a
    ∧ ∀ p : nat,
        a' !! p =
        if decide (slice_start (length a) lo ≤ p
                   < slice_start (length a) lo + slice_count (length a) lo hi)%nat
        then written !! (p - slice_start (length a) lo)%nat
        else a !! p.
Proof.
  unfold np_set_rows. intros (written & Hb & [= <-])%bind_Ok.
  exists written. split; [done|].
  pose proof (np_broadcast_rows_length _ _ _ _ Hb) as Hlen.
  pose proof (slice_start_count_le (length a) lo hi) as Hle.
  split; [apply length_splice; lia|].
  intros p. case_decide as Hp.
  - apply lookup_splice_in; lia.
  - apply lookup_splice_out; lia.
Qed.


(** ** The classification merge *)

Section ClassificationProperties.
Context {F : Type} {fzero : FloatZero F} {imports : Imports}.
Variable self : TokenizationRepairer F.
Variable C : nat.

(** The loop keeps the lengths of both buffers, leaves the positions no
    window selects, and a position selected by window [j] and by no later
    window holds what window [j] wrote. *)
Lemma merge_classification_loop_Ok (irs : list (PyResult F)) :
  ∀ (i : nat) (windows : list Z) mp0 ml0 mp ml,
  length ml0 = length mp0 →
  merge_classification_loop self C i irs windows (mp0, ml0) = Ok (mp, ml) →
  let n := length mp0 in
  length mp = n ∧ length ml = n
  ∧ (∀ p : nat,
       (∀ (j : nat) w, (j < length irs)%nat → windows !! j = Some w →
                       ¬ covers n w (window_size self) p) →
       mp !! p = mp0 !! p ∧ ml !! p = ml0 !! p)
  ∧ (∀ (j : nat) ir w, irs !! j = Some ir → windows !! j = Some w →
       ∃ r wp wl,
         ir = Classification r
         ∧ np_broadcast (core_predictions self (i + j) r)
             (slice_count n w (w + window_size self)) = Ok wp
         ∧ np_broadcast_rows (core_logits self (i + j) r)
             (slice_count n w (w + window_size self)) C = Ok wl
         ∧ ∀ p : nat,
             covers n w (window_size self) p →
             (∀ (j' : nat) w', (j < j')%nat → (j' < length irs)%nat →
                windows !! j' = Some w' →
                ¬ covers n w' (window_size self) p) →
             mp !! p = wp !! (p - slice_start n w)%nat
             ∧ ml !! p = wl !! (p - slice_start n w)%nat).
Proof.
  induction irs as [|ir0 irs IH]; intros i windows mp0 ml0 mp ml Hlen Hloop n.
  { simpl in Hloop. injection Hloop as <- <-.
    split_and!; [done|done|done|]. intros j ir w [=]. }
  destruct windows as [|w0 windows].
  { simpl in Hloop. injection Hloop as <- <-.
    split_and!; [done|done|done|]. intros j ir w _ [=]. }
  simpl in Hloop. apply bind_Ok in Hloop as ([mp1 ml1] & Hstep & Hloop).
  unfold merge_classification_step in Hstep.
  destruct ir0 as [|r0| |]; try discriminate.
  apply bind_Ok in Hstep as (mp1' & Hsp & Hstep).
  apply bind_Ok in Hstep as (ml1' & Hsl & [= <- <-]).
  apply np_set_slice_Ok in Hsp as (wp0 & Hwp0 & Hlmp1 & Hmp1).
  apply np_set_rows_Ok in Hsl as (wl0 & Hwl0 & Hlml1 & Hml1).
  rewrite Hlen in Hwl0, Hml1. fold n in Hwp0, Hmp1, Hwl0, Hml1.
  apply IH in Hloop as (Hlmp & Hlml & Hout & Hin); [|congruence].
  rewrite Hlmp1 in Hlmp, Hlml, Hout, Hin. fold n in Hlmp, Hlml, Hout, Hin.
  split_and!; [done|lia| |].
  - intros p Hp.
    destruct (Hout p) as [-> ->].
    { intros j w Hj Hw. apply (Hp (S j)); [simpl; lia|done]. }
    rewrite Hmp1, Hml1.
    assert (¬ covers n w0 (window_size self) p) as Hn
      by (apply (Hp 0%nat); [simpl; lia|done]).
    by rewrite !decide_False by done.
  - intros [|j] ir w Hir Hw; simpl in Hir, Hw.
    + injection Hir as <-. injection Hw as <-.
      exists r0, wp0, wl0. rewrite Nat.add_0_r.
      split_and!; [done|done|done|]. intros p Hp Hlater.
      destruct (Hout p) as [-> ->].
      { intros j w Hj Hw. apply (Hlater (S j)); [lia|simpl; lia|done]. }
      rewrite Hmp1, Hml1. by rewrite !decide_True by done.
    + destruct (Hin j ir w Hir Hw) as (r & wp & wl & -> & Hwp & Hwl & Hp).
      exists r, wp, wl. replace (i + S j)%nat with (S i + j)%nat by lia.
      split_and!; [done|done|done|]. intros p Hcov Hlater.
      apply Hp; [done|]. intros j' w' Hjj' Hj' Hw'.
      apply (Hlater (S j')); [lia|simpl; lia|done].
Qed.
(** What a successful merge of two or more results went through. *)
Lemma merge_classification_Ok
    (first : SequenceClassificationInferenceResult F)
    (irs : list (PyResult F)) (input_str : str) (merged : PyResult F) :
  (2 ≤ length irs)%nat →
  merge_classification self first irs input_str = Ok merged →
  let n := length input_str in
  let windows := sliding_windows (len input_str) (window_size self) in
  ∃ row0 mp ml,
    length irs = length windows
    ∧ logits first !! 0%nat = Some row0
    ∧ merge_classification_loop self (length row0) 0 irs windows
        (replicate n (-1), replicate n (replicate (length row0) float_zero))
      = Ok (mp, ml)
    ∧ (∀ label, label ∈ mp → 0 ≤ label)
    ∧ merged = Classification
        {| predictions := [0] ++ mp ++ [0];
           logits := [replicate (length row0) float_zero] ++ ml
                     ++ [replicate (length row0) float_zero] |}.
Proof.
  intros Hlen Hm n windows. unfold merge_classification in Hm.
  destruct irs as [|ir0 [|ir1 irs']]; [simpl in Hlen; lia..|].
  apply bind_Ok in Hm as ([] & Hcount%assert_Ok & Hm).
  apply bool_decide_eq_true in Hcount.
  apply bind_Ok in Hm as (row0 & Hrow0 & Hm).
  apply (py_get_Ok_nonneg _ 0) in Hrow0; [|done].
  apply bind_Ok in Hm as ([mp ml] & Hloop & Hm).
  apply bind_Ok in Hm as ([] & Hfilled%assert_Ok & [= <-]).
  exists row0, mp, ml. split_and!; [done|done|done| |done].
  intros label Hlabel%list_elem_of_In.
  rewrite forallb_forall in Hfilled. apply Hfilled in Hlabel. lia.
Qed.
End ClassificationProperties.

(** A single received result is returned although three windows are
    planned for the input. *)
Lemma single_result_skips_the_count_check :
  let self := Demo.repairer EncoderWithHead 6 Demo.keep_all in
  let input_str := String.list_ascii_of_string "abcdefg" in
  let ir := Demo.keep_all input_str (NoSpacesFlag true) in
  length (@sliding_windows Demo.imports (len input_str) (window_size self))
  = 3%nat
  ∧ _merge_inference_results (imports := Demo.imports) self [ir] input_str
    = Ok ir.
Proof. by vm_compute. Qed.

Lemma forallb_nonneg_false (mp : list Z) (label : Z) :
  label ∈ mp → label < 0 → forallb (λ p, 0 <=? p) mp = false.
Proof.
  intros Hin Hneg. apply not_true_is_false. intros Hall.
  rewrite forallb_forall in Hall. apply list_elem_of_In, Hall in Hin. lia.
Qed.

(** C6 (amended): a classification merge of two or more received results
    fails when the number of results differs from the number of planned
    windows, and fails when a position of the merged prediction buffer is
    still negative (the sentinel is -1) after all windows were processed;
    when it returns, no label of the merged result is negative. *)
Theorem multi_window_merge_is_checked {F} {fzero : FloatZero F}
    {imports : Imports} (self : TokenizationRepairer F)
    (first : SequenceClassificationInferenceResult F)
    (rest : list (PyResult F)) (input_str : str) :
  let irs := Classification first :: rest in
  let windows := sliding_windows (len input_str) (window_size self) in
  (2 ≤ length irs)%nat →
  (length irs ≠ length windows →
   _merge_inference_results self irs input_str
   = Err (AssertionError WindowCountMatches))
  ∧ (∀ row0 mp ml label,
       length irs = length windows →
       logits first !! 0%nat = Some row0 →
       merge_classification_loop self (length row0) 0 irs windows
         (replicate (length input_str) (-1),
          replicate (length input_str) (replicate (length row0) float_zero))
       = Ok (mp, ml) →
       label ∈ mp → label < 0 →
       _merge_inference_results self irs input_str
       = Err (AssertionError EverythingFilled))
  ∧ (∀ merged,
       _merge_inference_results self irs input_str = Ok merged →
       ∃ r, merged = Classification r
            ∧ ∀ label, label ∈ predictions r → 0 ≤ label).
Proof.
  intros irs windows Hlen. subst irs.
  destruct rest as [|ir1 rest]; [simpl in Hlen; lia|].
  change (_merge_inference_results self (Classification first :: ir1 :: rest)
            input_str)
    with (merge_classification self first (Classification first :: ir1 :: rest)
            input_str).
  split_and!.
  - intros Hne. unfold merge_classification. fold windows.
    by rewrite bool_decide_eq_false_2.
  - intros row0 mp ml label Hcount Hrow0 Hloop Hin Hneg.
    unfold merge_classification. fold windows.
    rewrite bool_decide_eq_true_2 by done. simpl.
    rewrite (py_get_nat _ 0), Hrow0. simpl.
    simpl in Hloop. rewrite Hloop. simpl.
    by rewrite (forallb_nonneg_false mp label).
  - intros merged Hm.
    apply merge_classification_Ok in Hm
      as (row0 & mp & ml & _ & _ & _ & Hfilled & ->); [|done].
    eexists. split; [done|]. simpl. intros label Hin.
    apply elem_of_cons in Hin as [->|Hin]; [done|].
    apply elem_of_app in Hin as [Hin|Hin]; [by apply Hfilled|].
    apply list_elem_of_singleton in Hin as ->. done.
Qed.

Lemma multi_window_merge_is_checked_witness :
  _merge_inference_results (imports := Demo.imports)
    (Demo.repairer EncoderWithHead 6 Demo.keep_all)
    [Demo.keep_all [] (NoSpacesFlag true); Demo.keep_all [] (NoSpacesFlag true)]
    (String.list_ascii_of_string "abcdefg")
  = Err (AssertionError WindowCountMatches).
Proof.
  refine (proj1 (multi_window_merge_is_checked (imports := Demo.imports)
                   (Demo.repairer EncoderWithHead 6 Demo.keep_all)
                   _ [Demo.keep_all [] (NoSpacesFlag true)]
                   (String.list_ascii_of_string "abcdefg") _) _).
  - simpl. lia.
  - by vm_compute.
Defined.

(** Two windows select position 2 of the buffer; the merge returns, and
    the position holds the second window's label. *)
Lemma overlapping_windows_are_merged :
  let self := Demo.repairer EncoderWithHead 6 Demo.keep_all in
  covers 5 0 (window_size self) 2 ∧ covers 5 2 (window_size self) 2
  ∧ @sliding_windows (Demo.imports_with Demo.overlapping_planner)
      5 (window_size self) = [0; 2]
  ∧ _merge_inference_results
      (imports := Demo.imports_with Demo.overlapping_planner) self
      [Demo.labelled [1; 1; 1]; Demo.labelled [2; 2; 2]]
      (String.list_ascii_of_string "abcde")
    = Ok (Demo.labelled [1; 1; 2; 2; 2]).
Proof. split_and!; [unfold covers; vm_compute; lia..|done|by vm_compute]. Qed.

(** C5 (amended): the merger does not detect that two windows select the
    same buffer position: when a merge of two or more results returns,
    a position holds what the last window selecting it wrote, whether or
    not an earlier window selected it too. *)
Theorem last_selecting_window_wins {F} {fzero : FloatZero F}
    {imports : Imports} (self : TokenizationRepairer F)
    (first : SequenceClassificationInferenceResult F)
    (rest : list (PyResult F)) (input_str : str) (merged : PyResult F) :
  let irs := Classification first :: rest in
  let windows := sliding_windows (len input_str) (window_size self) in
  let n := length input_str in
  (2 ≤ length irs)%nat →
  _merge_inference_results self irs input_str = Ok merged →
  ∃ mp ml C,
    merged = Classification
      {| predictions := [0] ++ mp ++ [0];
         logits := [replicate C float_zero] ++ ml ++ [replicate C float_zero] |}
    ∧ length mp = n ∧ length ml = n
    ∧ ∀ (j : nat) r w (p : nat),
        irs !! j = Some (Classification r) → windows !! j = Some w →
        covers n w (window_size self) p →
        (∀ (j' : nat) w', (j < j')%nat → windows !! j' = Some w' →
                          ¬ covers n w' (window_size self) p) →
        ∃ wp wl,
          np_broadcast (core_predictions self j r)
            (slice_count n w (w + window_size self)) = Ok wp
          ∧ np_broadcast_rows (core_logits self j r)
              (slice_count n w (w + window_size self)) C = Ok wl
          ∧ mp !! p = wp !! (p - slice_start n w)%nat
          ∧ ml !! p = wl !! (p - slice_start n w)%nat.
Proof.
  intros irs windows n Hlen Hm.
  change (_merge_inference_results self irs input_str)
    with (merge_classification self first irs input_str) in Hm.
  apply merge_classification_Ok in Hm
    as (row0 & mp & ml & Hcount & _ & Hloop & _ & ->); [|done].
  apply merge_classification_loop_Ok in Hloop
    as (Hlmp & Hlml & _ & Hin); [|by rewrite !length_replicate].
  rewrite length_replicate in Hlmp, Hlml, Hin. fold n windows in Hin.
  exists mp, ml, (length row0). split_and!; [done|done|done|].
  intros j r w p Hj Hw Hcov Hlater.
  destruct (Hin j _ w Hj Hw) as (r' & wp & wl & [= <-] & Hwp & Hwl & Hp).
  exists wp, wl. split_and!; [done|done|..]; apply Hp; try done.
  all: intros j' w' Hjj' _ Hw'; by apply (Hlater j').
Qed.

Lemma last_selecting_window_wins_witness :
  ∃ mp ml C,
    Demo.labelled [1; 1; 2; 2; 2]
    = Classification
        {| predictions := [0] ++ mp ++ [0];
           logits := [replicate C 0] ++ ml ++ [replicate C 0] |}
    ∧ mp !! 2%nat = Some 2.
Proof.
  destruct (last_selecting_window_wins
              (imports := Demo.imports_with Demo.overlapping_planner)
              (Demo.repairer EncoderWithHead 6 Demo.keep_all)
              (Build_SequenceClassificationInferenceResult Z
                 [0; 1; 1; 1; 0] [[0]; [1]; [1]; [1]; [0]])
              [Demo.labelled [2; 2; 2]]
              (String.list_ascii_of_string "abcde")
              (Demo.labelled [1; 1; 2; 2; 2])
              ltac:(simpl; lia) ltac:(by vm_compute))
    as (mp & ml & C & Hm & _ & _ & Hw).
  exists mp, ml, C. split; [exact Hm|].
  destruct (Hw 1%nat
              (Build_SequenceClassificationInferenceResult Z
                 [0; 2; 2; 2; 0] [[0]; [2]; [2]; [2]; [0]])
              2 2%nat eq_refl eq_refl)
    as (wp & wl & Hwp & _ & Hp & _).
  - unfold covers. vm_compute. lia.
  - intros [|[|j']] w' Hj' Hw'; [lia..|]. discriminate Hw'.
  - vm_compute in Hwp. injection Hwp as <-. exact Hp.
Defined.

(** ** Merging over the planned windows *)

Lemma planned_windows_lookup (length window_size : Z) (i : nat) (w : Z) :
  0 ≤ length →
  planned_windows length window_size !! i = Some w →
  0 < window_size ∧ w = Z.of_nat i * window_size ∧ w < length.
Proof.
  intros Hlen. unfold planned_windows.
  destruct (Z.ltb_spec 0 window_size) as [Hws|?]; [|done].
  rewrite list_lookup_fmap. intros Hi.
  apply fmap_Some in Hi as (k & Hk & ->).
  apply lookup_seq in Hk as [-> Hk]. simpl.
  destruct (window_count_bounds length window_size Hws Hlen) as (_ & _ & Hlow).
  split_and!; [done|done|]. nia.
Qed.

Lemma covers_planned (n : nat) (w window_size : Z) (p : nat) :
  0 ≤ w → 0 < window_size →
  covers n w window_size p
  ↔ w ≤ Z.of_nat p < Z.min (w + window_size) (Z.of_nat n).
Proof.
  intros Hw Hws. unfold covers, slice_start, slice_count, slice_bound.
  destruct (Z.ltb_spec w 0), (Z.ltb_spec (w + window_size) 0); lia.
Qed.

Lemma np_broadcast_same {A} (vals : list A) (n : nat) :
  length vals = n → np_broadcast vals n = Ok vals.
Proof. intros Hn. unfold np_broadcast. by rewrite decide_True. Qed.

Lemma np_broadcast_rows_id {A} (rows : list (list A)) (n C : nat) :
  length rows = n → rows ≠ [] → Forall (λ row, length row = C) rows →
  np_broadcast_rows rows n C = Ok rows.
Proof.
  intros Hn Hne Hrows. unfold np_broadcast_rows.
  destruct rows as [|row0 rows']; [done|].
  assert (length row0 = C) as H0 by (by inversion Hrows).
  assert (forallb (λ r, bool_decide (length r = length row0)) (row0 :: rows')
          = true) as ->.
  { apply forallb_forall. intros r Hr%list_elem_of_In.
    rewrite Forall_forall in Hrows. apply bool_decide_eq_true.
    rewrite H0. by apply Hrows. }
  assert (mapM (λ r, np_broadcast r C) (row0 :: rows') = Ok (row0 :: rows'))
    as ->.
  { clear Hn Hne H0. induction Hrows as [|row rows Hrow _ IH]; [done|].
    simpl. rewrite np_broadcast_same by done. simpl. by rewrite IH. }
  simpl. by apply np_broadcast_same.
Qed.

(** Lines 178-180: the window and its two contexts. *)
Lemma window_geometry {F} (self : TokenizationRepairer F) :
  0 ≤ max_length self →
  0 ≤ context_size self
  ∧ context_size self ≤ window_size self
  ∧ window_size self + 2 * context_size self ≤ max_length self
  ∧ max_length self - 1 ≤ window_size self + 2 * context_size self
  ∧ 3 * max_length self ≤ 4 * window_size self < 3 * max_length self + 4
  ∧ (0 < max_length self → 0 < window_size self).
Proof.
  intros Hm. unfold context_size, window_size.
  pose proof (Z.div_mod (3 * max_length self + 3) 4 ltac:(lia)) as Hw.
  pose proof (Z.mod_pos_bound (3 * max_length self + 3) 4 ltac:(lia)) as Hwr.
  set (ws := (3 * max_length self + 3) / 4) in *.
  pose proof (Z.div_mod (max_length self - ws) 2 ltac:(lia)) as Hc.
  pose proof (Z.mod_pos_bound (max_length self - ws) 2 ltac:(lia)) as Hcr.
  set (ctx := (max_length self - ws) / 2) in *.
  lia.
Qed.




(** ** The generation merge *)

Section GenerationProperties.
Context {F : Type} {fzero : FloatZero F} {imports : Imports}.
Variable self : TokenizationRepairer F.
Variable input_str : str.

(** The loop appends one slice per window, in the order of the windows:
    the slice the matcher selects in the window's result without its
    markers. *)
Lemma merge_generation_loop_Ok (irs : list (PyResult F)) :
  ∀ (windows : list Z) tok0 lp0 tok lp,
  length irs = length windows →
  merge_generation_loop self input_str irs windows (tok0, lp0) = Ok (tok, lp) →
  ∃ slices : list (list Z * list F),
    tok = tok0 ++ concat (fst <$> slices)
    ∧ lp = lp0 ++ concat (snd <$> slices)
    ∧ length slices = length irs
    ∧ ∀ (i : nat) ir, irs !! i = Some ir →
        ∃ w r from_idx to_idx,
          windows !! i = Some w ∧ ir = Generation r
          ∧ has_markers self r = Ok true
          ∧ match_token_ids_ignoring_space_and_unk
              (py_slice (token_ids r) 1 (-1)) (char_tokenizer self)
              (input_str_left_context self input_str w)
              (input_str_window self input_str w)
              (input_str_right_context self input_str w)
            = Ok (from_idx, to_idx)
          ∧ slices !! i
            = Some (py_slice (py_slice (token_ids r) 1 (-1)) from_idx to_idx,
                    py_slice (py_slice (token_log_probabilities r) 1 (-1))
                             from_idx to_idx).
Proof.
  induction irs as [|ir0 irs IH]; intros windows tok0 lp0 tok lp Hlen Hloop.
  { simpl in Hloop. injection Hloop as <- <-. exists [].
    rewrite !app_nil_r. split_and!; [done..|]. intros i ir [=]. }
  destruct windows as [|w0 windows]; [done|]. simpl in Hlen.
  simpl in Hloop. apply bind_Ok in Hloop as ([tok1 lp1] & Hstep & Hloop).
  unfold merge_generation_step in Hstep.
  destruct ir0 as [| |r0|]; try discriminate.
  apply bind_Ok in Hstep as (markers & Hmarkers & Hstep).
  apply bind_Ok in Hstep as ([] & ->%assert_Ok & Hstep).
  apply bind_Ok in Hstep as ([from_idx to_idx] & Hmatch & [= <- <-]).
  apply IH in Hloop as (slices & -> & -> & Hls & Hslices); [|lia].
  exists ((py_slice (py_slice (token_ids r0) 1 (-1)) from_idx to_idx,
           py_slice (py_slice (token_log_probabilities r0) 1 (-1))
                    from_idx to_idx) :: slices).
  rewrite !fmap_cons. simpl. rewrite <- !app_assoc.
  split_and!; [done|done|lia|].
  intros [|i] ir Hir; simpl in Hir.
  - injection Hir as <-. by exists w0, r0, from_idx, to_idx.
  - by apply Hslices.
Qed.

Lemma top_beam_Generation (irs tops : list (PyResult F)) :
  mapM top_beam irs = Ok tops →
  length tops = length irs
  ∧ ∀ (i : nat) top, tops !! i = Some top → ∃ r, top = Generation r.
Proof.
  revert tops. induction irs as [|ir irs IH]; intros tops Htops.
  { injection Htops as <-. split; [done|]. intros i top [=]. }
  simpl in Htops. apply bind_Ok in Htops as (top0 & Htop0 & Htops).
  apply bind_Ok in Htops as (tops' & Htops' & [= <-]).
  destruct (IH _ Htops') as [Hlen Hall]. split; [simpl; lia|].
  intros [|i] top Hi; simpl in Hi; [|by eapply Hall].
  injection Hi as <-. destruct ir as [| | |rs]; try discriminate.
  simpl in Htop0. destruct (py_get rs 0); [|done].
  injection Htop0 as <-. by eexists.
Qed.
End GenerationProperties.

(** C7: a list of ranked beam-search lists is merged as the list of its
    rank-0 candidates.  A merge of two or more generation results returns
    the begin marker, then, window after window, one slice of token ids,
    then the end marker, and the same slices of the log-probabilities
    between two zeros.  The slice of a window starting at [w] is
    [ir.token_ids[1:-1][from_idx:to_idx]], with the indices the matcher
    returns for the window's tokens without their markers, the left
    context [input_str[max(0, w - context_size):w]], the core
    [input_str[w:w + window_size]] and the right context
    [input_str[w + window_size:w + window_size + context_size]]. *)
Theorem generation_merge_concatenates {F} {fzero : FloatZero F}
    {imports : Imports} (self : TokenizationRepairer F)
    (irs : list (PyResult F)) (input_str : str) :
  (∀ rs rest, irs = Beams rs :: rest →
     _merge_inference_results self irs input_str
     = tops ← mapM top_beam irs; _merge_inference_results self tops input_str)
  ∧ (∀ (r : SequenceGenerationInferenceResult F) rs,
       top_beam (Beams (r :: rs)) = Ok (Generation r))
  ∧ (∀ r0 rest merged, irs = Generation r0 :: rest → (2 ≤ length irs)%nat →
     _merge_inference_results self irs input_str = Ok merged →
     let windows := sliding_windows (len input_str) (window_size self) in
     ∃ slices : list (list Z * list F),
       merged = Generation
         {| token_ids :=
              [token_to_id (char_tokenizer self) BOS]
              ++ concat (fst <$> slices)
              ++ [token_to_id (char_tokenizer self) EOS];
            token_log_probabilities :=
              [float_zero] ++ concat (snd <$> slices) ++ [float_zero] |}
       ∧ length slices = length irs
       ∧ length windows = length irs
       ∧ ∀ (i : nat) ir, irs !! i = Some ir →
           ∃ w r from_idx to_idx,
             windows !! i = Some w ∧ ir = Generation r
             ∧ match_token_ids_ignoring_space_and_unk
                 (py_slice (token_ids r) 1 (-1)) (char_tokenizer self)
                 (py_slice input_str (Z.max 0 (w - context_size self)) w)
                 (py_slice input_str w (w + window_size self))
                 (py_slice input_str (w + window_size self)
                           (w + window_size self + context_size self))
               = Ok (from_idx, to_idx)
             ∧ slices !! i
               = Some (py_slice (py_slice (token_ids r) 1 (-1))
                                from_idx to_idx,
                       py_slice (py_slice (token_log_probabilities r) 1 (-1))
                                from_idx to_idx)).
Proof.
  split_and!.
  - intros rs rest ->.
    change (_merge_inference_results self (Beams rs :: rest) input_str)
      with (merge_generation self (Beams rs) (Beams rs :: rest) input_str).
    unfold merge_generation.
    destruct (mapM top_beam (Beams rs :: rest)) as [tops|e] eqn:Htops; [|done].
    simpl. destruct (top_beam_Generation _ _ Htops) as [Hlen Hall].
    destruct tops as [|top tops]; [done|].
    destruct (Hall 0%nat top eq_refl) as [r ->]. done.
  - done.
  - intros r0 rest merged -> Hlen Hm windows.
    change (_merge_inference_results self (Generation r0 :: rest) input_str)
      with (merge_generation self (Generation r0) (Generation r0 :: rest)
              input_str) in Hm.
    unfold merge_generation in Hm.
    apply bind_Ok in Hm as (irs' & [= <-] & Hm).
    destruct rest as [|ir1 rest]; [simpl in Hlen; lia|].
    apply bind_Ok in Hm as ([] & Hcount%assert_Ok & Hm).
    apply bool_decide_eq_true in Hcount.
    apply bind_Ok in Hm as ([tok lp] & Hloop & [= <-]).
    apply merge_generation_loop_Ok in Hloop
      as (slices & -> & -> & Hls & Hslices); [|done].
    exists slices. split_and!; [done|done|done|].
    intros i ir Hir.
    destruct (Hslices i ir Hir)
      as (w & r & from_idx & to_idx & Hw & -> & _ & Hmatch & Hslice).
    by exists w, r, from_idx, to_idx.
Qed.

Lemma generation_merge_concatenates_witness :
  let self := Demo.repairer Transformer 10 Demo.copy in
  let input_str := String.list_ascii_of_string "abcdefghi" in
  ∃ slices : list (list Z * list Z),
    _merge_inference_results (imports := Demo.imports) self
      [Demo.copy (String.list_ascii_of_string "abcdefg") (InputString []);
       Demo.copy (String.list_ascii_of_string "fghi") (InputString [])]
      input_str
    = Ok (Generation
            {| token_ids := [256] ++ concat (fst <$> slices) ++ [257];
               token_log_probabilities :=
                 [0] ++ concat (snd <$> slices) ++ [0] |})
    ∧ slices !! 1%nat = Some ([103; 104; 105], [0; 0; 0]).
Proof.
  intros self input_str.
  destruct (generation_merge_concatenates (imports := Demo.imports) self
              [Demo.copy (String.list_ascii_of_string "abcdefg")
                 (InputString []);
               Demo.copy (String.list_ascii_of_string "fghi") (InputString [])]
              input_str) as (_ & _ & Hmerge).
  destruct (Hmerge _ _ (Demo.copy input_str (InputString input_str)) eq_refl
              ltac:(simpl; lia) ltac:(by vm_compute))
    as (slices & Hm & _ & _ & Hslices).
  exists slices. split.
  - etransitivity; [|exact (f_equal Ok Hm)]. by vm_compute.
  - destruct (Hslices 1%nat _ eq_refl)
      as (w & r & from_idx & to_idx & Hw & Hr & Hmatch & Hslice).
    injection Hr as <-. vm_compute in Hw. injection Hw as <-.
    vm_compute in Hmatch. injection Hmatch as <- <-. exact Hslice.
Defined.


(** ** Lists in the error monad *)

Lemma mapM_Ok {A B} (f : A → result B) (l : list A) (k : list B) :
  mapM f l = Ok k ↔ Forall2 (λ x y, f x = Ok y) l k.
Proof.
  revert k. induction l as [|x l IH]; intros k; simpl.
  - split; [by intros [= <-]|by intros ->%Forall2_nil_inv_l].
  - split.
    + intros (y & Hy & (k' & Hk' & [= <-])%bind_Ok)%bind_Ok.
      constructor; [done|by apply IH].
    + intros (y & k' & Hy & Hk' & ->)%Forall2_cons_inv_l.
      rewrite Hy. simpl. apply IH in Hk'. by rewrite Hk'.
Qed.

Lemma mapM_ext_in {A B} (f g : A → result B) (l : list A) :
  (∀ x, x ∈ l → f x = g x) → mapM f l = mapM g l.
Proof.
  induction l as [|x l IH]; intros Hfg; [done|]. simpl.
  rewrite (Hfg x) by apply list_elem_of_here.
  rewrite IH; [done|]. intros y Hy. apply Hfg. by apply list_elem_of_further.
Qed.

Lemma mapM_total {A B} (f : A → B) (l : list A) :
  mapM (λ x, Ok (f x)) l = Ok (f <$> l).
Proof. induction l as [|x l IH]; [done|]. simpl. by rewrite IH. Qed.

(** A comprehension over [range(len(l))] that only reads [l[i]]. *)
Lemma mapM_seq_lookup {A B} (g : nat → result B) (f : A → result B)
    (l : list A) (j : nat) :
  (∀ (i : nat) x, l !! i = Some x → g (j + i)%nat = f x) →
  mapM g (seq j (length l)) = mapM f l.
Proof.
  revert j. induction l as [|x l IH]; intros j Hg; [done|]. simpl.
  rewrite <- (Hg 0%nat x eq_refl), Nat.add_0_r.
  rewrite (IH (S j)); [done|].
  intros i y Hi. rewrite <- (Hg (S i) y Hi). f_equal. lia.
Qed.

Lemma insert_desc_perm {A} (key : A → Z) (e : A) (l : list A) :
  insert_desc key e l ≡ₚ e :: l.
Proof.
  induction l as [|x l IH]; [done|]. simpl.
  destruct (key x <=? key e); [done|]. rewrite IH. apply Permutation_swap.
Qed.

Lemma sorted_desc_perm {A} (key : A → Z) (l : list A) :
  sorted_desc key l ≡ₚ l.
Proof.
  induction l as [|x l IH]; [done|]. unfold sorted_desc. simpl.
  rewrite insert_desc_perm. by constructor.
Qed.

(** ** Routing the adapter's results *)

Section RoutingProperties.
Context {F : Type}.
Implicit Types (a : gmap nat (list (PyResult F))).

Lemma store_Ok a (input_idx position : nat) (r : PyResult F) :
  is_Some (slot a (input_idx, position)) →
  ∃ a', store a input_idx position r = Ok a'
    ∧ (∀ key, slot a' key
              = if decide (key = (input_idx, position)) then Some r
                else slot a key)
    ∧ (∀ i : nat, length <$> a' !! i = length <$> a !! i).
Proof.
  intros [x Hx]. unfold slot in Hx. simpl in Hx.
  destruct (a !! input_idx) as [slots|] eqn:Hslots; [|done]. simpl in Hx.
  pose proof (lookup_lt_Some _ _ _ Hx) as Hlt.
  unfold store. rewrite Hslots. rewrite decide_True by done.
  eexists. split; [done|]. split.
  - intros [i p]. unfold slot. simpl. case_decide as Hkey.
    + injection Hkey as -> ->. rewrite lookup_insert_eq. simpl.
      by apply list_lookup_insert_eq.
    + destruct (decide (i = input_idx)) as [->|Hi].
      * rewrite lookup_insert_eq, Hslots. simpl.
        apply list_lookup_insert_ne. congruence.
      * by rewrite lookup_insert_ne.
  - intros i. destruct (decide (i = input_idx)) as [->|Hi].
    + rewrite lookup_insert_eq, Hslots. simpl. by rewrite length_insert.
    + by rewrite lookup_insert_ne.
Qed.

Lemma route_app (pairs1 pairs2 : list (BatchEntry * PyResult F)) a :
  route (pairs1 ++ pairs2) a = route pairs1 a ≫= route pairs2.
Proof.
  revert a. induction pairs1 as [|[[[[idx from_] to_] pos] r] pairs1 IH];
    intros a; [done|].
  simpl. destruct (store a idx pos r) as [a1|]; [|done]. simpl. apply IH.
Qed.

(** Routing a list of entries whose slots exist fills exactly these
    slots; with distinct slots every entry's result is in its slot,
    whatever the order of the list. *)
Lemma route_Ok (res : BatchEntry → PyResult F) (entries : list BatchEntry) :
  ∀ a,
  (∀ e, e ∈ entries → is_Some (slot a (entry_key e))) →
  ∃ a', route ((λ e, (e, res e)) <$> entries) a = Ok a'
    ∧ (∀ i : nat, length <$> a' !! i = length <$> a !! i)
    ∧ (∀ key, key ∉ entry_key <$> entries → slot a' key = slot a key)
    ∧ (NoDup (entry_key <$> entries) →
       ∀ e, e ∈ entries → slot a' (entry_key e) = Some (res e)).
Proof.
  induction entries as [|e entries IH]; intros a Hslots.
  { exists a. split_and!; [done|done|done|]. by intros _ e ?%elem_of_nil. }
  destruct (store_Ok a (entry_key e).1 (entry_key e).2 (res e))
    as (a1 & Hstore & Hslot1 & Hlen1).
  { rewrite <- surjective_pairing. apply Hslots, list_elem_of_here. }
  rewrite <- surjective_pairing in Hslot1.
  destruct (IH a1) as (a' & Hroute & Hlen & Hother & Hmine).
  { intros e' He'. rewrite Hslot1. case_decide; [done|].
    by apply Hslots, list_elem_of_further. }
  exists a'. split_and!.
  - rewrite fmap_cons. destruct e as [[[idx from_] to_] pos].
    simpl in *. by rewrite Hstore.
  - intros i. by rewrite Hlen, Hlen1.
  - intros key Hkey. rewrite fmap_cons in Hkey.
    apply not_elem_of_cons in Hkey as [Hne Hkey].
    rewrite Hother by done. rewrite Hslot1. by rewrite decide_False.
  - rewrite fmap_cons. intros [Hnotin Hnodup]%NoDup_cons e' He'.
    apply elem_of_cons in He' as [->|He']; [|by apply Hmine].
    rewrite Hother by done. rewrite Hslot1. by rewrite decide_True.
Qed.
End RoutingProperties.

(** ** Batches *)

Section BatchProperties.
Context {F : Type} {fzero : FloatZero F} {imports : Imports}.
Variable self : TokenizationRepairer F.
Variable infer_one : str → KwEntry → PyResult F.
Hypothesis adapter : order_preserving self infer_one.
Variable inputs : list str.

Lemma batch_sequence_Ok (e : BatchEntry) :
  is_Some (inputs !! (entry_key e).1) →
  batch_sequence inputs e = Ok (entry_sequence inputs e).
Proof.
  destruct e as [[[idx from_] to_] pos]. simpl. intros [ipt Hipt].
  by rewrite py_get_nat, Hipt.
Qed.

Lemma zip_batch_results (batch : list BatchEntry) :
  zip batch
    (zip_with infer_one (entry_sequence inputs <$> batch)
       (kw_entries
          (batch_kwargs self batch (entry_sequence inputs <$> batch))))
  = (λ e, (e, entry_result self infer_one inputs e)) <$> batch.
Proof.
  unfold batch_kwargs, entry_result, kw_entry.
  destruct (model_type self); simpl.
  - induction batch as [|e batch IH]; [done|].
    rewrite !fmap_cons, space_not_in_entry. simpl. by rewrite IH.
  - induction batch as [|e batch IH]; [done|].
    rewrite !fmap_cons. simpl. by rewrite IH.
Qed.

(** With an order-preserving adapter, one iteration of the batch loop
    routes to every entry of the batch the adapter's result for its
    substring. *)
Lemma process_batch_route (batches : list BatchEntry)
    (batch_size batch_idx : Z) a :
  0 ≤ batch_idx → 0 < batch_size →
  (∀ e, e ∈ batches → is_Some (inputs !! (entry_key e).1)) →
  process_batch self inputs batches batch_size batch_idx a
  = route ((λ e, (e, entry_result self infer_one inputs e))
             <$> take (Z.to_nat batch_size)
                      (drop (Z.to_nat batch_idx) batches)) a.
Proof using adapter.
  intros Hidx Hsize Hvalid. unfold process_batch.
  rewrite py_slice_take_drop by lia.
  replace (batch_idx + batch_size - batch_idx) with batch_size by lia.
  set (batch := take (Z.to_nat batch_size) (drop (Z.to_nat batch_idx) batches)).
  rewrite (mapM_ext_in _ (λ e, Ok (entry_sequence inputs e))).
  - rewrite mapM_total. simpl. rewrite adapter. simpl.
    by rewrite zip_batch_results.
  - intros e He. apply batch_sequence_Ok, Hvalid.
    by eapply subseteq_drop, subseteq_take.
Qed.

(** The batches partition the list of entries: processing them one after
    the other routes the entries in the order of the list. *)
Lemma process_batches_route (batches : list BatchEntry) (batch_size : Z) :
  0 < batch_size →
  (∀ e, e ∈ batches → is_Some (inputs !! (entry_key e).1)) →
  ∀ (count j : nat) a,
  (length batches ≤ (j + count) * Z.to_nat batch_size)%nat →
  process_batches self inputs batches batch_size
    ((λ k : nat, 0 + Z.of_nat k * batch_size) <$> seq j count) a
  = route ((λ e, (e, entry_result self infer_one inputs e))
             <$> drop (j * Z.to_nat batch_size) batches) a.
Proof using adapter.
  intros Hsize Hvalid count.
  induction count as [|count IH]; intros j a Hcount.
  - rewrite drop_ge by lia. done.
  - simpl. rewrite process_batch_route by (done || lia).
    replace (Z.to_nat (0 + Z.of_nat j * batch_size))
      with (j * Z.to_nat batch_size)%nat by lia.
    rewrite <- (take_drop (Z.to_nat batch_size)
                  (drop (j * Z.to_nat batch_size) batches)) at 2.
    rewrite fmap_app, route_app.
    destruct (route _ a) as [a1|]; [|done]. simpl.
    rewrite IH by lia. rewrite drop_drop. do 3 f_equal. lia.
Qed.
End BatchProperties.

(** ** The plan *)

Section PlanProperties.
Context {F : Type} {fzero : FloatZero F} {imports : Imports}.
Variable self : TokenizationRepairer F.

(** The entries planned for an input carry its index and their position;
    their bounds and the slots do not depend on the index. *)
Lemma plan_input_lookup (i : nat) (ipt : str) (p : nat) (e : BatchEntry) :
  (plan_input self i ipt).1 !! p = Some e →
  ∃ from_ to_,
    e = (i, from_, to_, p)
    ∧ (plan_input self 0 ipt).1 !! p = Some (0%nat, from_, to_, p).
Proof.
  unfold plan_input. destruct (len ipt <=? max_length self); simpl.
  - destruct p as [|p]; [|done]. intros [= <-]. by eexists _, _.
  - rewrite !list_lookup_imap. intros (w & -> & ->)%fmap_Some.
    by eexists _, _.
Qed.

Lemma plan_input_slots (i : nat) (ipt : str) :
  (plan_input self i ipt).2
  = replicate (length (plan_input self i ipt).1) PyNone.
Proof.
  unfold plan_input. destruct (len ipt <=? max_length self); simpl; [done|].
  by rewrite length_imap.
Qed.

Lemma plan_input_length (i : nat) (ipt : str) :
  length (plan_input self i ipt).1 = length (plan_input self 0 ipt).1.
Proof.
  unfold plan_input. destruct (len ipt <=? max_length self); simpl; [done|].
  by rewrite !length_imap.
Qed.

Lemma plan_input_keys (i : nat) (ipt : str) :
  entry_key <$> (plan_input self i ipt).1
  = (λ p, (i, p)) <$> seq 0 (length (plan_input self i ipt).1).
Proof.
  apply list_eq. intros p. rewrite !list_lookup_fmap.
  destruct ((plan_input self i ipt).1 !! p) as [e|] eqn:He; simpl.
  - pose proof (lookup_lt_Some _ _ _ He) as Hlt.
    rewrite lookup_seq_lt by done. simpl.
    by destruct (plan_input_lookup _ _ _ _ He) as (from_ & to_ & -> & _).
  - apply lookup_ge_None in He. by rewrite lookup_seq_ge.
Qed.

Lemma plan_loop_spec (inputs : list str) :
  ∀ (i0 : nat) a0 b0 a b,
  plan_loop self i0 inputs (a0, b0) = (a, b) →
  (∀ j : nat, (j < i0)%nat → a !! j = a0 !! j)
  ∧ (∀ (k : nat) ipt, inputs !! k = Some ipt →
       a !! (i0 + k)%nat = Some (plan_input self (i0 + k) ipt).2)
  ∧ (∀ e, e ∈ b ↔
          e ∈ b0 ∨ ∃ (k : nat) ipt, inputs !! k = Some ipt
                     ∧ e ∈ (plan_input self (i0 + k) ipt).1)
  ∧ ((∀ e, e ∈ b0 → ((entry_key e).1 < i0)%nat) →
     NoDup (entry_key <$> b0) → NoDup (entry_key <$> b)).
Proof.
  induction inputs as [|ipt inputs IH]; intros i0 a0 b0 a b Hplan.
  { simpl in Hplan. injection Hplan as <- <-.
    split_and!; [done| | |done].
    - intros k ipt [=].
    - intros e. split; [by left|]. by intros [?|(k & ipt & [=] & _)]. }
  simpl in Hplan.
  destruct (plan_input self i0 ipt) as [entries slots] eqn:Hentries.
  apply IH in Hplan as (Hbelow & Hat & Hmem & Hnodup).
  assert (entries = (plan_input self i0 ipt).1) as Hentries1
    by (by rewrite Hentries).
  split_and!.
  - intros j Hj. rewrite Hbelow by lia. apply lookup_insert_ne. lia.
  - intros [|k] ipt' Hk; simpl in Hk.
    + injection Hk as <-. rewrite Nat.add_0_r, Hbelow by lia.
      by rewrite lookup_insert_eq, Hentries.
    + replace (i0 + S k)%nat with (S i0 + k)%nat by lia. by apply Hat.
  - intros e. rewrite Hmem, elem_of_app. split.
    + intros [[He|He]|(k & ipt' & Hk & He)].
      * by left.
      * right. exists 0%nat, ipt. rewrite Nat.add_0_r. by rewrite <- Hentries1.
      * right. exists (S k), ipt'.
        by replace (i0 + S k)%nat with (S i0 + k)%nat by lia.
    + intros [He|(k & ipt' & Hk & He)]; [by left; left|].
      destruct k as [|k]; simpl in Hk.
      * injection Hk as <-. rewrite Nat.add_0_r, <- Hentries1 in He.
        by left; right.
      * right. exists k, ipt'.
        by replace (S i0 + k)%nat with (i0 + S k)%nat by lia.
  - intros Hidx Hnd. apply Hnodup.
    + intros e [He|He]%elem_of_app; [apply Hidx in He; lia|].
      rewrite Hentries1 in He.
      apply list_elem_of_lookup in He as [p Hp].
      destruct (plan_input_lookup _ _ _ _ Hp) as (from_ & to_ & -> & _).
      simpl. lia.
    + rewrite fmap_app. apply NoDup_app. split_and!; [done| |].
      * intros key (e & -> & He)%list_elem_of_fmap.
        rewrite Hentries1, plan_input_keys.
        intros (p & Hkey & _)%list_elem_of_fmap.
        apply Hidx in He. rewrite Hkey in He. simpl in He. lia.
      * rewrite Hentries1, plan_input_keys.
        apply NoDup_fmap_2; [|apply NoDup_seq]. by intros p q [=].
Qed.
End PlanProperties.

(** ** The raw results *)

Section RawProperties.
Context {F : Type} {fzero : FloatZero F} {imports : Imports}.
Variable self : TokenizationRepairer F.
Variable infer_one : str → KwEntry → PyResult F.
Hypothesis adapter : order_preserving self infer_one.

Lemma entry_result_planned (inputs : list str) (i : nat) (ipt : str)
    (from_ to_ : Z) (p : nat) :
  inputs !! i = Some ipt →
  entry_result self infer_one inputs (i, from_, to_, p)
  = entry_result self infer_one [ipt] (0%nat, from_, to_, p).
Proof.
  intros Hi. unfold entry_result, entry_sequence. by rewrite Hi.
Qed.

(** With an order-preserving adapter and a positive batch size,
    [_repair_text_raw] returns for every input the merge of the results
    of its windows, whatever the batch size and the order of the
    entries. *)
Lemma repair_text_raw_spec (inputs : list str) (batch_size : Z)
    (sort_by_length show_progress : bool) :
  0 < batch_size →
  _repair_text_raw self inputs batch_size sort_by_length show_progress
  = mapM (merged_result self infer_one) inputs.
Proof using adapter.
  intros Hsize. unfold _repair_text_raw.
  destruct (plan_loop self 0 inputs (∅, [])) as [a b] eqn:Hplan.
  apply plan_loop_spec in Hplan as (_ & Hat0 & Hmem0 & Hnodup).
  assert (∀ (i : nat) ipt, inputs !! i = Some ipt →
            a !! i = Some (plan_input self i ipt).2) as Hat by exact Hat0.
  assert (∀ e, e ∈ b ↔
            e ∈ [] ∨ ∃ (i : nat) ipt, inputs !! i = Some ipt
                       ∧ e ∈ (plan_input self i ipt).1) as Hmem by exact Hmem0.
  clear Hat0 Hmem0.
  set (batches := if sort_by_length then sorted_desc entry_length b else b).
  assert (batches ≡ₚ b) as Hperm.
  { unfold batches. destruct sort_by_length; [apply sorted_desc_perm|done]. }
  assert (∀ e, e ∈ batches →
            ∃ (i p : nat) ipt from_ to_,
              e = (i, from_, to_, p) ∧ inputs !! i = Some ipt
              ∧ (plan_input self 0 ipt).1 !! p = Some (0%nat, from_, to_, p))
    as Hentry.
  { intros e He. rewrite Hperm in He.
    apply Hmem in He as [[]%elem_of_nil|(k & ipt & Hk & He)].
    apply list_elem_of_lookup in He as [p Hp].
    destruct (plan_input_lookup _ _ _ _ _ Hp) as (from_ & to_ & -> & Hp0).
    by exists k, p, ipt, from_, to_. }
  (* the batches *)
  unfold py_range. destruct (Z.eqb_spec batch_size 0) as [?|_]; [lia|].
  destruct (Z.ltb_spec 0 batch_size) as [_|?]; [|lia]. simpl.
  rewrite Z.sub_0_r.
  destruct (window_count_bounds (len batches) batch_size Hsize
              ltac:(unfold len; lia)) as (Hc0 & Hup & _).
  rewrite (process_batches_route self infer_one adapter inputs batches
             batch_size Hsize).
  2:{ intros e (i & p & ipt & from_ & to_ & -> & Hi & _)%Hentry. by exists ipt. }
  2:{ unfold len in *. nia. }
  rewrite Nat.mul_0_l, drop_0.
  (* the slots *)
  destruct (route_Ok (entry_result self infer_one inputs) batches a)
    as (a' & -> & Hlen & _ & Hslot).
  { intros e (i & p & ipt & from_ & to_ & -> & Hi & Hp)%Hentry.
    unfold slot. simpl. rewrite (Hat i ipt Hi). simpl.
    rewrite plan_input_slots. exists PyNone. apply lookup_replicate_2.
    rewrite plan_input_length. by apply lookup_lt_Some in Hp. }
  assert (NoDup (entry_key <$> batches)) as Hnd.
  { rewrite Hperm. apply Hnodup; [by intros e ?%elem_of_nil|constructor]. }
  specialize (Hslot Hnd). simpl.
  (* every input's slots hold the results of its windows *)
  apply mapM_seq_lookup. intros i ipt Hi. simpl. rewrite Hi.
  assert (a' !! i = Some (window_results self infer_one ipt)) as ->; [|done].
  specialize (Hlen i). rewrite (Hat i ipt Hi) in Hlen. simpl in Hlen.
  rewrite plan_input_slots, length_replicate, plan_input_length in Hlen.
  destruct (a' !! i) as [slots|] eqn:Hslots; [|done].
  injection Hlen as Hlen. f_equal. apply list_eq. intros p.
  unfold window_results. rewrite list_lookup_fmap.
  destruct ((plan_input self 0 ipt).1 !! p) as [e0|] eqn:Hp; simpl.
  - destruct (plan_input_lookup _ _ _ _ _ Hp) as (from_ & to_ & -> & _).
    assert ((i, from_, to_, p) ∈ batches) as He.
    { rewrite Hperm. apply Hmem. right. exists i, ipt. split; [done|].
      apply list_elem_of_lookup. exists p.
      destruct ((plan_input self i ipt).1 !! p) as [e|] eqn:Hpi.
      - destruct (plan_input_lookup _ _ _ _ _ Hpi) as (f' & t' & -> & Hp').
        pose proof (eq_trans (eq_sym Hp) Hp') as [= <- <-]. done.
      - apply lookup_ge_None in Hpi. apply lookup_lt_Some in Hp.
        rewrite plan_input_length in Hpi. lia. }
    apply Hslot in He. unfold slot in He. simpl in He.
    rewrite Hslots in He. simpl in He. rewrite He.
    by rewrite (entry_result_planned inputs i ipt).
  - apply lookup_ge_None in Hp. apply lookup_ge_None. lia.
Qed.
End RawProperties.

(** ** The caller-facing API *)

(** The batch size does change the outcome when it is not positive: on
    the same input and adapter, a batch size of 16 returns the repaired
    text, a batch size of 0 raises the [ValueError] of
    [range(0, len(batches), 0)] (line 329), and a batch size of -1
    dispatches no batch at all, so the slot of the input still holds
    [None] when it is rendered. *)
Lemma batch_size_zero_changes_the_outcome :
  let self := Demo.repairer Transformer 10 Demo.copy in
  let inputs := InStr (String.list_ascii_of_string "xy") in
  order_preserving self Demo.copy
  ∧ repair_text (imports := Demo.imports) self inputs 16 true false
    = Ok (OutStr (String.list_ascii_of_string "xy"))
  ∧ repair_text (imports := Demo.imports) self inputs 0 true false
    = Err ValueError
  ∧ repair_text (imports := Demo.imports) self inputs (-1) true false
    = Err AttributeError
  ∧ repair_text (imports := Demo.imports) self inputs 16 true false
    ≠ repair_text (imports := Demo.imports) self inputs 0 true false.
Proof. intros self inputs. split_and!; [by intros ? ?|by vm_compute..]. Qed.

(** C8 (amended): for an adapter that never fails and whose [k]-th
    result is a function of the [k]-th substring and of the keyword
    argument for that substring alone, and for positive batch sizes,
    [_repair_text_raw] returns for every input the merge of the results
    of its own windows, each result sitting at its window position; so
    the output of [repair_text] is the same for every positive batch
    size, with and without sorting by length (and with and without the
    progress bar). *)
Theorem batching_does_not_change_output {F} {fzero : FloatZero F}
    {imports : Imports} (self : TokenizationRepairer F)
    (infer_one : str → KwEntry → PyResult F) (inputs : Inputs)
    (batch_size batch_size' : Z)
    (sort_by_length sort_by_length' show_progress show_progress' : bool) :
  order_preserving self infer_one →
  0 < batch_size → 0 < batch_size' →
  (∀ cleaned : list str,
     _repair_text_raw self cleaned batch_size sort_by_length show_progress
     = mapM (merged_result self infer_one) cleaned)
  ∧ repair_text self inputs batch_size sort_by_length show_progress
    = repair_text self inputs batch_size' sort_by_length' show_progress'.
Proof.
  intros Hadapter Hsize Hsize'. split.
  - intros cleaned. by apply repair_text_raw_spec.
  - unfold repair_text.
    destruct (assert (valid_inputs inputs) InputIsStringOrNonEmptyList);
      [|done].
    simpl. destruct (mapM clean_item _) as [cleaned|]; [|done]. simpl.
    by rewrite !(repair_text_raw_spec self infer_one Hadapter).
Qed.

Lemma batching_does_not_change_output_witness :
  let self := Demo.repairer Transformer 10 Demo.copy in
  let inputs :=
    InList [PyStr (String.list_ascii_of_string "abc def ghi jkl");
            PyStr (String.list_ascii_of_string "xy")] in
  repair_text (imports := Demo.imports) self inputs 16 true false
  = repair_text (imports := Demo.imports) self inputs 1 false true
  ∧ repair_text (imports := Demo.imports) self inputs 16 true false
    = Ok (OutList [String.list_ascii_of_string "abc def ghi jkl";
                   String.list_ascii_of_string "xy"]).
Proof.
  intros self inputs. split; [|by vm_compute].
  exact (proj2 (batching_does_not_change_output (imports := Demo.imports)
                  self Demo.copy inputs 16 1 true false false true
                  ltac:(by intros ? ?) ltac:(lia) ltac:(lia))).
Defined.

Lemma mapM_clean_item_Ok {imports : Imports} (items : list PyItem)
    (cleaned : list str) :
  mapM clean_item items = Ok cleaned →
  length cleaned = length items
  ∧ ∀ (i : nat) s, items !! i = Some (PyStr s) →
      cleaned !! i = Some (clean_sequence s).
Proof.
  intros Hall%mapM_Ok. split; [symmetry; by eapply Forall2_length|].
  intros i s Hi.
  destruct (Forall2_lookup_l _ _ _ _ _ Hall Hi) as (c & Hc & Hclean).
  by injection Hclean as <-.
Qed.

(** The comprehension of line 370 gives one result per input, whatever
    the adapter returned. *)
Lemma repair_text_raw_length {F} {fzero : FloatZero F} {imports : Imports}
    (self : TokenizationRepairer F) (inputs : list str) (batch_size : Z)
    (sort_by_length show_progress : bool) (irs : list (PyResult F)) :
  _repair_text_raw self inputs batch_size sort_by_length show_progress
  = Ok irs →
  length irs = length inputs.
Proof.
  unfold _repair_text_raw.
  destruct (plan_loop self 0 inputs (∅, [])) as [slots batches].
  intros (batch_idxs & _ & (filled & _ & Hall)%bind_Ok)%bind_Ok.
  apply mapM_Ok, Forall2_length in Hall. by rewrite length_seq in Hall.
Qed.

(** The outputs of a list, for an adapter that keeps the order: the
    output at the index of a string is the output for this string. *)
Lemma repair_text_of_list {F} {fzero : FloatZero F} {imports : Imports}
    (self : TokenizationRepairer F) (infer_one : str → KwEntry → PyResult F)
    (l : list PyItem) (batch_size : Z) (sort_by_length show_progress : bool)
    (out : Outputs) :
  order_preserving self infer_one →
  0 < batch_size →
  repair_text self (InList l) batch_size sort_by_length show_progress = Ok out →
  ∃ outs, out = OutList outs ∧ length outs = length l
    ∧ ∀ (i : nat) s o, l !! i = Some (PyStr s) → outs !! i = Some o →
        repair_text self (InStr s) batch_size sort_by_length show_progress
        = Ok (OutStr o).
Proof.
  intros Hadapter Hsize Hrun. unfold repair_text in Hrun.
  apply bind_Ok in Hrun as ([] & Hvalid%assert_Ok & Hrun).
  apply bind_Ok in Hrun as (cleaned & Hclean & Hrun).
  apply bind_Ok in Hrun as (irs & Hraw & Hrun).
  apply bind_Ok in Hrun as (outputs & Hout & [= <-]).
  rewrite (repair_text_raw_spec self infer_one Hadapter) in Hraw by done.
  apply mapM_clean_item_Ok in Hclean as [Hlc Hclean].
  apply mapM_Ok in Hraw, Hout.
  pose proof (Forall2_length _ _ _ Hraw) as Hlraw.
  pose proof (Forall2_length _ _ _ Hout) as Hlout.
  rewrite length_zip in Hlout.
  exists outputs. split_and!; [done|lia|].
  intros i s o Hi Ho.
  pose proof (Hclean i s Hi) as Hc.
  destruct (Forall2_lookup_l _ _ _ _ _ Hraw Hc) as (ir & Hir & Hmerged).
  destruct (Forall2_lookup_r _ _ _ _ _ Hout Ho) as ([c' ir'] & Hz & Hrender).
  apply lookup_zip_with_Some in Hz as (c'' & ir'' & [= <- <-] & Hc' & Hir').
  rewrite Hc in Hc'. injection Hc' as <-.
  rewrite Hir in Hir'. injection Hir' as <-.
  unfold repair_text. simpl.
  rewrite (repair_text_raw_spec self infer_one Hadapter) by done.
  simpl. rewrite Hmerged. simpl. by rewrite Hrender.
Qed.

(** C9: whatever the adapter and the batch size are, [repair_text]
    fails its first assertion, before any planning, for an input that is
    neither a string nor a list, for the empty list and for a list whose
    first element is not a string.  A call that returns gives a string
    for a string and, for a list, a list with one output per element.
    With an adapter that keeps the order and a positive batch size the
    output at the index of a string is the output of [repair_text] for
    this string alone.  The assertion looks at the first element only:
    when a later element is not a string it is handed to the imported
    [clean_sequence], and if that raises, its exception is the one of
    the call, again before any planning. *)
Theorem repair_text_keeps_the_shape {F} {fzero : FloatZero F}
    {imports : Imports} (self : TokenizationRepairer F)
    (batch_size : Z) (sort_by_length show_progress : bool) :
  let run inputs :=
    repair_text self inputs batch_size sort_by_length show_progress in
  run InOther = Err (AssertionError InputIsStringOrNonEmptyList)
  ∧ run (InList []) = Err (AssertionError InputIsStringOrNonEmptyList)
  ∧ (∀ z l, run (InList (PyInt z :: l))
            = Err (AssertionError InputIsStringOrNonEmptyList))
  ∧ (∀ s out, run (InStr s) = Ok out → ∃ o, out = OutStr o)
  ∧ (∀ l out, run (InList l) = Ok out →
       ∃ outs, out = OutList outs ∧ length outs = length l ∧ l ≠ [])
  ∧ (∀ infer_one l outs,
       order_preserving self infer_one → 0 < batch_size →
       run (InList l) = Ok (OutList outs) →
       ∀ (i : nat) s o, l !! i = Some (PyStr s) → outs !! i = Some o →
         run (InStr s) = Ok (OutStr o))
  ∧ (∀ (strings : list str) z l e,
       strings ≠ [] → clean_sequence_of_int z = Err e →
       run (InList ((PyStr <$> strings) ++ PyInt z :: l)) = Err e).
Proof.
  intros run. subst run. split_and!.
  - done.
  - done.
  - done.
  - intros s out Hrun. unfold repair_text in Hrun.
    apply bind_Ok in Hrun as ([] & _ & Hrun).
    apply bind_Ok in Hrun as (cleaned & _ & Hrun).
    apply bind_Ok in Hrun as (irs & _ & Hrun).
    apply bind_Ok in Hrun as (outputs & _ & Hrun). simpl in Hrun.
    destruct (py_get outputs 0) as [o|]; [|done].
    injection Hrun as <-. by exists o.
  - intros l out Hrun. unfold repair_text in Hrun.
    apply bind_Ok in Hrun as ([] & Hvalid%assert_Ok & Hrun).
    apply bind_Ok in Hrun as (cleaned & Hclean & Hrun).
    apply bind_Ok in Hrun as (irs & Hraw & Hrun).
    apply bind_Ok in Hrun as (outputs & Hout & [= <-]).
    apply repair_text_raw_length in Hraw.
    apply mapM_Ok, Forall2_length in Hclean, Hout.
    rewrite length_zip in Hout.
    exists outputs. split_and!; [done|lia|by destruct l].
  - intros infer_one l outs Hadapter Hsize Hrun i s o Hi Ho.
    destruct (repair_text_of_list self infer_one l batch_size sort_by_length
                show_progress _ Hadapter Hsize Hrun)
      as (outs' & [= <-] & _ & Hall).
    by eapply Hall.
  - intros strings z l e Hne Hz. unfold repair_text.
    destruct strings as [|s0 strings]; [done|]. simpl assert.
    cbn [mbind result_bind].
    assert (mapM clean_item ((PyStr <$> s0 :: strings) ++ PyInt z :: l)
            = Err e) as ->; [|done].
    clear Hne. induction (s0 :: strings) as [|s strings' IH].
    + simpl. by rewrite Hz.
    + rewrite fmap_cons, <- app_comm_cons.
      change (mapM clean_item
                (PyStr s :: (PyStr <$> strings') ++ PyInt z :: l))
        with (c ← clean_item (PyStr s);
              cs ← mapM clean_item ((PyStr <$> strings') ++ PyInt z :: l);
              Ok (c :: cs)).
      by rewrite IH.
Qed.

Lemma repair_text_keeps_the_shape_witness :
  let self := Demo.repairer Transformer 10 Demo.copy in
  repair_text (imports := Demo.imports) self
    (InList [PyStr (String.list_ascii_of_string "abc def ghi jkl");
             PyStr (String.list_ascii_of_string "xy")]) 16 true false
  = Ok (OutList [String.list_ascii_of_string "abc def ghi jkl";
                 String.list_ascii_of_string "xy"])
  ∧ repair_text (imports := Demo.imports) self
      (InStr (String.list_ascii_of_string "xy")) 16 true false
    = Ok (OutStr (String.list_ascii_of_string "xy"))
  ∧ repair_text (imports := Demo.imports) self
      (InList [PyInt 7; PyStr (String.list_ascii_of_string "xy")]) 16 true
      false
    = Err (AssertionError InputIsStringOrNonEmptyList).
Proof.
  intros self.
  pose proof (repair_text_keeps_the_shape (imports := Demo.imports)
                self 16 true false)
    as (_ & _ & Hfirst & _ & _ & Hlist & _).
  assert (repair_text (imports := Demo.imports) self
            (InList [PyStr (String.list_ascii_of_string "abc def ghi jkl");
                     PyStr (String.list_ascii_of_string "xy")]) 16 true false
          = Ok (OutList [String.list_ascii_of_string "abc def ghi jkl";
                         String.list_ascii_of_string "xy"])) as Hrun
    by (by vm_compute).
  split_and!.
  - exact Hrun.
  - exact (Hlist Demo.copy _ _ ltac:(by intros ? ?) ltac:(lia) Hrun
             1%nat _ _ eq_refl eq_refl).
  - exact (Hfirst 7 _).
Defined.

(** * Further properties of the engine *)

(** ** The geometry of a window *)

(** The window and its two contexts fit the model.  For
    [0 <= max_length] with [3 * max_length < 2 ^ 53], the range in which
    the double-precision product [0.75 * max_length] of line 179 is exact,
    the context size is not negative, a core and two contexts take at
    most [max_length] positions and at least [max_length - 1], and the
    window size is the ceiling of three quarters of [max_length]. *)
Theorem window_and_contexts_fit {F} (self : TokenizationRepairer F) :
  0 ≤ max_length self →
  3 * max_length self < 2 ^ 53 →
  0 ≤ context_size self
  ∧ context_size self ≤ window_size self
  ∧ window_size self + 2 * context_size self ≤ max_length self
  ∧ max_length self - 1 ≤ window_size self + 2 * context_size self
  ∧ 3 * max_length self ≤ 4 * window_size self < 3 * max_length self + 4
  ∧ (0 < max_length self → 0 < window_size self).
Proof. intros Hm _. by apply window_geometry. Qed.

Lemma window_and_contexts_fit_witness :
  let self := Demo.repairer Transformer 802 Demo.copy in
  window_size self = 600 ∧ context_size self = 100
  ∧ window_size self + 2 * context_size self ≤ max_length self.
Proof.
  intros self. split_and!; [done|done|].
  exact (proj1 (proj2 (proj2 (window_and_contexts_fit self
                                ltac:(by vm_compute)
                                ltac:(by vm_compute))))).
Defined.

Lemma length_planned_windows (length window_size : Z) :
  0 < window_size →
  List.length (planned_windows length window_size)
  = Z.to_nat ((length + window_size - 1) / window_size).
Proof.
  intros Hws. unfold planned_windows.
  destruct (Z.ltb_spec 0 window_size) as [_|?]; [|lia].
  by rewrite length_fmap, length_seq.
Qed.

Lemma len_py_slice_inside {A} (l : list A) (lo hi : Z) :
  0 ≤ lo ≤ hi → hi ≤ len l → len (py_slice l lo hi) = hi - lo.
Proof.
  intros Hlo Hhi. unfold len in *. rewrite length_py_slice.
  unfold slice_count, slice_bound.
  destruct (Z.ltb_spec lo 0), (Z.ltb_spec hi 0); lia.
Qed.

(** Every substring sent to the adapter fits the model: with the planned
    windows, the entry at position [p] of an input's plan carries the
    input's index and [p], its bounds lie inside the input, its substring
    has exactly [to_ - from_] characters, at most [max_length] of them and
    at least one unless the input is empty; for a split input the bounds
    enclose the core of window [p], with the left context clipped at 0
    and the right one at the end of the input. *)
Theorem planned_substrings_fit {F} {fzero : FloatZero F} {imports : Imports}
    (self : TokenizationRepairer F) (i : nat) (ipt : str) (p : nat)
    (input_idx : nat) (from_ to_ : Z) (position : nat) :
  sliding_windows (len ipt) (window_size self)
  = planned_windows (len ipt) (window_size self) →
  0 < max_length self →
  (plan_input self i ipt).1 !! p = Some (input_idx, from_, to_, position) →
  input_idx = i ∧ position = p
  ∧ 0 ≤ from_ ≤ to_ ∧ to_ ≤ len ipt
  ∧ to_ - from_ ≤ max_length self
  ∧ len (py_slice ipt from_ to_) = to_ - from_
  ∧ (0 < len ipt → from_ < to_)
  ∧ (max_length self < len ipt →
     let w := Z.of_nat p * window_size self in
     w < len ipt
     ∧ from_ = Z.max 0 (w - context_size self)
     ∧ to_ = Z.min (len ipt) (w + window_size self + context_size self)
     ∧ from_ ≤ w ∧ Z.min (len ipt) (w + window_size self) ≤ to_).
Proof.
  intros Hplan Hmax Hp.
  destruct (window_geometry self ltac:(lia))
    as (Hctx & Hcw & Hfit & _ & _ & Hws).
  specialize (Hws Hmax).
  assert (0 ≤ len ipt) as Hlen0 by (unfold len; lia).
  unfold plan_input in Hp.
  destruct (Z.leb_spec (len ipt) (max_length self)) as [Hshort|Hlong];
    simpl in Hp.
  - destruct p as [|p]; [|done]. injection Hp as <- <- <- <-.
    split_and!; try done; try lia;
      try (rewrite len_py_slice_inside; lia).
  - rewrite Hplan, list_lookup_imap in Hp.
    apply fmap_Some in Hp as (w0 & Hw & [= -> -> -> ->]).
    apply planned_windows_lookup in Hw as (_ & -> & Hwn); [|done].
    set (w := Z.of_nat p * window_size self) in *.
    assert (0 ≤ w) by (unfold w; lia).
    split_and!; try done; try lia;
      try (rewrite len_py_slice_inside; lia).
Qed.

Lemma planned_substrings_fit_witness :
  let self := Demo.repairer Transformer 10 Demo.copy in
  let ipt := String.list_ascii_of_string "abc def ghi jkl" in
  len (py_slice ipt 5 13) = 13 - 5 ∧ 13 - 5 ≤ max_length self.
Proof.
  intros self ipt.
  destruct (planned_substrings_fit (imports := Demo.imports) self 0 ipt 1
              0 5 13 1 eq_refl ltac:(by vm_compute) eq_refl)
    as (_ & _ & _ & _ & Hfit & Hlen & _).
  by split.
Defined.

Lemma long_input_is_split_aux {F} {fzero : FloatZero F} {imports : Imports}
    (self : TokenizationRepairer F) (i : nat) (ipt : str) :
  sliding_windows (len ipt) (window_size self)
  = planned_windows (len ipt) (window_size self) →
  0 < max_length self →
  max_length self < len ipt →
  (2 ≤ length (planned_windows (len ipt) (window_size self)))%nat
  ∧ (plan_input self i ipt).1
    = imap (λ p window,
              (i, Z.max 0 (window - context_size self),
               Z.min (len ipt)
                     (window + window_size self + context_size self), p))
           (planned_windows (len ipt) (window_size self)).
Proof.
  intros Hplan Hmax Hlong.
  destruct (window_geometry self ltac:(lia))
    as (Hctx & _ & Hfit & _ & _ & Hws).
  specialize (Hws Hmax). split.
  - rewrite length_planned_windows by done.
    destruct (window_count_bounds (len ipt) (window_size self) Hws
                ltac:(unfold len; lia)) as (Hc0 & Hup & _).
    set (count := (len ipt + window_size self - 1) / window_size self) in *.
    nia.
  - unfold plan_input.
    destruct (Z.leb_spec (len ipt) (max_length self)) as [?|_]; [lia|].
    simpl. by rewrite Hplan.
Qed.

(** An input longer than [max_length] is split: with the planned windows
    it gets one entry and one empty slot per window, and at least two of
    them. *)
Theorem long_input_is_split {F} {fzero : FloatZero F} {imports : Imports}
    (self : TokenizationRepairer F) (i : nat) (ipt : str) :
  sliding_windows (len ipt) (window_size self)
  = planned_windows (len ipt) (window_size self) →
  0 < max_length self →
  max_length self < len ipt →
  let windows := planned_windows (len ipt) (window_size self) in
  (2 ≤ length windows)%nat
  ∧ length (plan_input self i ipt).1 = length windows
  ∧ (plan_input self i ipt).2 = replicate (length windows) PyNone
  ∧ entry_key <$> (plan_input self i ipt).1
    = (λ p, (i, p)) <$> seq 0 (length windows).
Proof.
  intros Hplan Hmax Hlong windows.
  destruct (window_geometry self ltac:(lia))
    as (Hctx & Hcw & Hfit & _ & _ & Hws).
  specialize (Hws Hmax).
  assert (length (plan_input self i ipt).1 = length windows) as Hlen.
  { unfold plan_input.
    destruct (Z.leb_spec (len ipt) (max_length self)) as [?|_]; [lia|].
    simpl. by rewrite length_imap, Hplan. }
  split_and!; [|done|by rewrite plan_input_slots, Hlen
               |by rewrite plan_input_keys, Hlen].
  unfold windows. rewrite length_planned_windows by done.
  destruct (window_count_bounds (len ipt) (window_size self) Hws
              ltac:(unfold len; lia)) as (Hc0 & Hup & _).
  set (count := (len ipt + window_size self - 1) / window_size self) in *.
  nia.
Qed.

Lemma long_input_is_split_witness :
  let self := Demo.repairer Transformer 10 Demo.copy in
  let ipt := String.list_ascii_of_string "abc def ghi jkl" in
  (2 ≤ length (planned_windows (len ipt) (window_size self)))%nat.
Proof.
  intros self ipt.
  exact (proj1 (long_input_is_split (imports := Demo.imports) self 0 ipt
                  eq_refl ltac:(by vm_compute) ltac:(by vm_compute))).
Defined.


(** ** A classification merge that cannot fail *)

Lemma core_slice_spec {A} (l : list A) (L start window_size : Z) :
  len l = L + 2 → 0 ≤ start ≤ L → 0 < window_size →
  let core := py_slice (py_slice l 1 (-1)) start (start + window_size) in
  len core = Z.min window_size (L - start)
  ∧ ∀ k : nat, (k < length core)%nat →
      core !! k = l !! (1 + Z.to_nat start + k)%nat.
Proof.
  intros Hl Hstart Hws core.
  assert (length (py_slice l 1 (-1)) = Z.to_nat L) as Hstripped.
  { rewrite length_py_slice. unfold slice_count, slice_bound, len in *.
    simpl. lia. }
  assert (length core = Z.to_nat (Z.min window_size (L - start))) as Hcore.
  { unfold core. rewrite length_py_slice, Hstripped.
    unfold slice_count, slice_bound.
    destruct (Z.ltb_spec start 0), (Z.ltb_spec (start + window_size) 0); lia. }
  split; [unfold len; lia|].
  intros k Hk. unfold core.
  rewrite lookup_py_slice
    by (rewrite <- length_py_slice; exact Hk).
  rewrite Hstripped.
  replace (slice_start (Z.to_nat L) start) with (Z.to_nat start)
    by (unfold slice_start, slice_bound;
        destruct (Z.ltb_spec start 0); lia).
  rewrite lookup_py_slice.
  - f_equal. unfold slice_start, slice_bound, len in *. simpl. lia.
  - unfold slice_count, slice_bound, len in *. simpl. lia.
Qed.

Section ClassificationTotal.
Context {F : Type} {fzero : FloatZero F} {imports : Imports}.
Variable self : TokenizationRepairer F.
Variable C : nat.

(** The loop returns when every window's slices have the shape of the
    positions they are written to. *)
Lemma merge_classification_loop_total (irs : list (PyResult F)) :
  ∀ (i : nat) (windows : list Z) mp0 ml0,
  length ml0 = length mp0 →
  (∀ (j : nat) ir w, irs !! j = Some ir → windows !! j = Some w →
     ∃ r, ir = Classification r
          ∧ length (core_predictions self (i + j) r)
            = slice_count (length mp0) w (w + window_size self)
          ∧ length (core_logits self (i + j) r)
            = slice_count (length mp0) w (w + window_size self)
          ∧ core_logits self (i + j) r ≠ []
          ∧ Forall (λ row, length row = C) (core_logits self (i + j) r)) →
  ∃ mp ml, merge_classification_loop self C i irs windows (mp0, ml0)
           = Ok (mp, ml).
Proof.
  induction irs as [|ir0 irs IH]; intros i windows mp0 ml0 Hlen Hshape.
  { by exists mp0, ml0. }
  destruct windows as [|w0 windows]; [by exists mp0, ml0|].
  destruct (Hshape 0%nat ir0 w0 eq_refl eq_refl)
    as (r0 & -> & Hcp & Hcl & Hne & Hrows).
  rewrite Nat.add_0_r in Hcp, Hcl, Hne, Hrows.
  simpl. unfold np_set_slice, np_set_rows.
  rewrite np_broadcast_same by done. simpl.
  rewrite Hlen, np_broadcast_rows_id by done. simpl.
  pose proof (slice_start_count_le (length mp0) w0 (w0 + window_size self)).
  apply IH.
  - rewrite !length_splice; lia.
  - intros j ir w Hj Hw.
    destruct (Hshape (S j) ir w Hj Hw) as (r & -> & ?).
    exists r. rewrite length_splice by lia.
    by replace (S i + j)%nat with (i + S j)%nat by lia.
Qed.
End ClassificationTotal.

Section PlannedCores.
Context {F : Type} {fzero : FloatZero F} {imports : Imports}.
Variable self : TokenizationRepairer F.
Variable ipt : str.
Hypothesis max_length_pos : 0 < max_length self.

(** The slice the merger takes from the result of the [j]-th planned
    window has the size of the window's core, and its [k]-th value is the
    one the result gives to the [k]-th character of the core. *)
Lemma planned_core_slice {A} (l : list A) (j : nat) (w : Z) :
  planned_windows (len ipt) (window_size self) !! j = Some w →
  let from_ := Z.max 0 (w - context_size self) in
  let to_ := Z.min (len ipt) (w + window_size self + context_size self) in
  len l = to_ - from_ + 2 →
  let core := py_slice (py_slice l 1 (-1)) (start_idx self j)
                       (start_idx self j + window_size self) in
  length core = slice_count (length ipt) w (w + window_size self)
  ∧ (0 < length core)%nat
  ∧ slice_start (length ipt) w = Z.to_nat w
  ∧ ∀ k : nat, (k < length core)%nat →
      core !! k = l !! (1 + Z.to_nat (w - from_) + k)%nat.
Proof using max_length_pos.
  intros Hw from_ to_ Hl core.
  destruct (window_geometry self ltac:(lia))
    as (Hctx & Hcw & _ & _ & _ & Hws).
  specialize (Hws max_length_pos).
  apply planned_windows_lookup in Hw as (_ & Hwj & Hwn);
    [|unfold len; lia].
  assert (start_idx self j = w - from_) as Hstart.
  { unfold start_idx, from_. case_decide as Hj; [subst; lia|]. nia. }
  assert (0 ≤ w) as Hw0 by lia.
  destruct (core_slice_spec l (to_ - from_) (start_idx self j)
              (window_size self) Hl ltac:(unfold to_, from_ in *; lia) Hws)
    as [Hlen Hlookup].
  fold core in Hlen, Hlookup. unfold len in *. rewrite Hstart in Hlookup.
  assert (length core = slice_count (length ipt) w (w + window_size self))
    as Hcount.
  { unfold slice_count, slice_bound.
    destruct (Z.ltb_spec w 0), (Z.ltb_spec (w + window_size self) 0);
      unfold to_, from_ in *; lia. }
  split_and!; [done| | |done].
  - unfold to_, from_ in *. lia.
  - unfold slice_start, slice_bound. destruct (Z.ltb_spec w 0); lia.
Qed.
End PlannedCores.

(** With the planned windows and an adapter that keeps its part (a
    classification result of the substring's length plus two markers for
    every window, labels not negative, rows of [C] logits), the merge of
    a split input returns: no shape error, no position left unfilled.
    The merged label and logits of the input's character [p] are those
    that the window whose core contains [p] gives to that character, and
    the merged sequences have [input_length + 2] elements. *)
Theorem classification_merge_returns {F} {fzero : FloatZero F}
    {imports : Imports} (self : TokenizationRepairer F) (ipt : str)
    (irs : list (PyResult F)) (C : nat) :
  sliding_windows (len ipt) (window_size self)
  = planned_windows (len ipt) (window_size self) →
  0 < max_length self →
  max_length self < len ipt →
  Forall2 (λ e ir, well_shaped C (entry_length e) ir)
          (plan_input self 0 ipt).1 irs →
  ∃ mp ml,
    _merge_inference_results self irs ipt
    = Ok (Classification
            {| predictions := [0] ++ mp ++ [0];
               logits := [replicate C float_zero] ++ ml
                         ++ [replicate C float_zero] |})
    ∧ length mp = length ipt ∧ length ml = length ipt
    ∧ ∀ p : nat, (p < length ipt)%nat →
        let i := Z.to_nat (Z.of_nat p / window_size self) in
        ∃ from_ to_ r,
          (plan_input self 0 ipt).1 !! i = Some (0%nat, from_, to_, i)
          ∧ irs !! i = Some (Classification r)
          ∧ from_ ≤ Z.of_nat p < to_
          ∧ mp !! p = predictions r !! Z.to_nat (1 + (Z.of_nat p - from_))
          ∧ ml !! p = logits r !! Z.to_nat (1 + (Z.of_nat p - from_)).
Proof.
  intros Hplan Hmax Hlong Hshape.
  destruct (window_geometry self ltac:(lia))
    as (Hctx & Hcw & _ & _ & _ & Hws).
  specialize (Hws Hmax).
  destruct (long_input_is_split_aux self 0 ipt Hplan Hmax Hlong)
    as (Htwo & Hentries).
  set (windows := planned_windows (len ipt) (window_size self)) in *.
  set (n := length ipt).
  pose proof (Forall2_length _ _ _ Hshape) as Hlirs.
  rewrite Hentries, length_imap in Hlirs.
  (* what every window contributes *)
  assert (∀ (j : nat) ir w, irs !! j = Some ir → windows !! j = Some w →
            ∃ r, ir = Classification r
              ∧ (plan_input self 0 ipt).1 !! j
                = Some (0%nat, Z.max 0 (w - context_size self),
                        Z.min (len ipt)
                              (w + window_size self + context_size self), j)
              ∧ len (predictions r)
                = Z.min (len ipt) (w + window_size self + context_size self)
                  - Z.max 0 (w - context_size self) + 2
              ∧ len (logits r)
                = Z.min (len ipt) (w + window_size self + context_size self)
                  - Z.max 0 (w - context_size self) + 2
              ∧ Forall (λ row, length row = C) (logits r)
              ∧ Forall (λ label, 0 ≤ label) (predictions r)) as Hwindow.
  { intros j ir w Hj Hw.
    assert ((plan_input self 0 ipt).1 !! j
            = Some (0%nat, Z.max 0 (w - context_size self),
                    Z.min (len ipt)
                          (w + window_size self + context_size self), j))
      as He by (by rewrite Hentries, list_lookup_imap, Hw).
    destruct (Forall2_lookup_lr _ _ _ _ _ _ Hshape He Hj)
      as (r & -> & Hlp & Hll & Hrows & Hnn).
    by exists r. }
  assert (∀ (j : nat) ir w, irs !! j = Some ir → windows !! j = Some w →
            ∃ r, ir = Classification r
              ∧ length (core_predictions self (0 + j) r)
                = slice_count (length (replicate n (-1))) w
                              (w + window_size self)
              ∧ length (core_logits self (0 + j) r)
                = slice_count (length (replicate n (-1))) w
                              (w + window_size self)
              ∧ core_logits self (0 + j) r ≠ []
              ∧ Forall (λ row, length row = C) (core_logits self (0 + j) r))
    as Hcores.
  { intros j ir w Hj Hw.
    destruct (Hwindow j ir w Hj Hw) as (r & -> & _ & Hlp & Hll & Hrows & _).
    destruct (planned_core_slice self ipt Hmax (predictions r) j w Hw Hlp)
      as (Hcp & _ & _ & _).
    destruct (planned_core_slice self ipt Hmax (logits r) j w Hw Hll)
      as (Hcl & Hpos & _ & Hlook).
    exists r. rewrite length_replicate. simpl.
    split_and!; [done|exact Hcp|exact Hcl| |].
    - intros Hnil. unfold core_logits in Hnil. rewrite Hnil in Hpos.
      simpl in Hpos. lia.
    - apply Forall_lookup_2. intros k row Hk.
      pose proof (lookup_lt_Some _ _ _ Hk) as Hlt.
      unfold core_logits in Hk, Hlt. rewrite (Hlook k Hlt) in Hk.
      eapply (Forall_lookup_1 (λ row, length row = C));
        [exact Hrows|exact Hk]. }
  (* the first result gives the number of columns *)
  destruct irs as [|ir0 [|ir1 irs']]; [simpl in Hlirs; lia..|].
  destruct (lookup_lt_is_Some_2 windows 0) as [w0 Hw0]; [lia|].
  destruct (Hwindow 0%nat ir0 w0 eq_refl Hw0)
    as (r0 & -> & _ & _ & Hll0 & Hrows0 & _).
  destruct (logits r0) as [|row0 rows0] eqn:Hlogits0.
  { apply planned_windows_lookup in Hw0 as (_ & -> & _); [|unfold len; lia].
    unfold len in Hll0. simpl in Hll0. lia. }
  assert (length row0 = C) as Hrow0 by (by inversion Hrows0).
  (* the loop returns *)
  destruct (merge_classification_loop_total self C
              (Classification r0 :: ir1 :: irs') 0 windows
              (replicate n (-1)) (replicate n (replicate C float_zero))
              ltac:(by rewrite !length_replicate) Hcores)
    as (mp & ml & Hloop).
  pose proof Hloop as Hloop'.
  apply merge_classification_loop_Ok in Hloop'
    as (Hlmp & Hlml & _ & Hin); [|by rewrite !length_replicate].
  rewrite length_replicate in Hlmp, Hlml, Hin.
  (* what every position holds *)
  assert (∀ p : nat, (p < n)%nat →
            let i := Z.to_nat (Z.of_nat p / window_size self) in
            ∃ from_ to_ r,
              (plan_input self 0 ipt).1 !! i = Some (0%nat, from_, to_, i)
              ∧ (Classification r0 :: ir1 :: irs') !! i
                = Some (Classification r)
              ∧ from_ ≤ Z.of_nat p < to_
              ∧ mp !! p = predictions r !! Z.to_nat (1 + (Z.of_nat p - from_))
              ∧ ml !! p = logits r !! Z.to_nat (1 + (Z.of_nat p - from_))
              ∧ Forall (λ label, 0 ≤ label) (predictions r)) as Hpos.
  { intros p Hp i.
    pose proof (Z.div_mod (Z.of_nat p) (window_size self) ltac:(lia)) as Hdm.
    pose proof (Z.mod_pos_bound (Z.of_nat p) (window_size self) Hws) as Hr.
    assert (0 ≤ Z.of_nat p / window_size self) as Hq
      by (apply Z.div_pos; lia).
    assert (i < length windows)%nat as Hi.
    { unfold windows. rewrite length_planned_windows by done.
      destruct (window_count_bounds (len ipt) (window_size self) Hws
                  ltac:(unfold len; lia)) as (Hc0 & _ & Hlow).
      unfold i, n, len in *.
      apply Z2Nat.inj_lt; [done|done|].
      apply Z.div_lt_upper_bound; [done|].
      pose proof (Z.div_mod (Z.of_nat (length ipt) + window_size self - 1)
                    (window_size self) ltac:(lia)).
      pose proof (Z.mod_pos_bound
                    (Z.of_nat (length ipt) + window_size self - 1)
                    (window_size self) Hws).
      nia. }
    destruct (lookup_lt_is_Some_2 windows i Hi) as [w Hw].
    destruct (lookup_lt_is_Some_2 (Classification r0 :: ir1 :: irs') i)
      as [ir Hir]; [lia|].
    destruct (Hwindow i ir w Hir Hw) as (r & -> & He & Hlp & Hll & _ & Hnn).
    destruct (Hin i _ w Hir Hw) as (r' & wp & wl & [= <-] & Hwp & Hwl & Hlast).
    simpl in Hwp, Hwl.
    destruct (planned_core_slice self ipt Hmax (predictions r) i w Hw Hlp)
      as (Hcp & _ & Hstart & Hlookp).
    destruct (planned_core_slice self ipt Hmax (logits r) i w Hw Hll)
      as (Hcl & Hcpos & _ & Hlookl).
    destruct (Hcores i _ w Hir Hw) as (r' & [= <-] & _ & _ & Hne & Hrows).
    simpl in Hne, Hrows.
    fold (core_predictions self i r) in Hcp, Hlookp.
    fold (core_logits self i r) in Hcl, Hlookl, Hcpos.
    fold n in Hcp, Hcl, Hstart.
    rewrite np_broadcast_same in Hwp by done. injection Hwp as <-.
    rewrite np_broadcast_rows_id in Hwl by done. injection Hwl as <-.
    pose proof Hw as Hw'.
    apply planned_windows_lookup in Hw' as (_ & Hwi & Hwn);
      [|unfold len; lia].
    assert (w = Z.of_nat p / window_size self * window_size self) as Hwq
      by (unfold i in Hwi; lia).
    assert (covers n w (window_size self) p) as Hcov.
    { apply covers_planned; [lia|done|]. unfold n, len in *. lia. }
    destruct (Hlast p Hcov) as [Hmp Hml].
    { intros j' w' Hjj' _ Hw''.
      apply planned_windows_lookup in Hw'' as (_ & -> & _);
        [|unfold len; lia].
      rewrite covers_planned by lia. nia. }
    rewrite Hstart in Hmp, Hml.
    assert (p - Z.to_nat w < length (core_predictions self i r))%nat as Hk.
    { rewrite Hcp. unfold covers in Hcov. rewrite Hstart in Hcov. lia. }
    rewrite Hlookp in Hmp by done.
    rewrite Hlookl in Hml by (rewrite Hcl, <- Hcp; done).
    eexists _, _, r. split_and!; [exact He|done|lia|unfold len in *; lia| | |done].
    - rewrite Hmp. f_equal. lia.
    - rewrite Hml. f_equal. lia. }
  exists mp, ml. split_and!; [|done|done|].
  - change (_merge_inference_results self (Classification r0 :: ir1 :: irs')
              ipt)
      with (merge_classification self r0 (Classification r0 :: ir1 :: irs')
              ipt).
    unfold merge_classification. rewrite Hplan. fold windows.
    rewrite bool_decide_eq_true_2 by done. simpl.
    rewrite Hlogits0. simpl. rewrite Hrow0. fold n.
    simpl in Hloop. rewrite Hloop. simpl.
    assert (forallb (λ p, 0 <=? p) mp = true) as ->; [|done].
    apply forallb_forall. intros label Hlabel%list_elem_of_In.
    apply list_elem_of_lookup in Hlabel as [p Hp].
    pose proof (lookup_lt_Some _ _ _ Hp) as Hlt. rewrite Hlmp in Hlt.
    destruct (Hpos p Hlt) as (from_ & to_ & r & _ & _ & _ & Hmp & _ & Hnn).
    rewrite Hmp in Hp.
    apply (Forall_lookup_1 (λ label, 0 ≤ label) _ _ _ Hnn) in Hp. lia.
  - intros p Hp i.
    destruct (Hpos p Hp) as (from_ & to_ & r & ? & ? & ? & ? & ? & _).
    by exists from_, to_, r.
Qed.

Lemma classification_merge_returns_witness :
  let self := Demo.repairer EncoderWithHead 10 Demo.keep_all in
  let ipt := String.list_ascii_of_string "abc def ghi jkl" in
  ∃ mp ml,
    _merge_inference_results (imports := Demo.imports) self
      (window_results (imports := Demo.imports) self Demo.keep_all ipt) ipt
    = Ok (Classification
            {| predictions := [0] ++ mp ++ [0];
               logits := [replicate 3 0] ++ ml ++ [replicate 3 0] |})
    ∧ length mp = 15%nat.
Proof.
  intros self ipt.
  destruct (classification_merge_returns (imports := Demo.imports) self ipt
              (window_results (imports := Demo.imports) self Demo.keep_all ipt)
              3 eq_refl ltac:(by vm_compute) ltac:(by vm_compute))
    as (mp & ml & Hm & Hlen & _).
  - repeat constructor; eexists; (split; [reflexivity|]);
      (split; [by vm_compute|]); (split; [by vm_compute|]);
      split; repeat constructor; vm_compute; discriminate.
  - by exists mp, ml.
Defined.

(** ** The shape of a merged classification result *)

Lemma np_broadcast_rows_columns {A} (rows rows' : list (list A)) (n C : nat) :
  np_broadcast_rows rows n C = Ok rows' →
  Forall (λ row, length row = C) rows'.
Proof.
  unfold np_broadcast_rows. destruct rows as [|row0 rows].
  - case_decide as HC; [|done]. intros [= <-].
    apply Forall_forall. intros row [-> _]%elem_of_replicate. by rewrite HC.
  - case_match; [|done]. intros (rows1 & Hrows1 & Hb)%bind_Ok.
    apply np_broadcast_Ok in Hb as (_ & _ & Hfrom).
    apply Forall_lookup_2. intros k row Hk. apply Hfrom in Hk.
    apply mapM_Ok in Hrows1.
    apply list_elem_of_lookup in Hk as [j Hj].
    destruct (Forall2_lookup_r _ _ _ _ _ Hrows1 Hj) as (r & _ & Hr).
    by apply np_broadcast_Ok in Hr as (? & _).
Qed.

Lemma merge_classification_loop_columns {F} {fzero : FloatZero F}
    {imports : Imports} (self : TokenizationRepairer F) (C : nat)
    (irs : list (PyResult F)) :
  ∀ (i : nat) (windows : list Z) mp0 ml0 mp ml,
  merge_classification_loop self C i irs windows (mp0, ml0) = Ok (mp, ml) →
  Forall (λ row, length row = C) ml0 →
  Forall (λ row, length row = C) ml.
Proof.
  induction irs as [|ir0 irs IH]; intros i windows mp0 ml0 mp ml Hloop Hrows.
  { simpl in Hloop. by injection Hloop as <- <-. }
  destruct windows as [|w0 windows].
  { simpl in Hloop. by injection Hloop as <- <-. }
  simpl in Hloop. apply bind_Ok in Hloop as ([mp1 ml1] & Hstep & Hloop).
  unfold merge_classification_step in Hstep.
  destruct ir0 as [|r0| |]; try discriminate.
  apply bind_Ok in Hstep as (mp1' & _ & Hstep).
  apply bind_Ok in Hstep as (ml1' & Hsl & [= <- <-]).
  apply (IH _ _ _ _ _ _ Hloop).
  apply np_set_rows_Ok in Hsl as (wl & Hwl & _ & Hml1).
  apply np_broadcast_rows_columns in Hwl.
  apply Forall_lookup_2. intros p row Hp. rewrite Hml1 in Hp.
  case_decide.
  - by apply (Forall_lookup_1 (λ row, length row = C) _ _ _ Hwl) in Hp.
  - by apply (Forall_lookup_1 (λ row, length row = C) _ _ _ Hrows) in Hp.
Qed.

(** Whatever the windows are, a classification merge of two or more
    results that returns gives a result with [input_length + 2] labels
    and as many rows of logits, every row with as many columns as the
    first row of the first window's logits, the first and last label
    being the zero markers. *)
Theorem merged_classification_shape {F} {fzero : FloatZero F}
    {imports : Imports} (self : TokenizationRepairer F)
    (first : SequenceClassificationInferenceResult F)
    (rest : list (PyResult F)) (input_str : str) (merged : PyResult F) :
  let irs := Classification first :: rest in
  (2 ≤ length irs)%nat →
  _merge_inference_results self irs input_str = Ok merged →
  ∃ m row0,
    merged = Classification m
    ∧ logits first !! 0%nat = Some row0
    ∧ length (predictions m) = (length input_str + 2)%nat
    ∧ length (logits m) = (length input_str + 2)%nat
    ∧ Forall (λ row, length row = length row0) (logits m)
    ∧ predictions m !! 0%nat = Some 0
    ∧ last (predictions m) = Some 0.
Proof.
  intros irs Hlen Hm.
  change (_merge_inference_results self irs input_str)
    with (merge_classification self first irs input_str) in Hm.
  apply merge_classification_Ok in Hm
    as (row0 & mp & ml & _ & Hrow0 & Hloop & _ & ->); [|done].
  pose proof Hloop as Hcols.
  apply merge_classification_loop_columns in Hcols.
  2:{ apply Forall_forall. intros row [-> _]%elem_of_replicate.
      by rewrite length_replicate. }
  apply merge_classification_loop_Ok in Hloop
    as (Hlmp & Hlml & _ & _); [|by rewrite !length_replicate].
  rewrite length_replicate in Hlmp, Hlml.
  eexists _, row0. split_and!; [done|done| | | |done|]; simpl.
  - rewrite length_app. simpl. lia.
  - rewrite length_app. simpl. lia.
  - constructor; [by rewrite length_replicate|].
    apply Forall_app. split; [done|].
    constructor; [by rewrite length_replicate|constructor].
  - change (0 :: mp ++ [0]) with ((0 :: mp) ++ [0]). by rewrite last_snoc.
Qed.

Lemma merged_classification_shape_witness :
  ∃ m (row0 : list Z),
    Demo.labelled [1; 1; 1; 1; 1; 1; 2; 2; 2] = Classification m
    ∧ length (predictions m) = (9 + 2)%nat
    ∧ Forall (λ row, length row = length row0) (logits m).
Proof.
  destruct (merged_classification_shape (imports := Demo.imports)
              (Demo.repairer EncoderWithHead 10 Demo.keep_all)
              (Build_SequenceClassificationInferenceResult Z
                 ([0] ++ [1; 1; 1; 1; 1; 1; 7; 7; 7] ++ [0])
                 ((λ label, [label])
                    <$> [0] ++ [1; 1; 1; 1; 1; 1; 7; 7; 7] ++ [0]))
              [Demo.labelled [9; 2; 2; 2]]
              (String.list_ascii_of_string "abcdefghi")
              (Demo.labelled [1; 1; 1; 1; 1; 1; 2; 2; 2])
              ltac:(simpl; lia) ltac:(by vm_compute))
    as (m & row0 & Hm & _ & Hlp & _ & Hcols & _).
  by exists m, row0.
Defined.

(** ** What a generation merge keeps *)

Lemma py_get_last_snoc {A} (l : list A) (x : A) : py_get (l ++ [x]) (-1) = Ok x.
Proof.
  unfold py_get, len. rewrite length_app. simpl.
  destruct (Z.ltb_spec (-1 + Z.of_nat (length l + 1)) 0) as [?|_]; [lia|].
  replace (Z.to_nat (-1 + Z.of_nat (length l + 1))) with (length l) by lia.
  by rewrite list_lookup_middle.
Qed.

Lemma merge_generation_Ok {F} {fzero : FloatZero F} {imports : Imports}
    (self : TokenizationRepairer F)
    (r0 : SequenceGenerationInferenceResult F) (rest : list (PyResult F))
    (input_str : str) (merged : PyResult F) :
  let irs := Generation r0 :: rest in
  (2 ≤ length irs)%nat →
  _merge_inference_results self irs input_str = Ok merged →
  ∃ tok lp,
    length irs
    = length (sliding_windows (len input_str) (window_size self))
    ∧ merge_generation_loop self input_str irs
        (sliding_windows (len input_str) (window_size self)) ([], [])
      = Ok (tok, lp)
    ∧ merged = Generation
        {| token_ids := [bos_token_id self] ++ tok ++ [eos_token_id self];
           token_log_probabilities := [float_zero] ++ lp ++ [float_zero] |}.
Proof.
  intros irs Hlen Hm.
  change (_merge_inference_results self irs input_str)
    with (merge_generation self (Generation r0) irs input_str) in Hm.
  unfold merge_generation in Hm.
  apply bind_Ok in Hm as (irs' & [= <-] & Hm).
  subst irs. destruct rest as [|ir1 rest]; [simpl in Hlen; lia|].
  apply bind_Ok in Hm as ([] & Hcount%assert_Ok & Hm).
  apply bool_decide_eq_true in Hcount.
  apply bind_Ok in Hm as ([tok lp] & Hloop & [= <-]).
  by exists tok, lp.
Qed.

Lemma length_concat_slices {A B} (slices : list (list A * list B)) :
  (∀ (i : nat) s, slices !! i = Some s → length s.1 = length s.2) →
  length (concat (fst <$> slices)) = length (concat (snd <$> slices)).
Proof.
  induction slices as [|s slices IH]; intros Hall; [done|].
  rewrite !fmap_cons. simpl. rewrite !length_app.
  rewrite (Hall 0%nat s eq_refl), IH; [done|].
  intros i s' Hi. by apply (Hall (S i)).
Qed.

(** A generation merge of two or more results returns only if every
    result is a generation result whose token ids start with the begin
    marker and end with the end marker; the merged result starts and ends
    with these markers too, and when every window has as many
    log-probabilities as token ids, so has the merged result. *)
Theorem generation_merge_keeps_markers {F} {fzero : FloatZero F}
    {imports : Imports} (self : TokenizationRepairer F)
    (r0 : SequenceGenerationInferenceResult F) (rest : list (PyResult F))
    (input_str : str) (merged : PyResult F) :
  let irs := Generation r0 :: rest in
  (2 ≤ length irs)%nat →
  _merge_inference_results self irs input_str = Ok merged →
  ∃ m,
    merged = Generation m
    ∧ has_markers self m = Ok true
    ∧ (∀ (i : nat) ir, irs !! i = Some ir →
         ∃ r, ir = Generation r ∧ has_markers self r = Ok true)
    ∧ ((∀ (i : nat) r, irs !! i = Some (Generation r) →
          length (token_ids r) = length (token_log_probabilities r)) →
       length (token_ids m) = length (token_log_probabilities m)).
Proof.
  intros irs Hlen Hm.
  apply merge_generation_Ok in Hm as (tok & lp & Hcount & Hloop & ->);
    [|done].
  apply merge_generation_loop_Ok in Hloop
    as (slices & -> & -> & Hls & Hslices); [|done].
  eexists. split_and!; [done| | |].
  - unfold has_markers. simpl. rewrite Z.eqb_refl.
    change (bos_token_id self :: concat slices.*1 ++ [eos_token_id self])
      with ((bos_token_id self :: concat slices.*1) ++ [eos_token_id self]).
    rewrite py_get_last_snoc. simpl. by rewrite Z.eqb_refl.
  - intros i ir Hir.
    destruct (Hslices i ir Hir) as (w & r & f & t & _ & -> & Hmark & _).
    by exists r.
  - intros Hal. simpl. rewrite !length_app. simpl. f_equal.
    rewrite (length_concat_slices slices); [done|].
    intros i s Hs. pose proof Hs as Hs'.
    destruct (lookup_lt_is_Some_2 irs i) as [ir Hir].
    { apply lookup_lt_Some in Hs. unfold irs in *. lia. }
    destruct (Hslices i ir Hir) as (w & r & f & t & _ & -> & _ & _ & Hsi).
    rewrite Hs' in Hsi. injection Hsi as ->. simpl.
    rewrite !length_py_slice. by rewrite (Hal i r Hir).
Qed.

Lemma generation_merge_keeps_markers_witness :
  let self := Demo.repairer Transformer 10 Demo.copy in
  let input_str := String.list_ascii_of_string "abcdefghi" in
  ∃ m, Demo.copy input_str (InputString input_str) = Generation m
       ∧ has_markers (imports := Demo.imports) self m = Ok true.
Proof.
  intros self input_str.
  destruct (generation_merge_keeps_markers (imports := Demo.imports) self
              (Demo.copied input_str)
              [Demo.copy (String.list_ascii_of_string "fghi") (InputString [])]
              input_str (Demo.copy input_str (InputString input_str))
              ltac:(simpl; lia) ltac:(by vm_compute))
    as (m & Hm & Hmark & _).
  by exists m.
Defined.

(** ** A rendering that cannot fail *)

Lemma concat_singletons {A} (l : list A) : concat ((λ x, [x]) <$> l) = l.
Proof.
  induction l as [|x l IH]; [done|]. rewrite fmap_cons. simpl. by f_equal.
Qed.

Section RendererTotal.
Context {F : Type} {imports : Imports}.
Variable self : TokenizationRepairer F.
Variable input_str_no_spaces : str.
Hypothesis no_spaces : Forall (λ c, c ≠ space) input_str_no_spaces.

(** When the tokens that are not whitespace spell the rest of the
    space-stripped input, unknown tokens standing for any character, the
    loop returns one character per token. *)
Lemma render_loop_total (tokens : list Z) :
  ∀ (output_chars : list str) (ptr : Z),
  0 ≤ ptr →
  Forall2 (λ t c, t = unk_token_id self
                  ∨ id_to_token (char_tokenizer self) t = [c])
          (filter (λ t, t ≠ ws_token_id self) tokens)
          (drop (Z.to_nat ptr) input_str_no_spaces) →
  ∃ chars : str,
    render_loop self input_str_no_spaces tokens (output_chars, ptr)
    = Ok (output_chars ++ ((λ c, [c]) <$> chars),
          ptr + len (drop (Z.to_nat ptr) input_str_no_spaces))
    ∧ length chars = length tokens
    ∧ filter (λ c, c ≠ space) chars = drop (Z.to_nat ptr) input_str_no_spaces
    ∧ ∀ (k : nat) t, tokens !! k = Some t →
        (t = ws_token_id self ↔ chars !! k = Some space).
Proof using no_spaces.
  induction tokens as [|t tokens IH]; intros out ptr Hptr Hspell.
  { rewrite filter_nil in Hspell. apply Forall2_nil_inv_l in Hspell.
    exists []. rewrite Hspell. simpl. unfold len. simpl.
    rewrite app_nil_r, Z.add_0_r. split_and!; [done..|]. intros k t [=]. }
  simpl. unfold render_step.
  destruct (Z.eqb_spec t (ws_token_id self)) as [Hws|Hws].
  - rewrite filter_cons_False in Hspell by tauto. simpl.
    destruct (IH (out ++ [[space]]) ptr Hptr Hspell)
      as (chars & -> & Hlen & Hfilter & Hk).
    exists (space :: chars). rewrite fmap_cons, <- app_assoc. simpl.
    split_and!; [done|by rewrite Hlen| |].
    + by rewrite filter_cons_False by tauto.
    + intros [|k] t' Hk'; simpl in Hk'; [|by apply Hk].
      injection Hk' as <-. simpl. done.
  - rewrite filter_cons_True in Hspell by done.
    apply Forall2_cons_inv_l in Hspell as (c & rest & Htc & Hrest & Hdrop).
    assert (input_str_no_spaces !! Z.to_nat ptr = Some c) as Hc.
    { rewrite <- (Nat.add_0_r (Z.to_nat ptr)), <- lookup_drop.
      by rewrite Hdrop. }
    assert (drop (Z.to_nat (ptr + 1)) input_str_no_spaces = rest) as Hdrop'.
    { replace (Z.to_nat (ptr + 1)) with (Z.to_nat ptr + 1)%nat by lia.
      rewrite <- drop_drop. by rewrite Hdrop. }
    assert ((if negb (t =? unk_token_id self)
             then Ok (id_to_token (char_tokenizer self) t)
             else py_get input_str_no_spaces ptr ≫= λ c0, Ok [c0])
            = Ok [c]) as ->.
    { destruct (Z.eqb_spec t (unk_token_id self)) as [Hunk|Hunk]; simpl.
      - rewrite <- (Z2Nat.id ptr) by done. by rewrite py_get_nat, Hc.
      - destruct Htc as [?|Htc]; [done|]. by rewrite Htc. }
    simpl. rewrite <- Hdrop' in Hrest.
    destruct (IH (out ++ [[c]]) (ptr + 1) ltac:(lia) Hrest)
      as (chars & -> & Hlen & Hfilter & Hk).
    assert (c ≠ space) as Hcs.
    { apply (Forall_lookup_1 (λ c, c ≠ space) _ _ _ no_spaces Hc). }
    exists (c :: chars). rewrite fmap_cons, <- app_assoc. simpl.
    split_and!.
    + do 2 f_equal. rewrite Hdrop', Hdrop. unfold len. simpl. lia.
    + by rewrite Hlen.
    + rewrite filter_cons_True by done. by rewrite Hfilter, Hdrop', Hdrop.
    + intros [|k] t' Hk'; simpl in Hk'; [|by apply Hk].
      injection Hk' as <-. simpl. split; [done|]. by intros [= ?].
Qed.
End RendererTotal.

(** When the tokens between the markers that are not whitespace tokens
    spell the input without its spaces (an unknown token standing for any
    character, any other token decoding to exactly the character at its
    place), the generation renderer returns: one character per token, a
    space exactly where the token is the whitespace token, and the input
    again once the spaces are removed. *)
Theorem generation_rendering_returns {F} {imports : Imports}
    (self : TokenizationRepairer F)
    (r : SequenceGenerationInferenceResult F) (input_str : str) :
  let tokens := py_slice (token_ids r) 1 (-1) in
  Forall2 (λ t c, t = unk_token_id self
                  ∨ id_to_token (char_tokenizer self) t = [c])
          (filter (λ t, t ≠ ws_token_id self) tokens)
          (remove_spaces input_str) →
  ∃ output_str,
    _inference_result_to_str self (Generation r) input_str = Ok output_str
    ∧ length output_str = length tokens
    ∧ remove_spaces output_str = remove_spaces input_str
    ∧ ∀ (k : nat) t, tokens !! k = Some t →
        (t = ws_token_id self ↔ output_str !! k = Some space).
Proof.
  intros tokens Hspell.
  assert (Forall (λ c, c ≠ space) (remove_spaces input_str)) as Hns.
  { apply Forall_forall. intros c Hc. unfold remove_spaces in Hc.
    by apply list_elem_of_filter in Hc as [? _]. }
  destruct (render_loop_total self (remove_spaces input_str) Hns tokens [] 0
              ltac:(lia) Hspell) as (chars & Hloop & Hlen & Hfilter & Hk).
  rewrite drop_0 in Hloop, Hfilter. simpl in Hloop.
  exists chars. split_and!; [|done|done|done].
  unfold _inference_result_to_str. fold tokens. rewrite Hloop. simpl.
  unfold join. rewrite concat_singletons, Z.eqb_refl. simpl.
  by rewrite bool_decide_eq_true_2.
Qed.

Lemma generation_rendering_returns_witness :
  ∃ output_str,
    _inference_result_to_str (imports := Demo.imports)
      (Demo.repairer Transformer 6 Demo.copy)
      (Generation {| token_ids := [256; 97; 258; 32; 99; 257];
                     token_log_probabilities := [0; 0; 0; 0; 0; 0] |})
      (String.list_ascii_of_string "a x c")
    = Ok output_str
    ∧ length output_str = 4%nat.
Proof.
  destruct (generation_rendering_returns (imports := Demo.imports)
              (Demo.repairer Transformer 6 Demo.copy)
              (Build_SequenceGenerationInferenceResult Z
                 [256; 97; 258; 32; 99; 257] [0; 0; 0; 0; 0; 0])
              (String.list_ascii_of_string "a x c"))
    as (output_str & Hout & Hlen & _).
  - vm_compute.
    repeat (constructor; [first [by left|by right]|]). constructor.
  - by exists output_str.
Defined.


(** ** The order and the size of the batches *)

Lemma insert_desc_sorted {A} (key : A → Z) (e : A) (l : list A) :
  StronglySorted (λ a b, key b ≤ key a) l →
  StronglySorted (λ a b, key b ≤ key a) (insert_desc key e l).
Proof.
  induction 1 as [|x l Hsorted IH Hx]; simpl.
  { repeat constructor. }
  destruct (Z.leb_spec (key x) (key e)) as [Hle|Hgt].
  - constructor; [by constructor|]. constructor; [done|].
    eapply Forall_impl; [exact Hx|]. simpl. intros y Hy. lia.
  - constructor; [done|]. rewrite insert_desc_perm.
    constructor; [lia|done].
Qed.

Lemma insert_desc_filter {A} (key : A → Z) (k : Z) (e : A) (l : list A) :
  filter (λ x, key x = k) (insert_desc key e l)
  = filter (λ x, key x = k) (e :: l).
Proof.
  induction l as [|x l IH]; [done|]. simpl.
  destruct (Z.leb_spec (key x) (key e)) as [Hle|Hgt]; [done|].
  rewrite (filter_cons _ x), IH, !(filter_cons _ e), (filter_cons _ x).
  destruct (decide (key x = k)), (decide (key e = k)); try done. lia.
Qed.

(** Sorting by length: the entries handed to the batch loop are the
    planned entries in another order, the longer substrings first, and
    entries of equal length keep the order of the plan. *)
Theorem sort_by_length_orders_entries (batches : list BatchEntry) :
  let sorted := sorted_desc entry_length batches in
  sorted ≡ₚ batches
  ∧ StronglySorted (λ a b, entry_length b ≤ entry_length a) sorted
  ∧ ∀ k, filter (λ e, entry_length e = k) sorted
         = filter (λ e, entry_length e = k) batches.
Proof.
  intros sorted. split; [apply sorted_desc_perm|]. subst sorted. split.
  - induction batches as [|e batches IH]; [constructor|].
    by apply insert_desc_sorted.
  - intros k. induction batches as [|e batches IH]; [done|].
    change (sorted_desc entry_length (e :: batches))
      with (insert_desc entry_length e (sorted_desc entry_length batches)).
    by rewrite insert_desc_filter, !(filter_cons _ e), IH.
Qed.

Lemma concat_batches {A} (l : list A) (batch_size : Z) :
  0 < batch_size →
  ∀ (count j : nat),
  (length l ≤ (j + count) * Z.to_nat batch_size)%nat →
  concat ((λ idx, py_slice l idx (idx + batch_size))
            <$> ((λ k : nat, 0 + Z.of_nat k * batch_size) <$> seq j count))
  = drop (j * Z.to_nat batch_size) l.
Proof.
  intros Hsize count. induction count as [|count IH]; intros j Hcount.
  - rewrite drop_ge by lia. done.
  - cbn [seq]. rewrite !fmap_cons. cbn [concat].
    rewrite py_slice_take_drop by lia.
    replace (0 + Z.of_nat j * batch_size + batch_size
             - (0 + Z.of_nat j * batch_size)) with batch_size by lia.
    replace (Z.to_nat (0 + Z.of_nat j * batch_size))
      with (j * Z.to_nat batch_size)%nat by lia.
    rewrite (IH (S j)) by lia.
    rewrite <- (take_drop (Z.to_nat batch_size)
                  (drop (j * Z.to_nat batch_size) l)) at 2.
    f_equal. rewrite drop_drop. f_equal. lia.
Qed.

(** The batches partition the entries: for a positive batch size the
    batch loop visits the offsets 0, batch_size, 2 * batch_size, ...; the
    batches taken at these offsets, one after the other, are the list of
    entries; no batch is empty, none has more than [batch_size] entries
    and all but the last have exactly [batch_size]. *)
Theorem batches_partition_entries (batches : list BatchEntry)
    (batch_size : Z) :
  0 < batch_size →
  ∃ batch_idxs,
    py_range 0 (len batches) batch_size = Ok batch_idxs
    ∧ concat ((λ idx, py_slice batches idx (idx + batch_size)) <$> batch_idxs)
      = batches
    ∧ ∀ (k : nat) idx, batch_idxs !! k = Some idx →
        let batch := py_slice batches idx (idx + batch_size) in
        idx = Z.of_nat k * batch_size
        ∧ 0 < len batch ≤ batch_size
        ∧ ((S k < length batch_idxs)%nat → len batch = batch_size).
Proof.
  intros Hsize. unfold py_range.
  destruct (Z.eqb_spec batch_size 0) as [?|_]; [lia|].
  destruct (Z.ltb_spec 0 batch_size) as [_|?]; [|lia].
  rewrite Z.sub_0_r.
  destruct (window_count_bounds (len batches) batch_size Hsize
              ltac:(unfold len; lia)) as (Hc0 & Hup & Hlow).
  set (count := (len batches + batch_size - 1) / batch_size) in *.
  eexists. split; [done|]. split.
  - rewrite concat_batches by (done || unfold len in *; nia).
    by rewrite Nat.mul_0_l, drop_0.
  - intros k idx Hk.
    rewrite list_lookup_fmap in Hk.
    apply fmap_Some in Hk as (k' & [-> Hk']%lookup_seq & ->).
    simpl in *.
    rewrite py_slice_take_drop by lia.
    unfold len in *. rewrite length_take, length_drop, length_fmap, length_seq.
    split_and!; [done|nia|nia|]. intros Hnext. nia.
Qed.

Lemma batches_partition_entries_witness :
  ∃ batch_idxs,
    py_range 0 (len [(0%nat, 0, 7, 0%nat); (0%nat, 5, 13, 1%nat);
                     (0%nat, 11, 15, 2%nat)]) 2
    = Ok batch_idxs
    ∧ length batch_idxs = 2%nat.
Proof.
  destruct (batches_partition_entries
              [(0%nat, 0, 7, 0%nat); (0%nat, 5, 13, 1%nat);
               (0%nat, 11, 15, 2%nat)] 2 ltac:(lia))
    as (batch_idxs & Hrange & _).
  exists batch_idxs. split; [exact Hrange|].
  vm_compute in Hrange. by injection Hrange as <-.
Defined.

(** ** A failing adapter *)

Lemma plan_input_nonempty {F} {fzero : FloatZero F} {imports : Imports}
    (self : TokenizationRepairer F) (i : nat) (ipt : str) :
  len ipt ≤ max_length self
  ∨ sliding_windows (len ipt) (window_size self) ≠ [] →
  (plan_input self i ipt).1 ≠ [].
Proof.
  intros Hcase. unfold plan_input.
  destruct (Z.leb_spec (len ipt) (max_length self)) as [?|Hlong]; [done|].
  destruct Hcase as [?|Hne]; [lia|]. simpl.
  destruct (sliding_windows _ _); done.
Qed.

(** An exception of the adapter is the exception of the call: when some
    input has an entry to send (it fits the context, or the planner gives
    it a window) and the adapter raises, [_repair_text_raw] raises the
    same exception for every positive batch size, and so does
    [repair_text] on a list of strings. *)
Theorem adapter_failure_is_propagated {F} {fzero : FloatZero F}
    {imports : Imports} (self : TokenizationRepairer F) (inputs : list str)
    (batch_size : Z) (sort_by_length show_progress : bool) (e : error) :
  (∀ batch_sequences kwargs,
     model_inference self batch_sequences kwargs = Err e) →
  0 < batch_size →
  (∃ ipt, ipt ∈ inputs
          ∧ (len ipt ≤ max_length self
             ∨ sliding_windows (len ipt) (window_size self) ≠ [])) →
  _repair_text_raw self inputs batch_size sort_by_length show_progress = Err e
  ∧ (∀ items : list str,
       inputs = clean_sequence <$> items →
       repair_text self (InList (PyStr <$> items)) batch_size sort_by_length
                   show_progress = Err e).
Proof.
  intros Hfail Hsize (ipt & Hipt & Hcase).
  assert (_repair_text_raw self inputs batch_size sort_by_length show_progress
          = Err e) as Hraw.
  { unfold _repair_text_raw.
    destruct (plan_loop self 0 inputs (∅, [])) as [a b] eqn:Hplan.
    apply plan_loop_spec in Hplan as (_ & _ & Hmem & _).
    set (batches := if sort_by_length then sorted_desc entry_length b else b).
    assert (batches ≡ₚ b) as Hperm.
    { unfold batches. destruct sort_by_length; [apply sorted_desc_perm|done]. }
    assert (∀ e', e' ∈ batches → is_Some (inputs !! (entry_key e').1))
      as Hvalid.
    { intros e' He'. rewrite Hperm in He'.
      apply Hmem in He' as [[]%elem_of_nil|(k & ipt' & Hk & He')].
      apply list_elem_of_lookup in He' as [p Hp].
      destruct (plan_input_lookup _ _ _ _ _ Hp) as (from_ & to_ & -> & _).
      simpl. by exists ipt'. }
    assert (batches ≠ []) as Hne.
    { apply list_elem_of_lookup in Hipt as [i Hi].
      pose proof (plan_input_nonempty self (0 + i) ipt Hcase) as Hentries.
      destruct ((plan_input self (0 + i) ipt).1) as [|e0 entries] eqn:He0;
        [done|].
      assert (e0 ∈ batches) as Hin.
      { rewrite Hperm. apply Hmem. right. exists i, ipt.
        split; [done|]. rewrite He0. apply list_elem_of_here. }
      intros Hnil. rewrite Hnil in Hin. by apply elem_of_nil in Hin. }
    unfold py_range. destruct (Z.eqb_spec batch_size 0) as [?|_]; [lia|].
    destruct (Z.ltb_spec 0 batch_size) as [_|?]; [|lia]. simpl.
    rewrite Z.sub_0_r.
    destruct (window_count_bounds (len batches) batch_size Hsize
                ltac:(unfold len; lia)) as (Hc0 & Hup & _).
    set (count := (len batches + batch_size - 1) / batch_size) in *.
    assert (0 < count) as Hcount.
    { destruct batches; [done|]. unfold len in Hup. simpl in Hup. nia. }
    destruct (Z.to_nat count) as [|count'] eqn:Hc; [lia|].
    cbn [seq]. rewrite fmap_cons. cbn [process_batches].
    unfold process_batch.
    rewrite (mapM_ext_in _ (λ e', Ok (entry_sequence inputs e'))).
    - rewrite mapM_total. simpl. by rewrite Hfail.
    - intros e' He'. apply batch_sequence_Ok, Hvalid.
      rewrite py_slice_take_drop in He' by lia.
      by eapply subseteq_drop, subseteq_take. }
  split; [done|]. intros items Hclean. unfold repair_text.
  assert (mapM clean_item (PyStr <$> items) = Ok inputs) as Hitems.
  { rewrite Hclean. clear. induction items as [|s items IH]; [done|].
    rewrite !fmap_cons. simpl. by rewrite IH. }
  destruct items as [|item items].
  { subst inputs. by apply elem_of_nil in Hipt. }
  rewrite fmap_cons in Hitems |- *. simpl assert. cbn [mbind result_bind].
  rewrite Hitems. cbn [mbind result_bind]. by rewrite Hraw.
Qed.

Lemma adapter_failure_is_propagated_witness :
  repair_text (imports := Demo.imports)
    {| model_type := Transformer; max_num_embeddings := 10;
       char_tokenizer := Demo.tokenizer;
       model_inference _ _ := Err ExternalError |}
    (InList [PyStr (String.list_ascii_of_string "abc def ghi jkl")])
    16 true false
  = Err ExternalError.
Proof.
  refine (proj2 (adapter_failure_is_propagated (imports := Demo.imports)
                   (Build_TokenizationRepairer Z Transformer 10 Demo.tokenizer
                      (λ _ _, Err ExternalError))
                   [String.list_ascii_of_string "abc def ghi jkl"]
                   16 true false ExternalError _ _ _)
                [String.list_ascii_of_string "abc def ghi jkl"] eq_refl).
  - done.
  - lia.
  - eexists. split; [apply list_elem_of_here|]. right. by vm_compute.
Defined.


(** ** Files *)

(** [repair_file] on a file without lines fails the assertion of
    [repair_text] before anything is written.  With an order-preserving
    adapter and a positive batch size, a run that returns has one output
    per line of the file, the output of a line being what [repair_text]
    returns for the stripped line alone; with an output file it returns
    [None] and writes every output followed by a newline, without one it
    returns the outputs and writes nothing. *)
Theorem repair_file_line_by_line {F} {fzero : FloatZero F}
    {imports : Imports} (self : TokenizationRepairer F)
    (infer_one : str → KwEntry → PyResult F) (lines : list str)
    (output_file_path : option str) (batch_size : Z)
    (sort_by_length show_progress : bool) :
  order_preserving self infer_one →
  0 < batch_size →
  (lines = [] →
   repair_file self lines output_file_path batch_size sort_by_length
               show_progress
   = Err (AssertionError InputIsStringOrNonEmptyList))
  ∧ (∀ returned written,
       repair_file self lines output_file_path batch_size sort_by_length
                   show_progress = Ok (returned, written) →
       ∃ outs,
         length outs = length lines
         ∧ (∀ (i : nat) line o, lines !! i = Some line → outs !! i = Some o →
              repair_text self (InStr (py_strip line)) batch_size
                          sort_by_length show_progress = Ok (OutStr o))
         ∧ match output_file_path with
           | Some _ =>
               returned = None
               ∧ written = Some (concat ((λ o, o ++ [newline]) <$> outs))
           | None => returned = Some outs ∧ written = None
           end).
Proof.
  intros Hadapter Hsize. split; [by intros ->|].
  intros returned written Hrun. unfold repair_file in Hrun.
  apply bind_Ok in Hrun as (out & Hout & Hrun).
  apply (repair_text_of_list self infer_one) in Hout
    as (outs & -> & Hlen & Hline); [|done..].
  rewrite !length_fmap in Hlen.
  exists outs. split_and!; [done| |].
  - intros i line o Hi Ho.
    apply (Hline i (py_strip line) o); [|done].
    by rewrite !list_lookup_fmap, Hi.
  - destruct output_file_path; by injection Hrun as <- <-.
Qed.

Lemma repair_file_line_by_line_witness :
  repair_file (imports := Demo.imports)
    (Demo.repairer Transformer 10 Demo.copy) []
    (Some (String.list_ascii_of_string "out.txt")) 16 true true
  = Err (AssertionError InputIsStringOrNonEmptyList).
Proof.
  exact (proj1 (repair_file_line_by_line (imports := Demo.imports)
                  (Demo.repairer Transformer 10 Demo.copy) Demo.copy []
                  (Some (String.list_ascii_of_string "out.txt")) 16 true true
                  ltac:(by intros ? ?) ltac:(lia)) eq_refl).
Defined.

Example repair_file_writes_lines :
  repair_file (imports := Demo.imports)
    (Demo.repairer Transformer 10 Demo.copy)
    [String.list_ascii_of_string "  abc def ghi jkl ";
     String.list_ascii_of_string "xy"]
    (Some (String.list_ascii_of_string "out.txt")) 16 true true
  = Ok (None,
        Some (String.list_ascii_of_string "abc def ghi jkl"
              ++ [newline] ++ String.list_ascii_of_string "xy" ++ [newline])).
Proof. by vm_compute. Qed.

(** * Hooks *)

Section HookProperties.
Context {T : Type}.
Implicit Types (v : Hooks.dict (Hooks.SaveHook T))
               (d : Hooks.dict (Hooks.dict (Hooks.SaveHook T))).

Lemma clear_group_spec v (name : option string) :
  Hooks.clear_group v name
  = ((λ item, (item.1, Hooks.hook_clear item.2)) <$> v,
     from_option (λ item, Some item.1) name (last v)).
Proof.
  revert name. induction v as [|[layer hook] v IH]; intros name; [done|].
  simpl. rewrite IH. f_equal. destruct v as [|item v]; [done|].
  change (last ((layer, hook) :: item :: v)) with (last (item :: v)).
  assert (is_Some (last (item :: v))) as [? ->] by (by apply last_is_Some).
  done.
Qed.

Lemma clear_skips_other_names d (name : string) :
  name ∉ d.*1 → Hooks.clear d (Some name) = d.
Proof.
  induction d as [|[k v] d IH]; [done|]. rewrite fmap_cons. simpl.
  intros [Hk Hd]%not_elem_of_cons.
  rewrite bool_decide_eq_true_2 by (split; congruence). by rewrite IH.
Qed.

Lemma clear_passes_empty_groups d d' :
  Forall (λ item, item.2 = []) d →
  Hooks.clear (d ++ d') None = d ++ Hooks.clear d' None.
Proof.
  induction 1 as [|[k v] d Hv _ IH]; [done|]. simpl in Hv. subst v. simpl.
  by rewrite IH.
Qed.

(** [ModelHook.clear] reuses its parameter [name] as the variable of the
    inner loop.  So a call without a name clears the groups up to the
    first one that has a hook and no group after it (unless a later
    group is called like the last layer of a cleared group); a call with
    the name of a group clears this group and, under the same proviso,
    no other.  The keys and the layers of the dictionary never change. *)
Theorem clear_stops_after_first_group d d' (k : string) v
    (layer : string) (hook : Hooks.SaveHook T) :
  last v = Some (layer, hook) →
  layer ∉ d'.*1 →
  (Forall (λ item, item.2 = []) d →
   Hooks.clear (d ++ (k, v) :: d') None
   = d ++ (k, (λ item, (item.1, Hooks.hook_clear item.2)) <$> v) :: d')
  ∧ (k ∉ d.*1 →
     Hooks.clear (d ++ (k, v) :: d') (Some k)
     = d ++ (k, (λ item, (item.1, Hooks.hook_clear item.2)) <$> v) :: d').
Proof.
  intros Hlast Hlater. split.
  - intros Hempty. rewrite clear_passes_empty_groups by done.
    cbn [Hooks.clear]. rewrite bool_decide_eq_false_2 by (by intros [? _]).
    rewrite clear_group_spec, Hlast. simpl.
    by rewrite clear_skips_other_names.
  - intros Hk. induction d as [|[k0 v0] d IH]; simpl.
    + rewrite bool_decide_eq_false_2 by (by intros [_ ?]).
      rewrite clear_group_spec, Hlast. simpl.
      by rewrite clear_skips_other_names.
    + rewrite fmap_cons in Hk. apply not_elem_of_cons in Hk as [Hne Hk].
      simpl in Hne.
      rewrite bool_decide_eq_true_2 by (split; congruence).
      by rewrite IH.
Qed.

Lemma clear_keeps_keys d (name : option string) :
  (Hooks.clear d name).*1 = d.*1
  ∧ Forall2 (λ item item', item.2.*1 = item'.2.*1) (Hooks.clear d name) d.
Proof.
  revert name. induction d as [|[k v] d IH]; intros name; [by split|].
  simpl. case_bool_decide.
  - destruct (IH name) as [Hk Hl]. split; [by rewrite fmap_cons, Hk|].
    by constructor.
  - rewrite clear_group_spec.
    destruct (IH (from_option (λ item, Some item.1) name (last v)))
      as [Hk Hl].
    split; [by rewrite fmap_cons, Hk|]. constructor; [|done]. simpl.
    rewrite <- list_fmap_compose. by apply list_fmap_ext.
Qed.
End HookProperties.

Lemma clear_stops_after_first_group_witness :
  Hooks.clear
    [("attention"%string, [("layer.0"%string, {| Hooks.saved := [1; 2] |})]);
     ("outputs"%string, [("layer.1"%string, {| Hooks.saved := [3] |})])]
    None
  = [("attention"%string, [("layer.0"%string, {| Hooks.saved := [] |})]);
     ("outputs"%string, [("layer.1"%string, {| Hooks.saved := [3] |})])].
Proof.
  refine (proj1 (clear_stops_after_first_group (T := Z) []
                   [("outputs"%string,
                     [("layer.1"%string, {| Hooks.saved := [3] |})])]
                   "attention"%string
                   [("layer.0"%string, {| Hooks.saved := [1; 2] |})]
                   "layer.0"%string {| Hooks.saved := [1; 2] |}
                   eq_refl _) _).
  - simpl. intros [[=]|[]%elem_of_nil]%elem_of_cons.
  - constructor.
Defined.

Section HookUse.
Context {T N Module Class : Type}.
Variable isinstance : Module → Class → bool.
Variable numpy : T → N.

Lemma dict_get_set {V} (d : Hooks.dict V) (key key' : string) (value : V) :
  Hooks.dict_get (Hooks.dict_set d key value) key'
  = if decide (key = key') then Some value else Hooks.dict_get d key'.
Proof.
  induction d as [|[k v] d IH]; simpl.
  - by destruct (decide (key = key')).
  - destruct (decide (k = key)) as [->|Hk]; simpl.
    + by destruct (decide (key = key')).
    + rewrite IH. destruct (decide (k = key')) as [->|?]; [|done].
      by rewrite decide_False by done.
Qed.

Lemma dict_get_fmap {V W} (f : V → W) (d : Hooks.dict V) (key : string) :
  Hooks.dict_get ((λ item, (item.1, f item.2)) <$> d) key
  = f <$> Hooks.dict_get d key.
Proof.
  induction d as [|[k v] d IH]; [done|]. rewrite fmap_cons. simpl.
  by destruct (decide (k = key)).
Qed.

Lemma getitem_spec (d : Hooks.dict (Hooks.dict (Hooks.SaveHook T)))
    (name : string) :
  Hooks.getitem numpy d name
  = from_option
      (λ group, Ok ((λ item, (item.1, numpy <$> Hooks.saved item.2))
                      <$> group))
      (Err ValueError) (Hooks.dict_get d name).
Proof.
  unfold Hooks.getitem. destruct (Hooks.dict_get d name) as [group|]; [|done].
  simpl. f_equal. apply list_fmap_ext. by intros ? [??] ?.
Qed.

Lemma attach_takes (attach_to_cls : Class) (layer_name : option string)
    (module_name : string) (module : Module) :
  isinstance module attach_to_cls
  && negb (bool_decide (layer_name ≠ None ∧ layer_name ≠ Some module_name))
  = true
  ↔ Hooks.attaches isinstance attach_to_cls layer_name (module_name, module).
Proof.
  unfold Hooks.attaches. simpl.
  rewrite andb_true_iff, negb_true_iff, bool_decide_eq_false.
  split; intros [Hcls Hname]; (split; [done|]).
  - destruct layer_name as [l|]; [|by left]. right.
    destruct (decide (l = module_name)) as [->|?]; [done|].
    destruct Hname. split; congruence.
  - intros [Hsome Hne]. by destruct Hname.
Qed.

Lemma attach_other_names d (name name' : string)
    (named_modules : list (string * Module)) (hook : Hooks.SaveHook T)
    (attach_to_cls : Class) (layer_name : option string) :
  name' ≠ name →
  Hooks.dict_get
    (Hooks.attach isinstance d name named_modules hook attach_to_cls
       layer_name) name'
  = Hooks.dict_get d name'.
Proof.
  intros Hne. revert d.
  induction named_modules as [|[module_name module] rest IH]; intros d;
    [done|].
  simpl. destruct (_ && _); [|done].
  rewrite IH. unfold Hooks.attach_one. rewrite dict_get_set.
  by rewrite decide_False by done.
Qed.

Lemma attach_keeps_taken d (name : string)
    (named_modules : list (string * Module)) (hook : Hooks.SaveHook T)
    (attach_to_cls : Class) (layer_name : option string)
    (group : Hooks.dict (Hooks.SaveHook T)) (module_name : string) :
  Hooks.dict_get d name = Some group →
  Hooks.dict_get group module_name = Some hook →
  ∃ group',
    Hooks.dict_get
      (Hooks.attach isinstance d name named_modules hook attach_to_cls
         layer_name) name = Some group'
    ∧ Hooks.dict_get group' module_name = Some hook.
Proof.
  revert d group.
  induction named_modules as [|[module_name' module] rest IH];
    intros d group Hd Hgroup; [by exists group|].
  simpl. destruct (_ && _); [|by eapply IH].
  eapply IH.
  - unfold Hooks.attach_one. rewrite dict_get_set, decide_True by done.
    by rewrite Hd.
  - simpl. rewrite dict_get_set.
    by destruct (decide (module_name' = module_name)).
Qed.

(** [ModelHook.attach] followed by [ModelHook.__getitem__]: when no
    module of the model is of the class (or called [layer_name]) the
    dictionary stays as it is, so a name that was never attached still
    raises; the groups of the other names are kept; and for every module
    that is taken, [__getitem__] of the name returns, under the module's
    name, what the given hook has saved. *)
Theorem attached_hooks_are_returned d (name : string)
    (named_modules : list (string * Module)) (hook : Hooks.SaveHook T)
    (attach_to_cls : Class) (layer_name : option string) :
  let attached :=
    Hooks.attach isinstance d name named_modules hook attach_to_cls
      layer_name in
  (Forall (λ item, ¬ Hooks.attaches isinstance attach_to_cls layer_name item)
     named_modules →
   attached = d)
  ∧ (∀ name', name' ≠ name →
       Hooks.getitem numpy attached name' = Hooks.getitem numpy d name')
  ∧ (∀ item, item ∈ named_modules →
       Hooks.attaches isinstance attach_to_cls layer_name item →
       ∃ tensors,
         Hooks.getitem numpy attached name = Ok tensors
         ∧ Hooks.dict_get tensors item.1 = Some (numpy <$> Hooks.saved hook)).
Proof.
  intros attached. subst attached. split_and!.
  - revert d. induction named_modules as [|[module_name module] rest IH];
      intros d Hnone; [done|].
    apply Forall_cons in Hnone as [Hnot Hnone]. simpl.
    destruct (_ && _) eqn:Htakes; [|by apply IH].
    by apply attach_takes in Htakes.
  - intros name' Hne. by rewrite !getitem_spec, attach_other_names.
  - intros [module_name module] Hin Htakes. simpl.
    cut (∃ group,
           Hooks.dict_get
             (Hooks.attach isinstance d name named_modules hook
                attach_to_cls layer_name) name = Some group
           ∧ Hooks.dict_get group module_name = Some hook).
    { intros (group & Hgroup & Hhook). rewrite getitem_spec, Hgroup. simpl.
      eexists. split; [done|].
      by rewrite (dict_get_fmap (λ h, numpy <$> Hooks.saved h)), Hhook. }
    revert d. induction named_modules as [|[module_name' module'] rest IH];
      intros d; [by apply elem_of_nil in Hin|].
    apply elem_of_cons in Hin as [[= <- <-]|Hin].
    + apply attach_takes in Htakes. simpl. rewrite Htakes.
      eapply attach_keeps_taken.
      * unfold Hooks.attach_one. by rewrite dict_get_set, decide_True by done.
      * by rewrite dict_get_set, decide_True by done.
    + simpl. destruct (_ && _); by apply IH.
Qed.

(** [ModelHook.clear(name)] with the name of a group empties every hook of
    this group: [__getitem__] then returns the layers of the group, each
    with nothing saved. *)
Theorem clear_by_name_empties_the_group
    (d : Hooks.dict (Hooks.dict (Hooks.SaveHook T))) (name : string)
    (group : Hooks.dict (Hooks.SaveHook T)) :
  Hooks.dict_get d name = Some group →
  Hooks.getitem numpy (Hooks.clear d (Some name)) name
  = Ok ((λ item, (item.1, [])) <$> group).
Proof.
  intros Hgroup. rewrite getitem_spec.
  induction d as [|[k v] d IH]; [done|]. simpl in Hgroup |- *.
  destruct (decide (k = name)) as [->|Hk].
  - injection Hgroup as ->.
    rewrite bool_decide_eq_false_2 by (by intros [_ ?]).
    rewrite clear_group_spec. simpl. rewrite decide_True by done. simpl.
    f_equal. rewrite <- list_fmap_compose. by apply list_fmap_ext.
  - rewrite bool_decide_eq_true_2 by (split; congruence).
    simpl. rewrite decide_False by done. by apply IH.
Qed.
End HookUse.

Lemma attached_hooks_are_returned_witness :
  ∃ tensors,
    Hooks.getitem (λ t : Z, t)
      (Hooks.attach (λ (module : bool) (_ : unit), module) [] "outputs"
         [("encoder"%string, false); ("encoder.linear"%string, true)]
         {| Hooks.saved := [4; 5] |} () None) "outputs"
    = Ok tensors
    ∧ Hooks.dict_get tensors "encoder.linear" = Some [4; 5].
Proof.
  refine (proj2 (proj2 (attached_hooks_are_returned
                          (λ (module : bool) (_ : unit), module)
                          (λ t : Z, t) [] "outputs"
                          [("encoder"%string, false);
                           ("encoder.linear"%string, true)]
                          {| Hooks.saved := [4; 5] |} () None))
            ("encoder.linear"%string, true) _ _).
  - apply elem_of_cons. right. apply elem_of_cons. by left.
  - split; [done|by left].
Defined.

Lemma clear_by_name_empties_the_group_witness :
  Hooks.getitem (λ t : Z, t)
    (Hooks.clear
       [("attention"%string, [("layer.0"%string, {| Hooks.saved := [1] |})]);
        ("outputs"%string, [("layer.1"%string, {| Hooks.saved := [3] |})])]
       (Some "outputs"%string)) "outputs"
  = Ok [("layer.1"%string, [])].
Proof.
  exact (clear_by_name_empties_the_group (λ t : Z, t)
           [("attention"%string,
             [("layer.0"%string, {| Hooks.saved := [1] |})]);
            ("outputs"%string,
             [("layer.1"%string, {| Hooks.saved := [3] |})])]
           "outputs"%string
           [("layer.1"%string, {| Hooks.saved := [3] |})] eq_refl).
Defined.

(** * Metrics *)

Section NormalizedEditDistance.
Context {A float : Type} {floats : Metrics.PyFloat float}.
Variable ed : list A → list A → Z.

Lemma ned_terms_raise (pairs : list (list A * list A)) :
  Metrics.ned_terms ed pairs = Metrics.ZeroDivisionError
  ↔ ∃ i : nat, pairs !! i = Some ([], []).
Proof.
  induction pairs as [|[s t] pairs IH]; simpl.
  - split; [done|]. by intros [i ?].
  - destruct (decide (_ = 0)) as [Hzero|Hpos].
    + split; [|done]. intros _. exists 0%nat.
      destruct s, t; simpl in Hzero; (done || lia).
    + destruct (Metrics.ned_terms ed pairs) eqn:Hterms.
      * split; [done|]. intros [[|i] Hi]; simpl in Hi.
        -- injection Hi as -> ->. by destruct Hpos.
        -- assert (@Metrics.Returns (list float) a
                   = Metrics.ZeroDivisionError) as [=].
           apply IH. by exists i.
      * split; [|done]. intros _.
        destruct (proj1 IH eq_refl) as [i Hi]. by exists (S i).
Qed.

(** [_ned] raises [ZeroDivisionError] exactly when, at some position,
    the sequence and its target are both empty. *)
Theorem ned_raises_on_an_empty_pair (l1 l2 : list (list A)) :
  Metrics._ned ed l1 l2 = Metrics.ZeroDivisionError
  ↔ ∃ i : nat, l1 !! i = Some [] ∧ l2 !! i = Some [].
Proof.
  unfold Metrics._ned.
  transitivity (Metrics.ned_terms ed (zip l1 l2) = Metrics.ZeroDivisionError).
  { by destruct (Metrics.ned_terms ed (zip l1 l2)). }
  rewrite ned_terms_raise. apply exist_proper. intros i.
  split.
  - by intros (s & t & [= <- <-] & ? & ?)%lookup_zip_with_Some.
  - intros [? ?]. apply lookup_zip_with_Some. by exists [], [].
Qed.
End NormalizedEditDistance.

Lemma insertions_and_deletions_loop_elem_of (i : nat) (repair_ops : list Z)
    (found : gset (nat * Z)) (j : nat) (op : Z) :
  (j, op) ∈ Metrics.insertions_and_deletions_loop i repair_ops found
  ↔ (j, op) ∈ found
    ∨ ((i ≤ j)%nat ∧ repair_ops !! (j - i)%nat = Some op ∧ op ≠ 0).
Proof.
  revert i found. induction repair_ops as [|op' rest IH]; intros i found.
  - simpl. split; [by left|]. by intros [?|(_ & [=] & _)].
  - simpl. rewrite IH. destruct (decide (op' ≠ 0)) as [Hop|Hop].
    + rewrite elem_of_union, elem_of_singleton. split.
      * intros [[[= -> ->]|?]|(Hle & Hget & Hne)]; [|by left|].
        -- right. by rewrite Nat.sub_diag.
        -- right. split; [lia|].
           by replace (j - i)%nat with (S (j - S i)) by lia.
      * intros [?|(Hle & Hget & Hne)]; [by left; right|].
        destruct (decide (j = i)) as [->|Hj].
        -- rewrite Nat.sub_diag in Hget. injection Hget as ->.
           by left; left.
        -- right. split; [lia|].
           by replace (j - i)%nat with (S (j - S i)) in Hget by lia.
    + apply dec_stable in Hop. subst op'. split.
      * intros [?|(Hle & Hget & Hne)]; [by left|].
        right. split; [lia|].
        by replace (j - i)%nat with (S (j - S i)) by lia.
      * intros [?|(Hle & Hget & Hne)]; [by left|].
        destruct (decide (j = i)) as [->|Hj].
        -- rewrite Nat.sub_diag in Hget. by injection Hget as <-.
        -- right. split; [lia|].
           by replace (j - i)%nat with (S (j - S i)) in Hget by lia.
Qed.

Lemma insertions_and_deletions_loop_size (i : nat) (repair_ops : list Z)
    (found : gset (nat * Z)) :
  (∀ j op, (j, op) ∈ found → (j < i)%nat) →
  size (Metrics.insertions_and_deletions_loop i repair_ops found)
  = (size found + length (filter (λ op : Z, op ≠ 0%Z) repair_ops))%nat.
Proof.
  revert i found. induction repair_ops as [|op rest IH];
    intros i found Hbelow.
  - simpl. lia.
  - simpl. destruct (decide (op ≠ 0)) as [Hop|Hop].
    + rewrite filter_cons_True by done. rewrite IH.
      * rewrite size_union, size_singleton; [simpl; lia|].
        intros [j op'] [= -> ->]%elem_of_singleton Hin.
        apply Hbelow in Hin. lia.
      * intros j op' [[= -> ->]%elem_of_singleton|Hin]%elem_of_union;
          [lia|]. apply Hbelow in Hin. lia.
    + rewrite filter_cons_False by done. rewrite IH; [done|].
      intros j op' Hin. apply Hbelow in Hin. lia.
Qed.

(** [_insertions_and_deletions] returns the pairs of a position and the
    operation at this position for the operations that are not 0, so one
    element for every such operation. *)
Theorem insertions_and_deletions_are_the_nonzero_operations
    (repair_ops : list Z) :
  (∀ (i : nat) (op : Z),
     (i, op) ∈ Metrics._insertions_and_deletions repair_ops
     ↔ repair_ops !! i = Some op ∧ op ≠ 0)
  ∧ size (Metrics._insertions_and_deletions repair_ops)
    = length (filter (λ op, op ≠ 0) repair_ops).
Proof.
  unfold Metrics._insertions_and_deletions. split.
  - intros i op. rewrite insertions_and_deletions_loop_elem_of.
    rewrite Nat.sub_0_r. split.
    + by intros [?%elem_of_empty|(_ & ? & ?)].
    + intros [? ?]. right. split; [lia|done].
  - rewrite insertions_and_deletions_loop_size; [by rewrite size_empty|].
    by intros j op ?%elem_of_empty.
Qed.

Lemma size_list_to_set_disj (tokens : list str) :
  size (list_to_set_disj tokens : gmultiset str) = length tokens.
Proof.
  induction tokens as [|token tokens IH]; [done|].
  rewrite list_to_set_disj_cons, gmultiset_size_disj_union,
    gmultiset_size_singleton, IH. done.
Qed.

Lemma tokens_in_common_bounds (tokens target_tokens : list str) :
  let common :=
    size ((list_to_set_disj tokens : gmultiset str)
          ∩ list_to_set_disj target_tokens) in
  (common ≤ length tokens)%nat ∧ (common ≤ length target_tokens)%nat
  ∧ (common = 0%nat ↔ ∀ token, token ∈ tokens → token ∉ target_tokens).
Proof.
  intros common. subst common. split_and!.
  - rewrite <- (size_list_to_set_disj tokens).
    apply gmultiset_subseteq_size. multiset_solver.
  - rewrite <- (size_list_to_set_disj target_tokens).
    apply gmultiset_subseteq_size. multiset_solver.
  - rewrite gmultiset_size_empty_iff. split.
    + intros Hempty token Hin Hin'.
      apply (gmultiset_elem_of_empty (A := str) token). rewrite <- Hempty.
      apply gmultiset_elem_of_intersection.
      by rewrite !elem_of_list_to_set_disj.
    + intros Hdisjoint. apply gmultiset_eq. intros token.
      rewrite multiplicity_empty. apply not_elem_of_multiplicity.
      rewrite gmultiset_elem_of_intersection, !elem_of_list_to_set_disj.
      intros [? ?]. by eapply Hdisjoint.
Qed.

Section ScoreProperties.
Context {float : Type} {floats : Metrics.PyFloat float}.
(** A proportion is the float zero only when its numerator is 0. *)
Hypothesis proportion_zero : ∀ a b : Z,
  0 ≤ a ≤ b → 0 < b →
  Metrics.is_zero (Metrics.truediv a b) = true ↔ a = 0.

Lemma scores_none (tp fp fn : Z) :
  0 ≤ tp → 0 ≤ fp → 0 ≤ fn →
  Metrics._tp_fp_fn_to_f1_prec_rec tp fp fn = None ↔ tp = 0.
Proof.
  intros Htp Hfp Hfn. unfold Metrics._tp_fp_fn_to_f1_prec_rec.
  pose proof (proportion_zero tp (Z.max (tp + fp) 1)) as Hprecision.
  pose proof (proportion_zero tp (Z.max (tp + fn) 1)) as Hrecall.
  destruct (Metrics.is_zero (Metrics.truediv tp (Z.max (tp + fp) 1)))
    eqn:Hp; simpl.
  - destruct (Metrics.is_zero (Metrics.truediv tp (Z.max (tp + fn) 1)))
      eqn:Hr; simpl.
    + split; [|done]. intros _. apply Hprecision; [lia|lia|done].
    + split; [done|]. intros Hzero.
      apply Hrecall in Hzero; [congruence|lia|lia].
  - split; [done|]. intros Hzero.
    apply Hprecision in Hzero; [congruence|lia|lia].
Qed.

Lemma f1_prec_rec_counts (split_fn : str → list str)
    (pairs : list (str * str)) (tp fp fn : Z) :
  0 ≤ tp → 0 ≤ fp → 0 ≤ fn →
  ∃ tp' fp' fn',
    foldl (Metrics.f1_prec_rec_step split_fn) (tp, fp, fn) pairs
    = (tp', fp', fn')
    ∧ 0 ≤ tp' ∧ 0 ≤ fp' ∧ 0 ≤ fn'
    ∧ (tp' = 0
       ↔ tp = 0
         ∧ Forall (λ pair, ∀ token,
                     token ∈ split_fn pair.1 → token ∉ split_fn pair.2)
                  pairs).
Proof.
  revert tp fp fn. induction pairs as [|[sequence target] pairs IH];
    intros tp fp fn Htp Hfp Hfn.
  - exists tp, fp, fn. split_and!; try done. split; [done|]. by intros [? _].
  - simpl.
    destruct (tokens_in_common_bounds (split_fn sequence) (split_fn target))
      as (Hl & Hr & Hzero).
    destruct (IH (tp + Z.of_nat
                         (size ((list_to_set_disj (split_fn sequence)
                                 : gmultiset str)
                                ∩ list_to_set_disj (split_fn target))))
                 (fp + (Z.of_nat (length (split_fn sequence))
                        - Z.of_nat
                            (size ((list_to_set_disj (split_fn sequence)
                                    : gmultiset str)
                                   ∩ list_to_set_disj (split_fn target)))))
                 (fn + (Z.of_nat (length (split_fn target))
                        - Z.of_nat
                            (size ((list_to_set_disj (split_fn sequence)
                                    : gmultiset str)
                                   ∩ list_to_set_disj (split_fn target))))))
      as (tp' & fp' & fn' & Hfold & Htp' & Hfp' & Hfn' & Hiff);
      [lia..|].
    exists tp', fp', fn'. split_and!; try done.
    rewrite Hiff, Forall_cons. simpl. rewrite <- Hzero. split.
    + intros [Hsum Hall]. split_and!; [lia|lia|done].
    + intros (-> & -> & Hall). split; [lia|done].
Qed.

(** [f1_prec_rec] returns [None] exactly when no sequence has a token in
    common with its target: then there is no true positive, and precision
    and recall are both zero. *)
Theorem f1_prec_rec_none_without_common_token
    (sequences target_sequences : list str)
    (split_fn : option (str → list str)) :
  Metrics.f1_prec_rec sequences target_sequences split_fn = None
  ↔ Forall (λ pair, ∀ token,
              token ∈ default Metrics.split_space split_fn pair.1 →
              token ∉ default Metrics.split_space split_fn pair.2)
           (zip sequences target_sequences).
Proof.
  unfold Metrics.f1_prec_rec.
  destruct (f1_prec_rec_counts (default Metrics.split_space split_fn)
              (zip sequences target_sequences) 0 0 0)
    as (tp & fp & fn & -> & Htp & Hfp & Hfn & Hiff); [done..|].
  rewrite scores_none by done. rewrite Hiff. split; [by intros [_ ?]|done].
Qed.

Lemma split_space_first (s : str) : ∃ word words,
  Metrics.split_space s = word :: words.
Proof.
  induction s as [|c s (word & words & IH)]; simpl; [by eexists _, _|].
  destruct (decide (c = " "%char)); [by eexists _, _|].
  rewrite IH. by eexists _, _.
Qed.

(** With the default [split(" ")] every string has a token, the empty
    string the empty token; so [f1_prec_rec] of sequences that equal their
    targets returns scores, unless there is no sequence at all. *)
Theorem f1_prec_rec_of_equal_sequences (sequences : list str) :
  sequences ≠ [] →
  Metrics.f1_prec_rec sequences sequences None ≠ None.
Proof.
  intros Hsome. unfold Metrics.f1_prec_rec.
  destruct (f1_prec_rec_counts Metrics.split_space
              (zip sequences sequences) 0 0 0)
    as (tp & fp & fn & Hfold & Htp & Hfp & Hfn & Hiff); [done..|].
  simpl. rewrite Hfold. rewrite scores_none by done. rewrite Hiff.
  intros [_ Hall]. destruct sequences as [|s sequences]; [done|].
  simpl in Hall. apply Forall_cons in Hall as [Hs _]. simpl in Hs.
  destruct (split_space_first s) as (word & words & Hsplit).
  apply (Hs word); rewrite Hsplit; apply elem_of_cons; by left.
Qed.
End ScoreProperties.


Lemma f1_prec_rec_none_without_common_token_witness :
  Metrics.f1_prec_rec (floats := Metrics.Fractions.floats)
    [String.list_ascii_of_string "a b"] [String.list_ascii_of_string "c"]
    None
  = None.
Proof.
  apply (f1_prec_rec_none_without_common_token
           (floats := Metrics.Fractions.floats)).
  - intros a b Hab Hb. simpl. rewrite bool_decide_eq_true.
    rewrite Z.sgn_pos by lia. lia.
  - repeat constructor. simpl. intros token Hin Hin'.
    apply list_elem_of_singleton in Hin'. subst token.
    apply elem_of_cons in Hin as [[=]|Hin].
    by apply list_elem_of_singleton in Hin.
Defined.

Lemma f1_prec_rec_of_equal_sequences_witness :
  Metrics.f1_prec_rec (floats := Metrics.Fractions.floats) [[]] [[]] None
  ≠ None.
Proof.
  apply (f1_prec_rec_of_equal_sequences
           (floats := Metrics.Fractions.floats)); [|done].
  intros a b Hab Hb. simpl. rewrite bool_decide_eq_true.
  rewrite Z.sgn_pos by lia. lia.
Defined.
